(** * sinabs, DYNAP-CNN backend: layer fusion and configuration

    A shallow embedding of
      - [sinabs/backend/dynapcnn/utils.py]
          ([merge_conv_bn], [expand_to_pair], [construct_next_pooling_layer],
           [construct_next_dynapcnn_layer]),
      - [sinabs/backend/dynapcnn/dynapcnn_layer_new.py]
          ([DynapcnnLayer.__init__], [_convert_linear_to_conv],
           [get_conv_output_shape], ...),
      - [sinabs/backend/dynapcnn/dynapcnn_network_graph.py]
          ([make_config], [_make_config]),
    followed by the properties of these functions.

    Python integers are [Z]; list indices are [nat].  Torch modules are
    objects with identity: they live in a heap and are passed by reference,
    so that [deepcopy] and the assignments to [.data] can be told apart.
    Tensor elements are kept abstract (class [Arith]): the development is
    about which operations are applied to which object, in which order, and
    not about rounding. *)

From Stdlib Require Import ZArith String DecimalString Bool List Lia.
Import ListNotations.
Open Scope Z_scope.

Set Implicit Arguments.

(** ** Exceptions and results *)

Inductive exn : Type :=
| ValueError (msg : string)
| TypeError (msg : string)
| AttributeError (msg : string)
| KeyError (msg : string)
| IndexError (msg : string)
| RuntimeError (msg : string)
| ZeroDivisionError
| Exception (msg : string)
| InvalidReference.
(** [InvalidReference] is not a Python exception: it is the outcome of
    following a reference that is not in the heap, which no state reached
    from a program contains. *)

Inductive result (A : Type) : Type :=
| OK (a : A)
| Raise (e : exn).
Arguments OK {A} a.
Arguments Raise {A} e.

Definition rbind {A B} (r : result A) (k : A -> result B) : result B :=
  match r with
  | OK a => k a
  | Raise e => Raise e
  end.

Declare Scope result_scope.
Delimit Scope result_scope with result.
Notation "'do' x <- r ; k" := (rbind r (fun x => k))
  (at level 10, x pattern, r at level 100, k at level 200) : result_scope.

(** The messages of the [raise] statements of the sources. *)
Definition msg_padding : string :=
  "Padding is not supported for the pooling layers".
Definition msg_stride : string :=
  "Stride length should be the same as pooling kernel size".
Definition msg_square : string := "Only square kernels are supported".
Definition msg_shapes : string := "Shapes don't match.".
Definition msg_no_conv : string := "Convolution layer not present.".
Definition msg_no_spk : string := "Spiking layer not present.".
Definition msg_start : string :=
  "The list of layers needs to start with Conv2d or Linear.".
Definition msg_end_of_network : string :=
  "Convolution must be followed by spiking layer. End of network found.".

(** The error kinds of the specification are names for these sites. *)
Definition ShapeMismatchError : exn := ValueError msg_shapes.

Inductive ConstraintViolation : exn -> Prop :=
| CV_padding : ConstraintViolation (ValueError msg_padding)
| CV_stride : ConstraintViolation (ValueError msg_stride)
| CV_square : ConstraintViolation (ValueError msg_square).

(** ** Python values used as sizes: [None], an [int] or a pair of [int]s *)

Inductive pyval : Type :=
| PNone
| PInt (v : Z)
| PPair (a b : Z).

Definition pyval_eqb (x y : pyval) : bool :=
  match x, y with
  | PNone, PNone => true
  | PInt a, PInt b => a =? b
  | PPair a b, PPair c d => (a =? c) && (b =? d)
  | _, _ => false
  end.

(** [value[i]] *)
Definition subscript (value : pyval) (i : nat) : result Z :=
  match value with
  | PNone => Raise (TypeError "'NoneType' object is not subscriptable")
  | PInt _ => Raise (TypeError "'int' object is not subscriptable")
  | PPair a b =>
      match i with
      | O => OK a
      | S O => OK b
      | _ => Raise (IndexError "tuple index out of range")
      end
  end.

(** utils.py, [expand_to_pair] *)
Definition expand_to_pair (value : pyval) : pyval :=
  match value with
  | PInt v => PPair v v
  | _ => value
  end.

(** [a // b] on Python integers *)
Definition floordiv (a b : Z) : result Z :=
  if b =? 0 then Raise ZeroDivisionError else OK (a / b).

(** ** Tensors: a shape and the contiguous row-major storage *)

Record Tensor (F : Type) : Type := mkTensor {
  shape : list Z;
  data : list F
}.
Arguments mkTensor {F} shape data.

Definition numel (shp : list Z) : Z := fold_right Z.mul 1 shp.

(** Scalar arithmetic of tensor elements, and the conversion of a Python
    number to an element. *)
Class Arith (F : Type) : Type := {
  fadd : F -> F -> F;
  fsub : F -> F -> F;
  fmul : F -> F -> F;
  fdiv : F -> F -> F;
  fsqrt : F -> F;
  of_int : Z -> F
}.

(** ** Torch and sinabs modules *)

Module Conv2d.
Record t (F : Type) : Type := mk {
  in_channels : Z;
  out_channels : Z;
  kernel_size : Z * Z;
  stride : Z * Z;
  padding : Z * Z;
  dilation : Z * Z;
  weight : Tensor F;
  bias : option (Tensor F)
}.
Arguments mk {F}.
End Conv2d.

Module Linear.
Record t (F : Type) : Type := mk {
  in_features : Z;
  out_features : Z;
  weight : Tensor F;
  bias : option (Tensor F)
}.
Arguments mk {F}.
End Linear.

Module BatchNorm2d.
Record t (F : Type) : Type := mk {
  affine : bool;
  running_mean : option (Tensor F);
  running_var : option (Tensor F);
  weight : option (Tensor F);
  bias : option (Tensor F)
}.
Arguments mk {F}.
End BatchNorm2d.

Module AvgPool2d.
Record t : Type := mk {
  kernel_size : pyval;
  stride : pyval;
  padding : pyval
}.
End AvgPool2d.

(** [sinabs.layers.SumPool2d]: the sources read [kernel_size] and [stride]
    and build it from a kernel size alone, which leaves [stride] at
    [None]. *)
Module SumPool2d.
Record t : Type := mk {
  kernel_size : pyval;
  stride : pyval
}.
Definition new (kernel_size : pyval) : t := mk kernel_size PNone.
End SumPool2d.

(** A sinabs spiking layer.  [v_mem] is [None] while the state is not
    initialised ([is_state_initialised()] is then false); the remaining
    parameters (threshold, lower bound) are only touched by the
    discretisation. *)
Module IAFSqueeze.
Record t (F : Type) : Type := mk {
  v_mem : option (Tensor F);
  spike_threshold : F;
  min_v_mem : option F
}.
Arguments mk {F}.
End IAFSqueeze.

Inductive Layer (F : Type) : Type :=
| LConv2d (c : Conv2d.t F)
| LLinear (l : Linear.t F)
| LBatchNorm2d (b : BatchNorm2d.t F)
| LAvgPool2d (p : AvgPool2d.t)
| LSumPool2d (p : SumPool2d.t)
| LIAFSqueeze (s : IAFSqueeze.t F)
| LOther (class_name : string).
Arguments LConv2d {F} c.
Arguments LLinear {F} l.
Arguments LBatchNorm2d {F} b.
Arguments LAvgPool2d {F} p.
Arguments LSumPool2d {F} p.
Arguments LIAFSqueeze {F} s.
Arguments LOther {F} class_name.

Definition class_name {F} (l : Layer F) : string :=
  match l with
  | LConv2d _ => "Conv2d"
  | LLinear _ => "Linear"
  | LBatchNorm2d _ => "BatchNorm2d"
  | LAvgPool2d _ => "AvgPool2d"
  | LSumPool2d _ => "SumPool2d"
  | LIAFSqueeze _ => "IAFSqueeze"
  | LOther n => n
  end.

(** ** utils.py, [construct_next_pooling_layer] *)

(** The variables the [for] loop assigns. *)
Record pool_vars : Type := mkPoolVars {
  idx_next : nat;
  cumulative_pooling : Z * Z;
  rescale_factor : Z
}.

(** Lines 90-100: the part of the loop body after the type dispatch. *)
Definition accumulate_pooling (kernel_size stride : pyval) (vars : pool_vars)
  : result pool_vars :=
  let pooling := expand_to_pair kernel_size in
  let stride := expand_to_pair stride in
  if negb (pyval_eqb pooling stride) then Raise (ValueError msg_stride)
  else
    (do p0 <- subscript pooling 0;
     do p1 <- subscript pooling 1;
     OK (mkPoolVars (idx_next vars)
           (fst (cumulative_pooling vars) * p0,
            snd (cumulative_pooling vars) * p1)
           (rescale_factor vars * (p0 * p1))))%result.

(** Lines 80-100: [for idx_next, lyr in enumerate(layers)], entered at
    index [i] with the remaining [layers]. *)
Fixpoint pooling_loop {F} (i : nat) (layers : list (Layer F))
  (vars : pool_vars) : result pool_vars :=
  match layers with
  | [] => OK vars
  | lyr :: rest =>
      let vars :=
        mkPoolVars i (cumulative_pooling vars) (rescale_factor vars) in
      match lyr with
      | LAvgPool2d p =>
          if negb (pyval_eqb (AvgPool2d.padding p) (PInt 0))
          then Raise (ValueError msg_padding)
          else
            (do vars' <- accumulate_pooling (AvgPool2d.kernel_size p)
                           (AvgPool2d.stride p) vars;
             pooling_loop (S i) rest vars')%result
      | LSumPool2d p =>
          (do vars' <- accumulate_pooling (SumPool2d.kernel_size p)
                         (SumPool2d.stride p) vars;
           pooling_loop (S i) rest vars')%result
      | _ => OK vars
      end
  end.

Definition construct_next_pooling_layer {F} (layers : list (Layer F))
  : result (option SumPool2d.t * nat * Z) :=
  (do vars <- pooling_loop 0 layers (mkPoolVars 0 (1, 1) 1);
   let '(c0, c1) := cumulative_pooling vars in
   if (c0 =? 1) && (c1 =? 1)
   then OK (None, idx_next vars, 1)
   else OK (Some (SumPool2d.new (PPair c0 c1)), idx_next vars,
            rescale_factor vars))%result.

(** ** dynapcnn_layer_new.py, [DynapcnnLayer.get_conv_output_shape] *)

Definition get_conv_output_shape {F} (conv_layer : Conv2d.t F)
  (input_shape : Z * Z * Z) : result (Z * Z * Z) :=
  let '(_, in_h, in_w) := input_shape in
  let out_channels := Conv2d.out_channels conv_layer in
  let kernel_size := Conv2d.kernel_size conv_layer in
  let stride := Conv2d.stride conv_layer in
  let padding := Conv2d.padding conv_layer in
  let dilation := Conv2d.dilation conv_layer in
  (do qh <- floordiv
       (in_h + 2 * fst padding - fst dilation * (fst kernel_size - 1) - 1)
       (fst stride);
   let out_height := qh + 1 in
   do qw <- floordiv
       (in_w + 2 * snd padding - snd dilation * (snd kernel_size - 1) - 1)
       (snd stride);
   let out_width := qw + 1 in
   OK (out_channels, out_height, out_width))%result.

(** ** Tensor operations *)

Section TensorOps.
Context {F : Type} {arith : Arith F}.

Definition map_tensor (f : F -> F) (t : Tensor F) : Tensor F :=
  mkTensor (shape t) (map f (data t)).

(** [n] consecutive chunks of [k] elements. *)
Fixpoint chunks {A} (n k : nat) (l : list A) : list (list A) :=
  match n with
  | O => []
  | S n' => firstn k l :: chunks n' k (skipn k l)
  end.

Fixpoint zip_with {A B C} (f : A -> B -> C) (l1 : list A) (l2 : list B)
  : list C :=
  match l1, l2 with
  | a :: l1', b :: l2' => f a b :: zip_with f l1' l2'
  | _, _ => []
  end.

(** Broadcasting of two shapes of the same rank. *)
Fixpoint broadcast_dims (s1 s2 : list Z) : option (list Z) :=
  match s1, s2 with
  | [], [] => Some []
  | a :: s1', b :: s2' =>
      match broadcast_dims s1' s2' with
      | None => None
      | Some s =>
          if a =? b then Some (a :: s)
          else if a =? 1 then Some (b :: s)
          else if b =? 1 then Some (a :: s)
          else None
      end
  | _, _ => None
  end.

Definition pad_rank (r : nat) (s : list Z) : list Z :=
  repeat 1 (r - List.length s) ++ s.

(** The storage of a tensor of shape [src] seen at the broadcast shape
    [tgt] (same rank; a dimension of [src] is that of [tgt], or 1). *)
Fixpoint expand_to {A} (src tgt : list Z) (d : list A) : list A :=
  match src, tgt with
  | a :: src', b :: tgt' =>
      let parts :=
        map (expand_to src' tgt')
          (chunks (Z.to_nat a) (Z.to_nat (numel src')) d) in
      if a =? b then concat parts
      else concat (repeat (concat parts) (Z.to_nat b))
  | _, _ => d
  end.

(** Elementwise [t1 op t2] with broadcasting. *)
Definition tensor_binop (op : F -> F -> F) (t1 t2 : Tensor F)
  : result (Tensor F) :=
  let r := Nat.max (List.length (shape t1)) (List.length (shape t2)) in
  let s1 := pad_rank r (shape t1) in
  let s2 := pad_rank r (shape t2) in
  match broadcast_dims s1 s2 with
  | None =>
      Raise (RuntimeError "The size of tensor a must match the size of tensor b")
  | Some s =>
      OK (mkTensor s
            (zip_with op (expand_to s1 s (data t1)) (expand_to s2 s (data t2))))
  end.

(** [t[:, None, None, None]] *)
Definition index_colon_none3 (t : Tensor F) : result (Tensor F) :=
  match shape t with
  | [] => Raise (IndexError "too many indices for tensor of dimension 0")
  | d0 :: rest => OK (mkTensor (d0 :: 1 :: 1 :: 1 :: rest) (data t))
  end.

(** [t.unsqueeze(-1)] *)
Definition unsqueeze_last (t : Tensor F) : Tensor F :=
  mkTensor (shape t ++ [1]) (data t).

(** [t.reshape(shp)] of a contiguous tensor: the storage is kept.  The
    dimensions are non-negative at the call site of the sources; a
    negative one (the wildcard -1 of torch included) is rejected here. *)
Definition reshape (t : Tensor F) (shp : list Z) : result (Tensor F) :=
  if forallb (fun d => 0 <=? d) shp
     && (numel shp =? Z.of_nat (List.length (data t)))
  then OK (mkTensor shp (data t))
  else Raise (RuntimeError "shape is invalid for input size").

(** Values of the dynamically typed arithmetic of [merge_conv_bn]: [None],
    a Python float, or a tensor. *)
Inductive value : Type :=
| VNone
| VFloat (x : F)
| VTensor (t : Tensor F).

Definition value_of_option (o : option (Tensor F)) : value :=
  match o with
  | Some t => VTensor t
  | None => VNone
  end.

Definition binop (op : F -> F -> F) (a b : value) : result value :=
  match a, b with
  | VFloat x, VFloat y => OK (VFloat (op x y))
  | VFloat x, VTensor t => OK (VTensor (map_tensor (op x) t))
  | VTensor t, VFloat y => OK (VTensor (map_tensor (fun x => op x y) t))
  | VTensor t1, VTensor t2 =>
      (do t <- tensor_binop op t1 t2; OK (VTensor t))%result
  | _, _ => Raise (TypeError "unsupported operand type(s)")
  end.

(** [v.sqrt()] *)
Definition value_sqrt (v : value) : result value :=
  match v with
  | VTensor t => OK (VTensor (map_tensor fsqrt t))
  | VFloat _ => Raise (AttributeError "'float' object has no attribute 'sqrt'")
  | VNone => Raise (AttributeError "'NoneType' object has no attribute 'sqrt'")
  end.

(** [v[:, None, None, None]] *)
Definition value_index_colon_none3 (v : value) : result value :=
  match v with
  | VTensor t => (do t' <- index_colon_none3 t; OK (VTensor t'))%result
  | _ => Raise (TypeError "object is not subscriptable")
  end.

(** The tensor assigned to a [.data] attribute. *)
Definition as_tensor (v : value) : result (Tensor F) :=
  match v with
  | VTensor t => OK t
  | _ => Raise (TypeError "cannot assign a non-tensor as data")
  end.

(** *** Attributes of module objects *)

Definition no_attribute {A} (l : Layer F) (attr : string) : result A :=
  Raise (AttributeError
           (append "'" (append (class_name l)
              (append "' object has no attribute '" (append attr "'"))))).

Definition none_has_no_data {A} : result A :=
  Raise (AttributeError "'NoneType' object has no attribute 'data'").

(** [m.weight], [m.bias]: [None] or a parameter, given by its data. *)
Definition get_weight (m : Layer F) : result (option (Tensor F)) :=
  match m with
  | LConv2d c => OK (Some (Conv2d.weight c))
  | LLinear l => OK (Some (Linear.weight l))
  | LBatchNorm2d b => OK (BatchNorm2d.weight b)
  | _ => no_attribute m "weight"
  end.

Definition get_bias (m : Layer F) : result (option (Tensor F)) :=
  match m with
  | LConv2d c => OK (Conv2d.bias c)
  | LLinear l => OK (Linear.bias l)
  | LBatchNorm2d b => OK (BatchNorm2d.bias b)
  | _ => no_attribute m "bias"
  end.

(** [m.weight.data], [m.bias.data] *)
Definition get_weight_data (m : Layer F) : result (Tensor F) :=
  (do w <- get_weight m;
   match w with Some t => OK t | None => none_has_no_data end)%result.

(** [m.weight.data = t]: the parameter is looked up, then its data is
    replaced. *)
Definition set_weight_data (m : Layer F) (t : Tensor F) : result (Layer F) :=
  match m with
  | LConv2d c =>
      OK (LConv2d (Conv2d.mk (Conv2d.in_channels c) (Conv2d.out_channels c)
            (Conv2d.kernel_size c) (Conv2d.stride c) (Conv2d.padding c)
            (Conv2d.dilation c) t (Conv2d.bias c)))
  | LLinear l =>
      OK (LLinear (Linear.mk (Linear.in_features l) (Linear.out_features l)
            t (Linear.bias l)))
  | LBatchNorm2d b =>
      match BatchNorm2d.weight b with
      | None => none_has_no_data
      | Some _ =>
          OK (LBatchNorm2d (BatchNorm2d.mk (BatchNorm2d.affine b)
                (BatchNorm2d.running_mean b) (BatchNorm2d.running_var b)
                (Some t) (BatchNorm2d.bias b)))
      end
  | _ => no_attribute m "weight"
  end.

Definition set_bias_data (m : Layer F) (t : Tensor F) : result (Layer F) :=
  match m with
  | LConv2d c =>
      match Conv2d.bias c with
      | None => none_has_no_data
      | Some _ =>
          OK (LConv2d (Conv2d.mk (Conv2d.in_channels c)
                (Conv2d.out_channels c) (Conv2d.kernel_size c)
                (Conv2d.stride c) (Conv2d.padding c) (Conv2d.dilation c)
                (Conv2d.weight c) (Some t)))
      end
  | LLinear l =>
      match Linear.bias l with
      | None => none_has_no_data
      | Some _ =>
          OK (LLinear (Linear.mk (Linear.in_features l)
                (Linear.out_features l) (Linear.weight l) (Some t)))
      end
  | LBatchNorm2d b =>
      match BatchNorm2d.bias b with
      | None => none_has_no_data
      | Some _ =>
          OK (LBatchNorm2d (BatchNorm2d.mk (BatchNorm2d.affine b)
                (BatchNorm2d.running_mean b) (BatchNorm2d.running_var b)
                (BatchNorm2d.weight b) (Some t)))
      end
  | _ => no_attribute m "bias"
  end.

(** Attributes of a batch normalisation. *)
Definition as_batchnorm (m : Layer F) (attr : string)
  : result (BatchNorm2d.t F) :=
  match m with
  | LBatchNorm2d b => OK b
  | _ => no_attribute m attr
  end.

End TensorOps.

(** ** State and exceptions

    A computation runs on a state and ends with a value or an exception;
    the state reached when an exception is raised is kept, as the
    assignments made before a [raise] are. *)

Definition M (S A : Type) : Type := S -> result A * S.

Definition ret {S A} (a : A) : M S A := fun s => (OK a, s).

Definition bind {S A B} (m : M S A) (k : A -> M S B) : M S B :=
  fun s =>
    match m s with
    | (OK a, s') => k a s'
    | (Raise e, s') => (Raise e, s')
    end.

Definition raise {S A} (e : exn) : M S A := fun s => (Raise e, s).

Definition lift {S A} (r : result A) : M S A := fun s => (r, s).

Definition get {S} : M S S := fun s => (OK s, s).

Definition modify {S} (f : S -> S) : M S unit := fun s => (OK tt, f s).

Declare Scope monad_scope.
Delimit Scope monad_scope with monad.
Notation "x <- m ;; k" := (bind m (fun x => k))
  (at level 61, m at next level, right associativity) : monad_scope.
Notation "' p <- m ;; k" := (bind m (fun x => match x with p => k end))
  (at level 61, p pattern, m at next level, right associativity)
  : monad_scope.
Notation "m ;; k" := (bind m (fun _ => k))
  (at level 61, right associativity) : monad_scope.

(** ** The heap of module objects *)

Definition loc : Type := nat.

Definition heap (F : Type) : Type := list (Layer F).

Fixpoint list_update {A} (l : list A) (i : nat) (x : A) : list A :=
  match l, i with
  | [], _ => []
  | _ :: l', O => x :: l'
  | y :: l', S i' => y :: list_update l' i' x
  end.

Section Heap.
Context {F : Type}.

Definition deref (l : loc) : M (heap F) (Layer F) :=
  fun h =>
    match nth_error h l with
    | Some m => (OK m, h)
    | None => (Raise InvalidReference, h)
    end.

Definition store (l : loc) (m : Layer F) : M (heap F) unit :=
  modify (fun h => list_update h l m).

(** A new object. *)
Definition alloc (m : Layer F) : M (heap F) loc :=
  fun h => (OK (List.length h), h ++ [m]).

(** [deepcopy(l)]: a new object with copies of all parameters. *)
Definition deepcopy (l : loc) : M (heap F) loc :=
  (m <- deref l ;; alloc m)%monad.

(** [l.weight.data = v] and [l.bias.data = v]: the right-hand side is
    already evaluated; the parameter is fetched, then assigned. *)
Definition assign_weight_data (l : loc) (v : value) : M (heap F) unit :=
  (m <- deref l ;;
   _ <- lift (get_weight_data m) ;;
   t <- lift (as_tensor v) ;;
   m' <- lift (set_weight_data m t) ;;
   store l m')%monad.

Definition assign_bias_data (l : loc) (v : value) : M (heap F) unit :=
  (m <- deref l ;;
   b <- lift (get_bias m) ;;
   _ <- lift (match b with
              | Some t => OK t
              | None => none_has_no_data
              end) ;;
   t <- lift (as_tensor v) ;;
   m' <- lift (set_bias_data m t) ;;
   store l m')%monad.

End Heap.

(** ** utils.py, [merge_conv_bn] *)

Section MergeConvBn.
Context {F : Type} {arith : Arith F}.

Definition merge_conv_bn (conv bn : loc) : M (heap F) loc :=
  (bn_obj <- deref bn ;;
   b <- lift (as_batchnorm bn_obj "running_mean") ;;
   let mu := value_of_option (BatchNorm2d.running_mean b) in
   let sigmasq := value_of_option (BatchNorm2d.running_var b) in
   let '(gamma, beta) :=
     if BatchNorm2d.affine b
     then (value_of_option (BatchNorm2d.weight b),
           value_of_option (BatchNorm2d.bias b))
     else (VFloat (of_int 1), VFloat (of_int 0)) in
   root <- lift (value_sqrt sigmasq) ;;
   factor <- lift (binop fdiv gamma root) ;;
   conv_obj <- deref conv ;;
   c_weight <- lift (get_weight_data conv_obj) ;;
   c_bias_param <- lift (get_bias conv_obj) ;;
   let c_bias :=
     match c_bias_param with
     | None => VFloat (of_int 0)
     | Some t => VTensor t
     end in
   conv <- deepcopy conv ;;
   factor4 <- lift (value_index_colon_none3 factor) ;;
   new_weight <- lift (binop fmul (VTensor c_weight) factor4) ;;
   assign_weight_data conv new_weight ;;
   centred <- lift (binop fsub c_bias mu) ;;
   scaled <- lift (binop fmul centred factor) ;;
   new_bias <- lift (binop fadd beta scaled) ;;
   assign_bias_data conv new_bias ;;
   ret conv)%monad.

End MergeConvBn.

(** ** dynapcnn_layer_new.py, class [DynapcnnLayer] *)

(** The keys of [dcnnl_data]: node identifiers ([int]) and names. *)
Inductive dkey : Type :=
| KInt (n : Z)
| KStr (s : string).

Definition dkey_eqb (a b : dkey) : bool :=
  match a, b with
  | KInt x, KInt y => x =? y
  | KStr x, KStr y => String.eqb x y
  | _, _ => false
  end.

(** The dictionary of a node: its layer and the shapes. *)
Module NodeData.
Record t : Type := mk {
  layer : loc;
  input_shape : option (Z * Z * Z);
  output_shape : option (Z * Z * Z)
}.
End NodeData.

Inductive dvalue : Type :=
| DNode (n : NodeData.t)
| DOther.

(** [dcnnl_data], in insertion order. *)
Definition dcnnl_data : Type := list (dkey * dvalue).

Fixpoint dict_get (d : dcnnl_data) (k : dkey) : option dvalue :=
  match d with
  | [] => None
  | (k', v) :: d' => if dkey_eqb k' k then Some v else dict_get d' k
  end.

Fixpoint dict_set (d : dcnnl_data) (k : dkey) (v : dvalue) : dcnnl_data :=
  match d with
  | [] => [(k, v)]
  | (k', v') :: d' =>
      if dkey_eqb k' k then (k', v) :: d' else (k', v') :: dict_set d' k v
  end.

Definition string_of_Z (z : Z) : string := NilZero.string_of_int (Z.to_int z).

(** The discretisation of a convolution and its spiking layer
    ([discretize_conv_spike_] of [discretize.py]) is not part of these
    sources: it is a parameter.  It works in place on its two arguments. *)
Class Discretizer (F : Type) : Type := {
  discretize_conv_spike_ :
    Conv2d.t F -> IAFSqueeze.t F -> result (Conv2d.t F * IAFSqueeze.t F)
}.

Module DynapcnnLayer.

(** The attributes of the object under construction; an attribute is
    [None] until it is assigned. *)
Record t : Type := mk {
  lin_to_conv_conversion : bool;
  spk_node_id : option Z;
  conv_layer : option loc;
  spk_layer : option loc;
  pool_layer : option (list loc)
}.

Definition blank : t := mk false None None None None.

Record state (F : Type) : Type := mkState {
  st_heap : heap F;
  st_data : dcnnl_data;
  self : t
}.
Arguments mkState {F}.

(** The local variables of the first loop of [__init__]. *)
Record locals : Type := mkLocals {
  conv : option loc;
  conv_node_id : option Z;
  spk : option loc;
  pool : list loc;
  pool_node_id : list Z
}.

Section Methods.
Context {F : Type} {arith : Arith F} {discretizer : Discretizer F}.

Definition on_heap {A} (m : M (heap F) A) : M (state F) A :=
  fun s =>
    let '(r, h) := m (st_heap s) in
    (r, mkState h (st_data s) (self s)).

Definition set_self (f : t -> t) : M (state F) unit :=
  modify (fun s => mkState (st_heap s) (st_data s) (f (self s))).

(** [dcnnl_data[key]] for a node *)
Definition node_data (key : Z) : M (state F) NodeData.t :=
  (s <- get ;;
   match dict_get (st_data s) (KInt key) with
   | Some (DNode n) => ret n
   | _ => raise (KeyError (string_of_Z key))
   end)%monad.

Definition set_node_data (key : Z) (n : NodeData.t) : M (state F) unit :=
  modify (fun s =>
    mkState (st_heap s) (dict_set (st_data s) (KInt key) (DNode n))
      (self s)).

(** [torch.nn.Conv2d(in_channels, out_channels, kernel_size, padding=...,
    bias=...)]: stride and dilation take their default 1; the
    parameters are allocated with unspecified contents. *)
Definition nn_Conv2d (in_channels : Z) (kernel_size : Z * Z)
  (out_channels : Z) (padding : Z) (bias : bool) : result (Conv2d.t F) :=
  let shp :=
    [out_channels; in_channels; fst kernel_size; snd kernel_size] in
  if forallb (fun d => 0 <=? d) shp
  then
    OK (Conv2d.mk in_channels out_channels kernel_size (1, 1)
          (padding, padding) (1, 1)
          (mkTensor shp (repeat (of_int 0) (Z.to_nat (numel shp))))
          (if bias
           then Some (mkTensor [out_channels]
                        (repeat (of_int 0) (Z.to_nat out_channels)))
           else None))
  else Raise (RuntimeError "Trying to create tensor with negative dimension").

(** [_convert_linear_to_conv(self, lin, layer_data)], where
    [layer_data] is [dcnnl_data[node]]. *)
Definition _convert_linear_to_conv (lin : loc) (node : Z)
  : M (state F) (loc * (Z * Z * Z)) :=
  (set_self (fun o => mk true (spk_node_id o) (conv_layer o)
                        (spk_layer o) (pool_layer o)) ;;
   layer_data <- node_data node ;;
   input_shape <-
     lift (match NodeData.input_shape layer_data with
           | Some shp => OK shp
           | None => Raise (KeyError "input_shape")
           end) ;;
   let '(in_chan, in_h, in_w) := input_shape in
   lin_obj <- on_heap (deref lin) ;;
   match lin_obj with
   | LLinear l =>
       if negb (Linear.in_features l =? in_chan * in_h * in_w)
       then raise (ValueError msg_shapes)
       else
         layer <- lift (nn_Conv2d in_chan (in_h, in_w)
                          (Linear.out_features l) 0
                          (match Linear.bias l with
                           | Some _ => true
                           | None => false
                           end)) ;;
         layer <- on_heap (alloc (LConv2d layer)) ;;
         match Linear.bias l with
         | Some b => on_heap (assign_bias_data layer (VTensor b))
         | None => ret tt
         end ;;
         w <- lift (reshape (Linear.weight l)
                      [Linear.out_features l; in_chan; in_h; in_w]) ;;
         on_heap (assign_weight_data layer (VTensor w)) ;;
         ret (layer, input_shape)
   | _ => lift (no_attribute lin_obj "in_features")
   end)%monad.

(** [_update_conv_node_output_shape] *)
Definition _update_conv_node_output_shape (conv_layer : loc) (node : Z)
  (input_shape : Z * Z * Z) : M (state F) (Z * Z * Z) :=
  (conv_obj <- on_heap (deref conv_layer) ;;
   match conv_obj with
   | LConv2d c =>
       out <- lift (get_conv_output_shape c input_shape) ;;
       layer_data <- node_data node ;;
       set_node_data node
         (NodeData.mk (NodeData.layer layer_data)
            (NodeData.input_shape layer_data) (Some out)) ;;
       ret out
   | _ => lift (no_attribute conv_obj "out_channels")
   end)%monad.

(** [_update_neuron_node_output_shape] *)
Definition _update_neuron_node_output_shape (node : Z)
  (input_shape : Z * Z * Z) : M (state F) unit :=
  (layer_data <- node_data node ;;
   set_node_data node
     (NodeData.mk (NodeData.layer layer_data) (Some input_shape)
        (Some input_shape)))%monad.

(** Lines 66-79: the loop over [dcnnl_data.items()]. *)
Fixpoint scan_items (items : dcnnl_data) (lv : locals)
  : M (state F) locals :=
  match items with
  | [] => ret lv
  | (KStr _, _) :: rest => scan_items rest lv
  | (KInt key, DOther) :: _ => raise (KeyError "layer")
  | (KInt key, DNode value) :: rest =>
      (lyr <- on_heap (deref (NodeData.layer value)) ;;
       match lyr with
       | LIAFSqueeze _ =>
           set_self (fun o => mk (lin_to_conv_conversion o) (Some key)
                                (conv_layer o) (spk_layer o)
                                (pool_layer o)) ;;
           scan_items rest
             (mkLocals (conv lv) (conv_node_id lv)
                (Some (NodeData.layer value)) (pool lv) (pool_node_id lv))
       | LLinear _ | LConv2d _ =>
           scan_items rest
             (mkLocals (Some (NodeData.layer value)) (Some key) (spk lv)
                (pool lv) (pool_node_id lv))
       | LSumPool2d _ =>
           scan_items rest
             (mkLocals (conv lv) (conv_node_id lv) (spk lv)
                (pool lv ++ [NodeData.layer value])
                (pool_node_id lv ++ [key]))
       | _ =>
           raise (ValueError
                    (append "Node " (append (string_of_Z key)
                       " has not valid layer associated with it.")))
       end)%monad
  end.

(** Lines 118-122: the loop over the pooling layers. *)
Fixpoint consolidate_pool (pool : list loc) : M (state F) unit :=
  match pool with
  | [] => ret tt
  | plyr :: rest =>
      (lyr <- on_heap (deref plyr) ;;
       match lyr with
       | LSumPool2d p =>
           k0 <- lift (subscript (SumPool2d.kernel_size p) 0) ;;
           k1 <- lift (subscript (SumPool2d.kernel_size p) 1) ;;
           if negb (k0 =? k1) then raise (ValueError msg_square)
           else
             copy <- on_heap (deepcopy plyr) ;;
             set_self (fun o =>
               mk (lin_to_conv_conversion o) (spk_node_id o)
                  (conv_layer o) (spk_layer o)
                  (Some (match pool_layer o with
                         | Some l => l ++ [copy]
                         | None => [copy]
                         end))) ;;
             consolidate_pool rest
       | _ => lift (no_attribute lyr "kernel_size")
       end)%monad
  end.

(** Lines 87-89: the copy of the spiking layer. *)
Definition copy_spk (spk : loc) : M (state F) loc :=
  (spk <- on_heap (deepcopy spk) ;;
   spk_obj <- on_heap (deref spk) ;;
   match spk_obj with
   | LIAFSqueeze sp =>
       match IAFSqueeze.v_mem sp with
       | Some v =>
           on_heap (store spk
             (LIAFSqueeze
                (IAFSqueeze.mk
                   (Some (unsqueeze_last (unsqueeze_last v)))
                   (IAFSqueeze.spike_threshold sp)
                   (IAFSqueeze.min_v_mem sp))))
       | None => ret tt
       end
   | _ => lift (no_attribute spk_obj "is_state_initialised")
   end ;;
   ret spk)%monad.

(** Lines 91-102: the convolution is converted from the linear layer,
    or copied. *)
Definition copy_conv (conv : loc) (conv_node_id : Z) : M (state F) loc :=
  (conv_obj <- on_heap (deref conv) ;;
   match conv_obj with
   | LLinear _ =>
       ' (conv, conv_in_shape) <-
         _convert_linear_to_conv conv conv_node_id ;;
       conv_out_shape <-
         _update_conv_node_output_shape conv conv_node_id conv_in_shape ;;
       o <- get ;;
       match spk_node_id (self o) with
       | Some id => _update_neuron_node_output_shape id conv_out_shape
       | None => raise (KeyError "None")
       end ;;
       ret conv
   | _ => on_heap (deepcopy conv)
   end)%monad.

(** Lines 106-108: [conv.weight.data = (conv.weight / rescale_weights)]. *)
Definition rescale_conv (conv : loc) (rescale_weights : Z)
  : M (state F) unit :=
  (if negb (rescale_weights =? 1)
   then
     conv_obj <- on_heap (deref conv) ;;
     w <- lift (get_weight_data conv_obj) ;;
     scaled <- lift (binop fdiv (VTensor w)
                       (VFloat (of_int rescale_weights))) ;;
     on_heap (assign_weight_data conv scaled)
   else ret tt)%monad.

(** Lines 111-112: [discretize_conv_spike_(conv, spk, to_int=False)]. *)
Definition discretize_layers (discretize : bool) (conv spk : loc)
  : M (state F) unit :=
  (if discretize
   then
     conv_obj <- on_heap (deref conv) ;;
     spk_obj <- on_heap (deref spk) ;;
     match conv_obj, spk_obj with
     | LConv2d c, LIAFSqueeze sp =>
         ' (c', sp') <- lift (discretize_conv_spike_ c sp) ;;
         on_heap (store conv (LConv2d c')) ;;
         on_heap (store spk (LIAFSqueeze sp'))
     | _, _ => raise (TypeError "discretize_conv_spike_")
     end
   else ret tt)%monad.

(** Lines 55-117 of [__init__]: everything before the loop over the
    pooling layers; the result is the list [pool]. *)
Definition build_conv_spk (discretize : bool) (rescale_weights : Z)
  : M (state F) (list loc) :=
  (set_self (fun o => mk false (spk_node_id o) (conv_layer o)
                        (spk_layer o) (pool_layer o)) ;;
   set_self (fun o => mk (lin_to_conv_conversion o) None (conv_layer o)
                        (spk_layer o) (pool_layer o)) ;;
   s <- get ;;
   lv <- scan_items (st_data s) (mkLocals None None None [] []) ;;
   match conv lv, conv_node_id lv with
   | Some conv, Some conv_node_id =>
       match spk lv with
       | None => raise (ValueError msg_no_spk)
       | Some spk =>
           spk <- copy_spk spk ;;
           conv <- copy_conv conv conv_node_id ;;
           rescale_conv conv rescale_weights ;;
           discretize_layers discretize conv spk ;;
           set_self (fun o =>
             mk (lin_to_conv_conversion o) (spk_node_id o) (Some conv)
                (spk_layer o) (pool_layer o)) ;;
           set_self (fun o =>
             mk (lin_to_conv_conversion o) (spk_node_id o) (conv_layer o)
                (Some spk) (pool_layer o)) ;;
           set_self (fun o =>
             mk (lin_to_conv_conversion o) (spk_node_id o) (conv_layer o)
                (spk_layer o) (Some [])) ;;
           ret (pool lv)
       end
   | _, _ => raise (ValueError msg_no_conv)
   end)%monad.

(** [DynapcnnLayer.__init__(self, dcnnl_data, discretize, nodes_mapper,
    rescale_weights)]; [nodes_mapper] is not used by the body. *)
Definition __init__ (discretize : bool) (rescale_weights : Z)
  : M (state F) unit :=
  (pool <- build_conv_spk discretize rescale_weights ;;
   consolidate_pool pool)%monad.

End Methods.

(** [get_modified_node_it(self, dcnnl_data)]: the spiking node whose
    shapes the conversion of a linear layer has changed, and its new
    output shape; [(None, None)] without a conversion. *)
Definition get_modified_node_it (self : t) (d : dcnnl_data)
  : result (option Z * option (Z * Z * Z)) :=
  if lin_to_conv_conversion self
  then
    match spk_node_id self with
    | None => Raise (KeyError "None")
    | Some id =>
        match dict_get d (KInt id) with
        | Some (DNode n) =>
            match NodeData.output_shape n with
            | Some shp => OK (Some id, Some shp)
            | None => Raise (KeyError "output_shape")
            end
        | _ => Raise (KeyError (string_of_Z id))
        end
    end
  else OK (None, None).
End DynapcnnLayer.

(** ** utils.py, [construct_next_dynapcnn_layer] *)

Section ConstructNext.
Context {F : Type} {arith : Arith F}.

(** [utils.py] takes the class [DynapcnnLayer] from the module
    [.dynapcnnlayer], which is not among these sources (the class of
    [dynapcnn_layer_new.py] is built from a dictionary and does not accept
    this call).  The creation of an object,
    [DynapcnnLayer(conv=, spk=, pool=, in_shape=, discretize=,
    rescale_weights=)], is a parameter: a computation on the heap that is
    given the references of the layers, and returns an object of some type
    [T] or raises. *)
Variable T : Type.
Variable new_DynapcnnLayer :
  loc -> loc -> option loc -> Z * Z * Z -> bool -> Z -> M (heap F) T.

(** [isinstance(m, sl.SpikingLayer)]: the class [SpikingLayer] and the
    classes derived from it, [SpikingConv1dLayer] of [iaf_conv1d.py]
    apart, are declared outside these sources.  [str(type(m))]: the
    qualified names of the classes are given by their libraries.  Both
    are parameters. *)
Variable is_SpikingLayer : Layer F -> bool.
Variable type_repr : Layer F -> string.

Fixpoint deref_all (ls : list loc) : M (heap F) (list (Layer F)) :=
  match ls with
  | [] => ret []
  | l :: ls' =>
      (m <- deref l ;; ms <- deref_all ls' ;; ret (m :: ms))%monad
  end.

(** [layers[i]] *)
Definition list_item (layers : list loc) (i : nat) : result loc :=
  match nth_error layers i with
  | Some l => OK l
  | None => Raise (IndexError "list index out of range")
  end.

Definition construct_next_dynapcnn_layer (layers : list loc)
  (in_shape : Z * Z * Z) (discretize : bool) (rescale_factor : Z)
  : M (heap F) (T * nat * Z) :=
  (let layer_idx_next := 0%nat in
   first <- lift (list_item layers layer_idx_next) ;;
   first_obj <- deref first ;;
   match first_obj with
   | LConv2d _ | LLinear _ =>
       lyr_conv <- lift (list_item layers 0) ;;
       let layer_idx_next := S layer_idx_next in
       second <- lift (list_item layers layer_idx_next) ;;
       second_obj <- deref second ;;
       ' (lyr_conv, layer_idx_next) <-
         match second_obj with
         | LBatchNorm2d _ =>
             merged <- merge_conv_bn lyr_conv second ;;
             ret (merged, S layer_idx_next)
         | _ => ret (lyr_conv, layer_idx_next)
         end ;;
       lyr_spk <-
         match nth_error layers layer_idx_next with
         | Some l => ret l
         | None => raise (TypeError msg_end_of_network)
         end ;;
       let layer_idx_next := S layer_idx_next in
       spk_obj <- deref lyr_spk ;;
       if is_SpikingLayer spk_obj
       then
         rest <- deref_all (skipn layer_idx_next layers) ;;
         ' (lyr_pool, i_next, rescale_factor_after_pooling) <-
           lift (construct_next_pooling_layer rest) ;;
         lyr_pool <-
           match lyr_pool with
           | Some p => l <- alloc (LSumPool2d p) ;; ret (Some l)
           | None => ret None
           end ;;
         let layer_idx_next := (layer_idx_next + i_next)%nat in
         dynapcnn_layer <-
           new_DynapcnnLayer lyr_conv lyr_spk lyr_pool in_shape
             discretize rescale_factor ;;
         ret (dynapcnn_layer, layer_idx_next,
              rescale_factor_after_pooling)
       else
         raise (TypeError
                  (append
                     "Convolution must be followed by spiking layer, found "
                     (type_repr spk_obj)))
   | _ => raise (Exception msg_start)
   end)%monad.

End ConstructNext.

(** ** dynapcnn_network_graph.py, [make_config] and [_make_config] *)

Module DynapcnnNetworkGraph.

(** An entry of [self.dynapcnn_layers]. *)
Record layer_entry : Type := mkEntry {
  is_DVSLayer : bool;
  destinations : list Z;
  core_idx : option Z
}.

(** The attributes of the network that [_make_config] reads. *)
Record t : Type := mk {
  dynapcnn_layers : list (Z * layer_entry);
  input_shape : option (Z * Z * Z)
}.

(** [monitor_layers]: [None], a string, or a list of indices and names. *)
Inductive monitor_item : Type :=
| MInt (i : Z)
| MStr (s : string).

Inductive monitor_spec : Type :=
| MonNone
| MonStr (s : string)
| MonList (l : list monitor_item).

(** An element of [monitor_chip_layers]. *)
Inductive monitored : Type :=
| Core (idx : option Z)
| Dvs.

(** [chip_layers_ordering]: the string "auto" or a sequence. *)
Inductive ordering : Type :=
| Auto
| Explicit (cores : list Z).

(** The configuration builder of a device ([ChipFactory] and the
    builders are not part of these sources).  [set_dvs_merge] is the
    assignment [config.dvs_layer.merge = True]; [monitor_layers] works
    on the configuration in place. *)
Record ConfigBuilder (Cfg : Type) : Type := mkBuilder {
  get_valid_mapping : t -> result (list Z);
  build_config : t -> result Cfg;
  set_dvs_merge : Cfg -> result Cfg;
  monitor_layers : Cfg -> list monitored -> result Cfg;
  validate_configuration : Cfg -> result bool
}.

Fixpoint substringb (needle s : string) : bool :=
  String.prefix needle s
  || match s with
     | EmptyString => false
     | String _ s' => substringb needle s'
     end.

Definition monitor_item_eqb (a b : monitor_item) : bool :=
  match a, b with
  | MInt x, MInt y => x =? y
  | MStr x, MStr y => String.eqb x y
  | _, _ => false
  end.

(** Lines 328-331 *)
Fixpoint first_sink (items : list (Z * layer_entry)) : list monitored :=
  match items with
  | [] => []
  | (_, e) :: rest =>
      match destinations e with
      | [] => [Core (core_idx e)]
      | _ => first_sink rest
      end
  end.

(** Lines 333-335 *)
Definition all_cores (items : list (Z * layer_entry)) : list monitored :=
  map (fun e => Core (core_idx (snd e)))
    (filter (fun e => negb (is_DVSLayer (snd e))) items).

Fixpoint items_get (items : list (Z * layer_entry)) (k : Z)
  : option layer_entry :=
  match items with
  | [] => None
  | (k', e) :: rest => if k' =? k then Some e else items_get rest k
  end.

Section Config.
Context {Cfg : Type}.
Variable ChipFactory : string -> result (ConfigBuilder Cfg).

Definition _make_config (self : t) (chip_layers_ordering : ordering)
  (device : string) (monitor : monitor_spec)
  (config_modifier : option (Cfg -> result Cfg)) : result (Cfg * bool) :=
  (do config_builder <- ChipFactory device;
   do first <- match items_get (dynapcnn_layers self) 0 with
               | Some e => OK e
               | None => Raise (KeyError "0")
               end;
   let has_dvs_layer := is_DVSLayer first in
   do chip_layers_ordering <-
     match chip_layers_ordering with
     | Auto => get_valid_mapping config_builder self
     | Explicit cores => OK cores
     end;
   do config <- build_config config_builder self;
   do config <-
     match input_shape self with
     | Some (c, _, _) =>
         if c =? 1 then set_dvs_merge config_builder config
         else OK config
     | None => OK config
     end;
   let monitor_chip_layers :=
     match monitor with
     | MonNone => first_sink (dynapcnn_layers self)
     | MonStr "all" => all_cores (dynapcnn_layers self)
     | _ => []
     end in
   let monitor_chip_layers :=
     match monitor with
     | MonNone => monitor_chip_layers
     | MonStr s =>
         if negb (String.eqb s "") && substringb "dvs" s
         then monitor_chip_layers ++ [Dvs]
         else monitor_chip_layers
     | MonList l =>
         if existsb (monitor_item_eqb (MStr "dvs")) l
         then monitor_chip_layers ++ [Dvs]
         else monitor_chip_layers
     end in
   do config <- monitor_layers config_builder config monitor_chip_layers;
   do config <-
     match config_modifier with
     | Some f => f config
     | None => OK config
     end;
   do valid <- validate_configuration config_builder config;
   OK (config, valid))%result.

(** [make_config]; the message printed on success is left out. *)
Definition make_config (self : t) (chip_layers_ordering : ordering)
  (device : string) (monitor : monitor_spec)
  (config_modifier : option (Cfg -> result Cfg)) : result Cfg :=
  (do (config, is_compatible) <-
     _make_config self chip_layers_ordering device monitor
       config_modifier;
   if is_compatible then OK config
   else Raise (ValueError
                 (append "Generated config is not valid for " device)))%result.

End Config.
End DynapcnnNetworkGraph.

(** ** Notions used in the statements *)

Definition product (l : list Z) : Z := fold_right Z.mul 1 l.

(** [q] is the floor of the quotient of [n] by [s]. *)
Definition floor_of_quotient (n s q : Z) : Prop :=
  exists r, n = s * q + r /\ (0 <= r < s \/ s < r <= 0).

Section PoolingNotions.
Context {F : Type}.

Definition is_pooling (l : Layer F) : bool :=
  match l with
  | LAvgPool2d _ | LSumPool2d _ => true
  | _ => false
  end.

(** The maximal chain of pooling layers at the head of a list. *)
Fixpoint pooling_chain (layers : list (Layer F)) : list (Layer F) :=
  match layers with
  | [] => []
  | l :: rest => if is_pooling l then l :: pooling_chain rest else []
  end.

Definition pool_kernel_size (l : Layer F) : pyval :=
  match l with
  | LAvgPool2d p => AvgPool2d.kernel_size p
  | LSumPool2d p => SumPool2d.kernel_size p
  | _ => PNone
  end.

Definition pool_stride (l : Layer F) : pyval :=
  match l with
  | LAvgPool2d p => AvgPool2d.stride p
  | LSumPool2d p => SumPool2d.stride p
  | _ => PNone
  end.

(** Only an average pooling carries a padding. *)
Definition pool_padding (l : Layer F) : option pyval :=
  match l with
  | LAvgPool2d p => Some (AvgPool2d.padding p)
  | _ => None
  end.

(** The kernel as (height, width). *)
Definition kernel_pair (l : Layer F) : Z * Z :=
  match expand_to_pair (pool_kernel_size l) with
  | PPair a b => (a, b)
  | _ => (1, 1)
  end.

Definition kernel_is_stride (l : Layer F) : Prop :=
  expand_to_pair (pool_kernel_size l) = expand_to_pair (pool_stride l).

Definition padding_is_zero (l : Layer F) : Prop :=
  forall p, pool_padding l = Some p -> p = PInt 0.

(** A pooling layer that passes the checks of the consolidation. *)
Definition passes_checks (l : Layer F) : Prop :=
  is_pooling l = true /\ pool_kernel_size l <> PNone
  /\ kernel_is_stride l /\ padding_is_zero l.

(** The value of the loop variable [idx_next] after the loop entered at
    index [i], [dflt] being its value before. *)
Fixpoint index_after_loop (i : nat) (layers : list (Layer F)) (dflt : nat)
  : nat :=
  match layers with
  | [] => dflt
  | l :: rest => if is_pooling l then index_after_loop (S i) rest i else i
  end.

Definition cumulative_kernel (chain : list (Layer F)) : Z * Z :=
  (product (map (fun l => fst (kernel_pair l)) chain),
   product (map (fun l => snd (kernel_pair l)) chain)).

Definition cumulative_rescale (chain : list (Layer F)) : Z :=
  product (map (fun l => fst (kernel_pair l) * snd (kernel_pair l)) chain).

(** What the consolidation of a chain returns as pooling layer. *)
Definition consolidated_pool (chain : list (Layer F)) : option SumPool2d.t :=
  let '(kh, kw) := cumulative_kernel chain in
  if (kh =? 1) && (kw =? 1) then None
  else Some (SumPool2d.new (PPair kh kw)).

End PoolingNotions.

(** Row-major offset of a multi-index in a tensor of the given shape. *)
Fixpoint ravel (shp idx : list Z) (acc : Z) : Z :=
  match shp, idx with
  | d :: shp', i :: idx' => ravel shp' idx' (acc * d + i)
  | _, _ => acc
  end.

(** [t[idx]] *)
Definition tensor_get {F} (t : Tensor F) (idx : list Z) : option F :=
  nth_error (data t) (Z.to_nat (ravel (shape t) idx 0)).

(** A linear layer whose weight has the shape (out_features, in_features). *)
Definition wf_linear {F} (l : Linear.t F) : Prop :=
  shape (Linear.weight l) = [Linear.out_features l; Linear.in_features l]
  /\ Z.of_nat (List.length (data (Linear.weight l)))
     = Linear.out_features l * Linear.in_features l
  /\ 0 <= Linear.out_features l.

(** The convolution a linear layer is converted to, for the input shape
    (C, H, W). *)
Definition converted {F} (l : Linear.t F) (C H W : Z) : Conv2d.t F :=
  Conv2d.mk C (Linear.out_features l) (H, W) (1, 1) (0, 0) (1, 1)
    (mkTensor [Linear.out_features l; C; H; W] (data (Linear.weight l)))
    (Linear.bias l).

(** The convolution after the division of lines 106-108. *)
Definition rescaled {F} {arith : Arith F} (rescale_weights : Z)
  (c : Conv2d.t F) : Conv2d.t F :=
  if rescale_weights =? 1 then c
  else
    Conv2d.mk (Conv2d.in_channels c) (Conv2d.out_channels c)
      (Conv2d.kernel_size c) (Conv2d.stride c) (Conv2d.padding c)
      (Conv2d.dilation c)
      (map_tensor (fun x => fdiv x (of_int rescale_weights)) (Conv2d.weight c))
      (Conv2d.bias c).

Definition is_conv_or_linear {F} (m : Layer F) : bool :=
  match m with
  | LConv2d _ | LLinear _ => true
  | _ => false
  end.

(** Lines 150-154 of [construct_next_dynapcnn_layer]: the convolution
    that is handed to the class and the index of the spiking layer, for
    the first two layers [l0] and [l1] of the list, [m1] being the object
    at [l1]: [l0] and 1, or, when [m1] is a batch normalisation, the copy
    of [l0] merged with it and 2. *)
Definition conv_and_index {F} {arith : Arith F} (l0 l1 : loc) (m1 : Layer F)
  : M (heap F) (loc * nat) :=
  match m1 with
  | LBatchNorm2d _ =>
      bind (merge_conv_bn l0 l1) (fun merged => ret (merged, 2%nat))
  | _ => ret (l0, 1%nat)
  end.

(** The outcome of a call of the class, with the index of the next layer
    and the factor of the pooling attached to the object it returns; an
    exception is passed on. *)
Definition attach {F T} (called : result T * heap F) (idx : nat) (r : Z)
  : result (T * nat * Z) * heap F :=
  (match fst called with
   | OK L => OK (L, idx, r)
   | Raise e => Raise e
   end, snd called).

(** The sum pooling nodes of a group, in the order of the dictionary. *)
Definition pooling_nodes {F} (h : heap F) (d : dcnnl_data) : list loc :=
  flat_map
    (fun kv =>
       match kv with
       | (KInt _, DNode n) =>
           match nth_error h (NodeData.layer n) with
           | Some (LSumPool2d _) => [NodeData.layer n]
           | _ => []
           end
       | _ => []
       end) d.

(** The folding of a batch normalisation, channel by channel:
    factor = gamma / sqrt(var), with gamma = 1 when not affine;
    new weight = old weight * factor, the factor of a channel being used
    for the [K] weights of that channel;
    new bias = beta + (old bias - mean) * factor, with beta = 0 when not
    affine. *)
Definition bn_factor {F} {arith : Arith F} (affine : bool)
  (gamma var : list F) : list F :=
  if affine then zip_with fdiv gamma (map fsqrt var)
  else map (fdiv (of_int 1)) (map fsqrt var).

Definition folded_weight {F} {arith : Arith F} (K : nat)
  (weight factor : list F) : list F :=
  zip_with fmul weight (flat_map (fun f => repeat f K) factor).

Definition folded_bias {F} {arith : Arith F} (affine : bool)
  (beta bias mean factor : list F) : list F :=
  let scaled := zip_with fmul (zip_with fsub bias mean) factor in
  if affine then zip_with fadd beta scaled
  else map (fadd (of_int 0)) scaled.


(** ** Notions used in the further properties *)

Section MorePoolingNotions.
Context {F : Type}.

(** A pooling layer with its kernel size and its stride written as
    pairs. *)
Definition with_pair_sizes (l : Layer F) : Layer F :=
  match l with
  | LAvgPool2d p =>
      LAvgPool2d
        (AvgPool2d.mk (expand_to_pair (AvgPool2d.kernel_size p))
           (expand_to_pair (AvgPool2d.stride p)) (AvgPool2d.padding p))
  | LSumPool2d p =>
      LSumPool2d
        (SumPool2d.mk (expand_to_pair (SumPool2d.kernel_size p))
           (expand_to_pair (SumPool2d.stride p)))
  | _ => l
  end.

(** The kernel of the pooling that the consolidation returns; no pooling
    layer stands for the kernel (1, 1). *)
Definition returned_kernel (pool : option SumPool2d.t) : Z * Z :=
  match pool with
  | Some p =>
      match SumPool2d.kernel_size p with
      | PPair a b => (a, b)
      | _ => (1, 1)
      end
  | None => (1, 1)
  end.

End MorePoolingNotions.

Section ChannelNotions.
Context {F : Type} {arith : Arith F}.

(** The element of index [o] of a vector given by its storage. *)
Definition at_index (l : list F) (o : nat) : F := nth o l (of_int 0).

(** The factor and the shift of the output channel [o] in the folding of
    a batch normalisation: gamma / sqrt(var) and beta, with gamma = 1 and
    beta = 0 when the normalisation is not affine. *)
Definition channel_factor (affine : bool) (gamma var : list F) (o : nat)
  : F :=
  fdiv (if affine then at_index gamma o else of_int 1)
    (fsqrt (at_index var o)).

Definition channel_shift (affine : bool) (beta : list F) (o : nat) : F :=
  if affine then at_index beta o else of_int 0.

End ChannelNotions.

Section GroupNotions.
Context {F : Type}.

(** The nodes (key and layer) of a group that hold a convolution or a
    linear layer, and those that hold a spiking layer, in the order of
    the dictionary. *)
Definition conv_nodes (h : heap F) (d : dcnnl_data) : list (Z * loc) :=
  flat_map
    (fun kv =>
       match kv with
       | (KInt k, DNode n) =>
           match nth_error h (NodeData.layer n) with
           | Some (LConv2d _) | Some (LLinear _) => [(k, NodeData.layer n)]
           | _ => []
           end
       | _ => []
       end) d.

Definition spk_nodes (h : heap F) (d : dcnnl_data) : list (Z * loc) :=
  flat_map
    (fun kv =>
       match kv with
       | (KInt k, DNode n) =>
           match nth_error h (NodeData.layer n) with
           | Some (LIAFSqueeze _) => [(k, NodeData.layer n)]
           | _ => []
           end
       | _ => []
       end) d.

(** An entry that the first loop of the constructor accepts: a name, or
    a node whose layer is a convolution, a linear layer, a spiking layer or
    a sum pooling. *)
Definition valid_node (h : heap F) (kv : dkey * dvalue) : bool :=
  match kv with
  | (KStr _, _) => true
  | (KInt _, DOther) => false
  | (KInt _, DNode n) =>
      match nth_error h (NodeData.layer n) with
      | Some (LConv2d _) | Some (LLinear _) | Some (LIAFSqueeze _)
      | Some (LSumPool2d _) => true
      | _ => false
      end
  end.

(** The last element of a list, or a default. *)
Definition last_of {A} (l : list A) (dflt : option A) : option A :=
  match rev l with
  | x :: _ => Some x
  | [] => dflt
  end.

(** The copy of a spiking layer made by the constructor: the state, when
    initialised, gets two trailing dimensions of size 1. *)
Definition unsqueezed (sp : IAFSqueeze.t F) : IAFSqueeze.t F :=
  IAFSqueeze.mk
    (match IAFSqueeze.v_mem sp with
     | Some v => Some (mkTensor (shape v ++ [1; 1]) (data v))
     | None => None
     end)
    (IAFSqueeze.spike_threshold sp) (IAFSqueeze.min_v_mem sp).

(** The objects at the given references. *)
Definition layers_at (h : heap F) (ls : list loc) : list (Layer F) :=
  flat_map
    (fun l => match nth_error h l with Some m => [m] | None => [] end) ls.

(** A sum pooling with a square kernel. *)
Definition square_pooling (m : Layer F) : Prop :=
  exists q k, m = LSumPool2d q /\ SumPool2d.kernel_size q = PPair k k.

(** The layer is none of the kinds that a node of a group may hold. *)
Definition not_a_group_layer (m : Layer F) : Prop :=
  match m with
  | LConv2d _ | LLinear _ | LIAFSqueeze _ | LSumPool2d _ => False
  | _ => True
  end.


(** Every object of [h] is the same object in [h']. *)
Definition preserved (h h' : heap F) : Prop :=
  forall l m, nth_error h l = Some m -> nth_error h' l = Some m.

End GroupNotions.

Section FrameNotions.
Context {F : Type}.

(** The heap [h] is [h0] followed by further objects. *)
Definition extends (h0 h : heap F) : Prop := exists ext, h = h0 ++ ext.

(** Run from a state whose heap extends [h0], the computation [m] ends,
    with a value or with an exception, in a state whose heap extends [h0],
    and a value it returns satisfies [P]. *)
Definition frames {S A} (proj : S -> heap F) (h0 : heap F) (P : A -> Prop)
  (m : M S A) : Prop :=
  forall s r s',
    extends h0 (proj s) -> m s = (r, s') ->
    extends h0 (proj s') /\ forall a, r = OK a -> P a.

(** A reference to an object that is not one of [h0]. *)
Definition fresh_for (h0 : heap F) (l : loc) : Prop :=
  (List.length h0 <= l)%nat.

End FrameNotions.

(** ** Concrete instances

    Integer arithmetic as an instance of the element operations, and the
    layers of the examples. *)

Module Examples.

#[global] Instance Z_arith : Arith Z := {|
  fadd := Z.add;
  fsub := Z.sub;
  fmul := Z.mul;
  fdiv := Z.div;
  fsqrt := Z.sqrt;
  of_int := fun z => z
|}.

(** A discretisation that finds the parameters already on the grid. *)
#[global] Instance exact_discretizer : Discretizer Z := {|
  discretize_conv_spike_ := fun c s => OK (c, s)
|}.

Definition avg_2x2 : Layer Z :=
  LAvgPool2d (AvgPool2d.mk (PPair 2 2) (PPair 2 2) (PInt 0)).

Definition avg_2 : Layer Z :=
  LAvgPool2d (AvgPool2d.mk (PInt 2) (PInt 2) (PInt 0)).

Definition avg_2x3 : Layer Z :=
  LAvgPool2d (AvgPool2d.mk (PPair 2 3) (PPair 2 3) (PInt 0)).

Definition sum_2x3 : Layer Z :=
  LSumPool2d (SumPool2d.mk (PPair 2 3) (PPair 2 3)).

(** Kernel 2, stride 1. *)
Definition avg_stride_1 : Layer Z :=
  LAvgPool2d (AvgPool2d.mk (PPair 2 2) (PPair 1 1) (PInt 0)).

(** Kernel 2, stride 2, padding 1. *)
Definition avg_padded : Layer Z :=
  LAvgPool2d (AvgPool2d.mk (PInt 2) (PInt 2) (PInt 1)).

Definition spk : Layer Z := LIAFSqueeze (IAFSqueeze.mk None 1 None).

(** A 1x1 convolution with two output channels. *)
Definition conv_1x1 (w0 w1 : Z) (bias : option (Tensor Z)) : Conv2d.t Z :=
  Conv2d.mk 1 2 (1, 1) (1, 1) (0, 0) (1, 1) (mkTensor [2; 1; 1; 1] [w0; w1])
    bias.

Definition conv_biased : Layer Z :=
  LConv2d (conv_1x1 8 16 (Some (mkTensor [2] [4; 6]))).

Definition conv_without_bias : Layer Z := LConv2d (conv_1x1 8 16 None).

Definition bn : Layer Z :=
  LBatchNorm2d
    (BatchNorm2d.mk true (Some (mkTensor [2] [1; 2]))
       (Some (mkTensor [2] [4; 16])) (Some (mkTensor [2] [8; 12]))
       (Some (mkTensor [2] [1; 1]))).

(** A convolution with kernel 3, stride 1 and padding 0. *)
Definition conv_k3 : Conv2d.t Z :=
  Conv2d.mk 3 8 (3, 3) (1, 1) (0, 0) (1, 1) (mkTensor [8; 3; 3; 3] []) None.

(** [Linear(in_features=12, out_features=4)] *)
Definition linear_12_4 : Linear.t Z :=
  Linear.mk 12 4 (mkTensor [4; 12] (map Z.of_nat (seq 0 48)))
    (Some (mkTensor [4] [1; 2; 3; 4])).

(** Three groups in a row; the second one ends with an average pooling
    of kernel 2:
    conv_a, spk, conv_b, spk, avg_2, conv_c, spk. *)
Definition conv_a : Layer Z := LConv2d (conv_1x1 8 16 None).
Definition conv_b : Layer Z := LConv2d (conv_1x1 24 40 None).
Definition conv_c : Layer Z := LConv2d (conv_1x1 32 64 None).

Definition chain_heap : heap Z :=
  [conv_a; spk; conv_b; spk; avg_2; conv_c; spk].

Definition chain : list loc := [0; 1; 2; 3; 4; 5; 6]%nat.

(** A group whose pooling node has the kernel (2, 3). *)
Definition nonsquare_state : DynapcnnLayer.state Z :=
  DynapcnnLayer.mkState [conv_a; spk; sum_2x3]
    [(KInt 0, DNode (NodeData.mk 0%nat (Some (1, 6, 6)) (Some (2, 6, 6))));
     (KInt 1, DNode (NodeData.mk 1%nat (Some (2, 6, 6)) (Some (2, 6, 6))));
     (KInt 2, DNode (NodeData.mk 2%nat (Some (2, 6, 6)) (Some (2, 3, 2))))]
    DynapcnnLayer.blank.

(** The group of a linear layer with declared input shape (3, 2, 2). *)
Definition linear_state : DynapcnnLayer.state Z :=
  DynapcnnLayer.mkState [LLinear linear_12_4; spk]
    [(KInt 0, DNode (NodeData.mk 0%nat (Some (3, 2, 2)) (Some (4, 1, 1))));
     (KInt 1, DNode (NodeData.mk 1%nat (Some (4, 1, 1)) (Some (4, 1, 1))))]
    DynapcnnLayer.blank.

(** A device whose configuration is the list of monitored cores, valid
    when at most one core is monitored; and a network of two layers. *)
Definition toy_builder
  : DynapcnnNetworkGraph.ConfigBuilder (list DynapcnnNetworkGraph.monitored) :=
  DynapcnnNetworkGraph.mkBuilder
    (fun _ => OK [0; 1])
    (fun _ => OK [])
    (fun config => OK config)
    (fun config monitored => OK (config ++ monitored))
    (fun config => OK (Nat.leb (List.length config) 1)).

Definition toy_factory (device : string)
  : result
      (DynapcnnNetworkGraph.ConfigBuilder (list DynapcnnNetworkGraph.monitored)) :=
  if String.eqb device "toy:0" then OK toy_builder
  else Raise (Exception "unsupported device").

Definition two_layers : DynapcnnNetworkGraph.t :=
  DynapcnnNetworkGraph.mk
    [(0, DynapcnnNetworkGraph.mkEntry false [1] (Some 0));
     (1, DynapcnnNetworkGraph.mkEntry false [] (Some 1))]
    (Some (2, 8, 8)).

Definition sum_2x2 : Layer Z :=
  LSumPool2d (SumPool2d.mk (PPair 2 2) (PPair 2 2)).

(** A spiking layer whose state is initialised. *)
Definition spk_started : Layer Z :=
  LIAFSqueeze (IAFSqueeze.mk (Some (mkTensor [1; 2] [0; 0])) 1 None).

(** A group with an entry that is no node, a convolution, a spiking layer
    and two sum poolings. *)
Definition conv_group_heap : heap Z :=
  [conv_a; spk_started; sum_2x2; sum_2x2].

Definition conv_group_data : dcnnl_data :=
  [(KStr "destinations", DOther);
   (KInt 3, DNode (NodeData.mk 0%nat (Some (1, 8, 8)) (Some (2, 8, 8))));
   (KInt 4, DNode (NodeData.mk 1%nat (Some (2, 8, 8)) (Some (2, 8, 8))));
   (KInt 7, DNode (NodeData.mk 2%nat (Some (2, 8, 8)) (Some (2, 4, 4))));
   (KInt 8, DNode (NodeData.mk 3%nat (Some (2, 4, 4)) (Some (2, 2, 2))))].

(** A stand-in for the class of [.dynapcnnlayer] in the examples: an
    object records the arguments its constructor was called with, and the
    constructor touches no object. *)
Record recorded_call : Type := mkCall {
  call_conv : loc;
  call_spk : loc;
  call_pool : option loc;
  call_in_shape : Z * Z * Z;
  call_discretize : bool;
  call_rescale_weights : Z
}.

Definition recording_class (conv spk : loc) (pool : option loc)
  (in_shape : Z * Z * Z) (discretize : bool) (rescale_weights : Z)
  : M (heap Z) recorded_call :=
  ret (mkCall conv spk pool in_shape discretize rescale_weights).

(** The classes of the examples: [IAFSqueeze] and [SpikingConv1dLayer]
    are spiking layers, and a class is printed with its module. *)
Definition spiking_classes (m : Layer Z) : bool :=
  match m with
  | LIAFSqueeze _ => true
  | LOther name =>
      String.eqb name "sinabs.layers.iaf_conv1d.SpikingConv1dLayer"
  | _ => false
  end.

Definition qualified_names (m : Layer Z) : string :=
  append "<class '"
    (append
       match m with
       | LConv2d _ => "torch.nn.modules.conv.Conv2d"
       | LLinear _ => "torch.nn.modules.linear.Linear"
       | LBatchNorm2d _ => "torch.nn.modules.batchnorm.BatchNorm2d"
       | LAvgPool2d _ => "torch.nn.modules.pooling.AvgPool2d"
       | LSumPool2d _ => "sinabs.layers.pool2d.SumPool2d"
       | LIAFSqueeze _ => "sinabs.layers.iaf.IAFSqueeze"
       | LOther name => name
       end "'>").

End Examples.

(** * Properties *)

(** ** Output shape of a convolution *)

Lemma floordiv_floor (n s : Z) :
  s <> 0 ->
  floordiv n s = OK (n / s) /\ floor_of_quotient n s (n / s).
Proof.
  intros Hs. split.
  - unfold floordiv. destruct (Z.eqb_spec s 0); [contradiction | reflexivity].
  - exists (n mod s). split.
    + apply Z.div_mod; assumption.
    + destruct (Z_lt_le_dec 0 s) as [Hpos | Hneg].
      * left. apply Z.mod_pos_bound; assumption.
      * right. assert (s < 0) by lia. apply Z.mod_neg_bound; assumption.
Qed.

(** C3. For a convolution with kernel (kh, kw), stride (sh, sw), padding
    (ph, pw), dilation (dh, dw) and input shape (C, H, W), the computed
    output shape is (out_channels, qh + 1, qw + 1), where qh is the floor
    of (H + 2 ph - dh (kh - 1) - 1) / sh and qw the floor of
    (W + 2 pw - dw (kw - 1) - 1) / sw: height and width are treated
    independently. *)
Theorem get_conv_output_shape_formula {F} (conv : Conv2d.t F) (C H W : Z) :
  fst (Conv2d.stride conv) <> 0 ->
  snd (Conv2d.stride conv) <> 0 ->
  let '(kh, kw) := Conv2d.kernel_size conv in
  let '(sh, sw) := Conv2d.stride conv in
  let '(ph, pw) := Conv2d.padding conv in
  let '(dh, dw) := Conv2d.dilation conv in
  let nh := H + 2 * ph - dh * (kh - 1) - 1 in
  let nw := W + 2 * pw - dw * (kw - 1) - 1 in
  get_conv_output_shape conv (C, H, W)
  = OK (Conv2d.out_channels conv, nh / sh + 1, nw / sw + 1)
  /\ floor_of_quotient nh sh (nh / sh)
  /\ floor_of_quotient nw sw (nw / sw).
Proof.
  destruct conv as [ic oc [kh kw] [sh sw] [ph pw] [dh dw] w b].
  cbn [Conv2d.out_channels Conv2d.kernel_size Conv2d.stride Conv2d.padding
       Conv2d.dilation fst snd].
  intros Hh Hw.
  destruct (floordiv_floor (H + 2 * ph - dh * (kh - 1) - 1) Hh) as [Eh Fh].
  destruct (floordiv_floor (W + 2 * pw - dw * (kw - 1) - 1) Hw) as [Ew Fw].
  unfold get_conv_output_shape.
  cbn [Conv2d.out_channels Conv2d.kernel_size Conv2d.stride Conv2d.padding
       Conv2d.dilation fst snd] in *.
  rewrite Eh. cbn [rbind]. rewrite Ew. cbn [rbind].
  repeat split; assumption.
Qed.

(** Input (3, 32, 32), kernel 3, stride 1, padding 0: height and width 30. *)
Lemma get_conv_output_shape_formula_witness :
  get_conv_output_shape Examples.conv_k3 (3, 32, 32) = OK (8, 30, 30).
Proof.
  destruct (@get_conv_output_shape_formula Z Examples.conv_k3 3 32 32)
    as [E _]; [simpl; lia | simpl; lia | exact E].
Defined.

(** ** Consolidation of pooling layers *)

Lemma pyval_eqb_spec (x y : pyval) : reflect (x = y) (pyval_eqb x y).
Proof.
  destruct x as [| a | a b], y as [| c | c d]; simpl;
    try (constructor; congruence).
  - destruct (Z.eqb_spec a c); constructor; congruence.
  - destruct (Z.eqb_spec a c), (Z.eqb_spec b d); simpl;
      constructor; congruence.
Qed.

Section Pooling.
Context {F : Type}.
Implicit Types (l lyr : Layer F) (layers chain pre rest post : list (Layer F)).

(** One turn of the loop on a layer that passes the checks. *)
Lemma accumulate_pooling_passes l vars :
  passes_checks l ->
  accumulate_pooling (pool_kernel_size l) (pool_stride l) vars
  = OK (mkPoolVars (idx_next vars)
          (fst (cumulative_pooling vars) * fst (kernel_pair l),
           snd (cumulative_pooling vars) * snd (kernel_pair l))
          (rescale_factor vars * (fst (kernel_pair l) * snd (kernel_pair l)))).
Proof.
  intros (_ & Hk & Hs & _).
  unfold accumulate_pooling, kernel_pair, kernel_is_stride in *.
  rewrite <- Hs.
  destruct (pyval_eqb_spec (expand_to_pair (pool_kernel_size l))
              (expand_to_pair (pool_kernel_size l))) as [_ | N];
    [| congruence].
  destruct (pool_kernel_size l) as [| v | a b]; [congruence | |];
    reflexivity.
Qed.

Lemma pooling_loop_step l layers i vars :
  passes_checks l ->
  pooling_loop i (l :: layers) vars
  = pooling_loop (S i) layers
      (mkPoolVars i
         (fst (cumulative_pooling vars) * fst (kernel_pair l),
          snd (cumulative_pooling vars) * snd (kernel_pair l))
         (rescale_factor vars * (fst (kernel_pair l) * snd (kernel_pair l)))).
Proof.
  intros Hp. pose proof Hp as (Hpool & _ & _ & Hpad).
  pose proof (@accumulate_pooling_passes l
                (mkPoolVars i (cumulative_pooling vars) (rescale_factor vars))
                Hp) as Hacc.
  destruct l; try discriminate Hpool; cbn [pooling_loop].
  - rewrite (Hpad (AvgPool2d.padding p) eq_refl). cbn [pyval_eqb negb].
    rewrite Z.eqb_refl. cbn [negb].
    cbn [pool_kernel_size pool_stride] in Hacc. rewrite Hacc. reflexivity.
  - cbn [pool_kernel_size pool_stride] in Hacc. rewrite Hacc. reflexivity.
Qed.

Lemma pooling_loop_passes layers : forall i vars,
  Forall passes_checks (pooling_chain layers) ->
  pooling_loop i layers vars
  = OK (mkPoolVars (index_after_loop i layers (idx_next vars))
          (fst (cumulative_pooling vars)
           * fst (cumulative_kernel (pooling_chain layers)),
           snd (cumulative_pooling vars)
           * snd (cumulative_kernel (pooling_chain layers)))
          (rescale_factor vars * cumulative_rescale (pooling_chain layers))).
Proof.
  induction layers as [| l layers IH]; intros i vars Hall.
  - destruct vars as [idx [c0 c1] r]. cbn.
    rewrite !Z.mul_1_r. reflexivity.
  - cbn [pooling_chain index_after_loop] in *.
    destruct (is_pooling l) eqn:Hl.
    + inversion Hall as [| ? ? Hp Hrest]; subst.
      rewrite (@pooling_loop_step l layers i vars Hp), (IH _ _ Hrest).
      unfold cumulative_kernel, cumulative_rescale, product.
      cbn [map fold_right fst snd cumulative_pooling rescale_factor idx_next].
      rewrite !Z.mul_assoc. reflexivity.
    + destruct vars as [idx [c0 c1] r].
      destruct l; try discriminate Hl; cbn; rewrite !Z.mul_1_r; reflexivity.
Qed.

Lemma cumulative_rescale_kernel chain :
  cumulative_rescale chain
  = fst (cumulative_kernel chain) * snd (cumulative_kernel chain).
Proof.
  unfold cumulative_rescale, cumulative_kernel, product. cbn [fst snd].
  induction chain as [| l chain IH]; cbn [map fold_right]; [reflexivity |].
  rewrite IH. ring.
Qed.

Lemma construct_next_pooling_layer_passes layers :
  Forall passes_checks (pooling_chain layers) ->
  construct_next_pooling_layer layers
  = OK (consolidated_pool (pooling_chain layers),
        index_after_loop 0 layers 0,
        cumulative_rescale (pooling_chain layers)).
Proof.
  intros Hall. unfold construct_next_pooling_layer.
  rewrite (@pooling_loop_passes layers 0%nat _ Hall). cbn [rbind].
  cbn [cumulative_pooling idx_next rescale_factor fst snd].
  unfold consolidated_pool.
  rewrite (cumulative_rescale_kernel (pooling_chain layers)).
  destruct (cumulative_kernel (pooling_chain layers)) as [kh kw].
  cbn [fst snd]. rewrite !Z.mul_1_l.
  destruct (Z.eqb_spec kh 1), (Z.eqb_spec kw 1); cbn [andb]; subst;
    reflexivity.
Qed.

Lemma pooling_chain_all layers :
  Forall passes_checks layers -> pooling_chain layers = layers.
Proof.
  induction 1 as [| l layers (Hp & _) _ IH]; cbn [pooling_chain];
    [reflexivity |].
  rewrite Hp, IH. reflexivity.
Qed.

Lemma index_after_loop_all layers : forall i dflt,
  Forall passes_checks layers -> layers <> [] ->
  index_after_loop i layers dflt = (i + List.length layers - 1)%nat.
Proof.
  induction layers as [| l layers IH]; intros i dflt Hall Hne;
    [congruence |].
  inversion Hall as [| ? ? (Hp & _) Hrest]; subst.
  cbn [index_after_loop List.length]. rewrite Hp.
  destruct layers as [| l' layers'].
  - cbn. lia.
  - rewrite IH by (assumption || discriminate). cbn [List.length]. lia.
Qed.

(** The loop runs through a prefix of layers that pass the checks. *)
Lemma pooling_loop_app pre : forall rest i vars,
  Forall passes_checks pre ->
  exists vars',
    pooling_loop i (pre ++ rest) vars
    = pooling_loop (i + List.length pre) rest vars'.
Proof.
  induction pre as [| l pre IH]; intros rest i vars Hall.
  - exists vars. cbn. rewrite Nat.add_0_r. reflexivity.
  - inversion Hall as [| ? ? Hp Hrest]; subst.
    cbn [app]. rewrite (@pooling_loop_step l (pre ++ rest) i vars Hp).
    match goal with
    | |- context [pooling_loop (S i) (pre ++ rest) ?v] =>
        destruct (IH rest (S i) v Hrest) as [vars' E]
    end.
    exists vars'. rewrite E. cbn [List.length]. f_equal. lia.
Qed.

Lemma pooling_loop_padding p rest i vars :
  AvgPool2d.padding p <> PInt 0 ->
  pooling_loop i (LAvgPool2d p :: rest) vars = Raise (ValueError msg_padding).
Proof.
  intros Hpad. cbn [pooling_loop].
  destruct (pyval_eqb_spec (AvgPool2d.padding p) (PInt 0));
    [contradiction | reflexivity].
Qed.

Lemma accumulate_pooling_stride k s vars :
  expand_to_pair k <> expand_to_pair s ->
  accumulate_pooling k s vars = Raise (ValueError msg_stride).
Proof.
  intros Hne. unfold accumulate_pooling.
  destruct (pyval_eqb_spec (expand_to_pair k) (expand_to_pair s));
    [contradiction | reflexivity].
Qed.

Lemma pooling_loop_stride l rest i vars :
  is_pooling l = true ->
  (forall p, pool_padding l = Some p -> p = PInt 0) ->
  ~ kernel_is_stride l ->
  pooling_loop i (l :: rest) vars = Raise (ValueError msg_stride).
Proof.
  intros Hl Hpad Hne. unfold kernel_is_stride in Hne.
  destruct l; try discriminate Hl; cbn [pooling_loop];
    cbn [pool_kernel_size pool_stride pool_padding] in *.
  - rewrite (Hpad _ eq_refl). cbn [pyval_eqb]. rewrite Z.eqb_refl.
    cbn [negb]. rewrite accumulate_pooling_stride by assumption.
    reflexivity.
  - rewrite accumulate_pooling_stride by assumption. reflexivity.
Qed.

Lemma accumulate_pooling_ok k s vars vars' :
  accumulate_pooling k s vars = OK vars' ->
  expand_to_pair k = expand_to_pair s.
Proof.
  unfold accumulate_pooling.
  destruct (pyval_eqb_spec (expand_to_pair k) (expand_to_pair s));
    [trivial | discriminate].
Qed.

Lemma pooling_loop_ok layers : forall i vars vars',
  pooling_loop i layers vars = OK vars' ->
  Forall (fun l => kernel_is_stride l /\ padding_is_zero l)
    (pooling_chain layers).
Proof.
  induction layers as [| l layers IH]; intros i vars vars' E;
    cbn [pooling_chain]; [constructor |].
  destruct (is_pooling l) eqn:Hl; [| constructor].
  destruct l; try discriminate Hl; cbn [pooling_loop] in E.
  - destruct (pyval_eqb_spec (AvgPool2d.padding p) (PInt 0)) as [Hpad | ];
      [| discriminate].
    cbn [negb] in E.
    destruct (accumulate_pooling _ _ _) as [v |] eqn:Hacc; [| discriminate].
    constructor; [split |].
    + exact (accumulate_pooling_ok _ _ _ Hacc).
    + intros q Hq. cbn in Hq. congruence.
    + exact (IH _ _ _ E).
  - destruct (accumulate_pooling _ _ _) as [v |] eqn:Hacc; [| discriminate].
    constructor; [split |].
    + exact (accumulate_pooling_ok _ _ _ Hacc).
    + intros q Hq. discriminate Hq.
    + exact (IH _ _ _ E).
Qed.

End Pooling.

(** C4. For the maximal chain of pooling layers at the head of [layers],
    each passing the kernel = stride and padding checks,
    [construct_next_pooling_layer] returns a sum pooling whose kernel is
    the elementwise product of the kernels of the chain, and as rescale
    factor the product of (kernel height x kernel width) over the chain.
    No pooling layer is returned exactly when that product kernel is
    (1, 1), as for the empty chain, and the factor is then 1. *)
Theorem pooling_chain_consolidated {F} (layers : list (Layer F)) :
  Forall passes_checks (pooling_chain layers) ->
  exists idx,
    construct_next_pooling_layer layers
    = OK (consolidated_pool (pooling_chain layers), idx,
          cumulative_rescale (pooling_chain layers)).
Proof.
  intros Hall. eexists. apply construct_next_pooling_layer_passes, Hall.
Qed.

(** Two average poolings of kernel and stride (2, 2): kernel (4, 4) and
    factor 16; the empty chain: no pooling layer and factor 1. *)
Lemma pooling_chain_consolidated_witness :
  (exists idx,
     construct_next_pooling_layer [Examples.avg_2x2; Examples.avg_2x2]
     = OK (Some (SumPool2d.new (PPair 4 4)), idx, 16))
  /\ (exists idx,
        construct_next_pooling_layer (F:=Z) [] = OK (None, idx, 1)).
Proof.
  split.
  - apply (@pooling_chain_consolidated Z [Examples.avg_2x2; Examples.avg_2x2]).
    repeat constructor; try discriminate; intros p H; inversion H; reflexivity.
  - apply (@pooling_chain_consolidated Z []). constructor.
Defined.

(** C10. For a non-empty list made only of pooling layers that pass the
    checks, [construct_next_pooling_layer] returns as next index
    [len(layers) - 1], the index of the last pooling layer, while the kernel
    and the rescale factor it returns include the contribution of that
    last layer. *)
Theorem all_pooling_returns_last_index {F} (layers : list (Layer F)) :
  layers <> [] ->
  Forall passes_checks layers ->
  construct_next_pooling_layer layers
  = OK (consolidated_pool layers, (List.length layers - 1)%nat,
        cumulative_rescale layers)
  /\ cumulative_rescale layers
     = cumulative_rescale (removelast layers)
       * (fst (kernel_pair (last layers (LOther "")))
          * snd (kernel_pair (last layers (LOther "")))).
Proof.
  intros Hne Hall. split.
  - rewrite construct_next_pooling_layer_passes
      by (rewrite pooling_chain_all; assumption).
    rewrite pooling_chain_all by assumption.
    rewrite index_after_loop_all by assumption. reflexivity.
  - rewrite (app_removelast_last (LOther "") Hne) at 1.
    unfold cumulative_rescale, product. rewrite map_app, fold_right_app.
    cbn [map fold_right]. rewrite Z.mul_1_r.
    generalize (fst (kernel_pair (last layers (LOther "")))
                * snd (kernel_pair (last layers (LOther "")))).
    intros a. induction (removelast layers) as [| x xs IH]; cbn [map fold_right].
    + ring.
    + rewrite IH. ring.
Qed.

Lemma all_pooling_returns_last_index_witness :
  construct_next_pooling_layer [Examples.avg_2x2; Examples.avg_2x2]
  = OK (Some (SumPool2d.new (PPair 4 4)), 1%nat, 16).
Proof.
  apply (@all_pooling_returns_last_index Z [Examples.avg_2x2; Examples.avg_2x2]).
  - discriminate.
  - repeat constructor; try discriminate; intros p H; inversion H; reflexivity.
Defined.

(** C6. A pooling layer reached by the scan (all layers before it pass
    the checks), average or sum pooling alike: a padding other than 0 raises
    the padding error; a kernel size other than the stride raises a
    constraint violation, which is the stride error when the padding is
    zero.  The consolidation returns only if every pooling layer of the
    chain has its kernel equal to its stride and padding zero. *)
Theorem pooling_checks_enforced {F} (pre post layers : list (Layer F))
  (lyr : Layer F) :
  Forall passes_checks pre ->
  is_pooling lyr = true ->
  ((exists p, pool_padding lyr = Some p /\ p <> PInt 0) ->
   construct_next_pooling_layer (pre ++ lyr :: post)
   = Raise (ValueError msg_padding)
   /\ ConstraintViolation (ValueError msg_padding))
  /\ (~ kernel_is_stride lyr ->
      exists e,
        construct_next_pooling_layer (pre ++ lyr :: post) = Raise e
        /\ ConstraintViolation e
        /\ (padding_is_zero lyr -> e = ValueError msg_stride))
  /\ (forall res,
        construct_next_pooling_layer layers = OK res ->
        Forall (fun l => kernel_is_stride l /\ padding_is_zero l)
          (pooling_chain layers)).
Proof.
  intros Hpre Hl.
  assert (Hrun : forall vars, exists vars',
             pooling_loop 0 (pre ++ lyr :: post) vars
             = pooling_loop (0 + List.length pre) (lyr :: post) vars').
  { intros vars. apply pooling_loop_app, Hpre. }
  assert (Hpadding : (exists p, pool_padding lyr = Some p /\ p <> PInt 0) ->
            construct_next_pooling_layer (pre ++ lyr :: post)
            = Raise (ValueError msg_padding)).
  { intros (p & Hp & Hne). unfold construct_next_pooling_layer.
    destruct (Hrun (mkPoolVars 0 (1, 1) 1)) as [vars' E]. rewrite E.
    destruct lyr; try discriminate Hp. cbn in Hp.
    rewrite pooling_loop_padding by congruence. reflexivity. }
  split; [| split].
  - intros Hpad. split; [auto | constructor].
  - intros Hne.
    destruct (pool_padding lyr) as [p |] eqn:Hp.
    + rewrite <- Hp in Hpadding.
      destruct (pyval_eqb_spec p (PInt 0)) as [-> | Hnz].
      * exists (ValueError msg_stride). split; [| split; [constructor | auto]].
        unfold construct_next_pooling_layer.
        destruct (Hrun (mkPoolVars 0 (1, 1) 1)) as [vars' E]. rewrite E.
        rewrite pooling_loop_stride; try assumption; [reflexivity |].
        intros q Hq. congruence.
      * exists (ValueError msg_padding). split; [| split; [constructor |]].
        -- apply Hpadding. exists p. auto.
        -- intros Hz. elim Hnz. apply Hz. exact Hp.
    + exists (ValueError msg_stride). split; [| split; [constructor | auto]].
      unfold construct_next_pooling_layer.
      destruct (Hrun (mkPoolVars 0 (1, 1) 1)) as [vars' E]. rewrite E.
      rewrite pooling_loop_stride; try assumption; [reflexivity |].
      intros q Hq. congruence.
  - intros res E. unfold construct_next_pooling_layer in E.
    destruct (pooling_loop 0 layers _) as [v |] eqn:Hloop; [| discriminate].
    exact (pooling_loop_ok _ _ _ Hloop).
Qed.

Lemma pooling_checks_enforced_witness :
  construct_next_pooling_layer [Examples.avg_2x2; Examples.avg_stride_1]
  = Raise (ValueError msg_stride)
  /\ construct_next_pooling_layer [Examples.avg_2x2; Examples.avg_padded]
     = Raise (ValueError msg_padding).
Proof.
  assert (Hpre : Forall passes_checks [Examples.avg_2x2]).
  { repeat constructor; try discriminate; intros p H; inversion H;
      reflexivity. }
  split.
  - destruct (@pooling_checks_enforced Z [Examples.avg_2x2] [] []
                Examples.avg_stride_1 Hpre eq_refl) as (_ & Hstride & _).
    destruct Hstride as (e & E & _ & He); [discriminate |].
    rewrite <- He; [exact E |]. intros p H; inversion H; reflexivity.
  - destruct (@pooling_checks_enforced Z [Examples.avg_2x2] [] []
                Examples.avg_padded Hpre eq_refl) as (Hpad & _).
    apply Hpad. exists (PInt 1). split; [reflexivity | discriminate].
Defined.

(** ** Reasoning on computations *)

Lemma bind_ok {S A B} (m : M S A) (k : A -> M S B) s b s' :
  bind m k s = (OK b, s') ->
  exists a s1, m s = (OK a, s1) /\ k a s1 = (OK b, s').
Proof.
  unfold bind. destruct (m s) as [[a | e] s1]; intros E.
  - exists a, s1. auto.
  - discriminate.
Qed.

Lemma lift_ok {S A} (r : result A) (s s' : S) a :
  lift r s = (OK a, s') -> r = OK a /\ s' = s.
Proof. unfold lift. intros E. inversion E. auto. Qed.

Lemma ret_ok {S A} (x a : A) (s s' : S) :
  ret x s = (OK a, s') -> a = x /\ s' = s.
Proof. unfold ret. intros E. inversion E. auto. Qed.

Lemma raise_ok {S A} e (a : A) (s s' : S) :
  raise e s = (OK a, s') -> False.
Proof. unfold raise. discriminate. Qed.

Lemma get_ok {S} (a s s' : S) : get s = (OK a, s') -> a = s /\ s' = s.
Proof. unfold get. intros E. inversion E. auto. Qed.

Lemma modify_ok {S} (f : S -> S) u (s s' : S) :
  modify f s = (OK u, s') -> s' = f s.
Proof. unfold modify. intros E. inversion E. auto. Qed.

(** Decomposition of the computations that returned. *)
Ltac inv_ok :=
  repeat match goal with
  | H : bind _ _ _ = (OK _, _) |- _ =>
      apply bind_ok in H; destruct H as (? & ? & ? & H)
  | H : lift _ _ = (OK _, _) |- _ =>
      apply lift_ok in H; destruct H as [H ?]; subst
  | H : ret _ _ = (OK _, _) |- _ =>
      apply ret_ok in H; destruct H as [? ?]; subst
  | H : raise _ _ = (OK _, _) |- _ => apply raise_ok in H; contradiction
  | H : get _ = (OK _, _) |- _ =>
      apply get_ok in H; destruct H as [? ?]; subst
  | H : modify _ _ = (OK _, _) |- _ => apply modify_ok in H; subst
  end.

(** ** The heap *)

Section HeapFacts.
Context {F : Type}.
Implicit Types (h ext : heap F) (m : Layer F) (l : loc).

Lemma nth_error_old h ext l m :
  nth_error h l = Some m -> nth_error (h ++ ext) l = Some m.
Proof.
  intros E. rewrite nth_error_app1; [assumption |].
  apply nth_error_Some. congruence.
Qed.

Lemma nth_error_new h ext (k : nat) :
  nth_error (h ++ ext) (List.length h + k) = nth_error ext k.
Proof.
  rewrite nth_error_app2 by lia. f_equal. lia.
Qed.

Lemma list_update_new h ext (k : nat) m :
  list_update (h ++ ext) (List.length h + k) m = h ++ list_update ext k m.
Proof.
  induction h as [| x h IH]; cbn [app List.length Nat.add].
  - reflexivity.
  - cbn [list_update]. rewrite IH. reflexivity.
Qed.

Lemma deref_ok l h m h' :
  deref l h = (OK m, h') -> nth_error h l = Some m /\ h' = h.
Proof.
  unfold deref. destruct (nth_error h l); intros E; inversion E; auto.
Qed.

Lemma deref_eq l h m : nth_error h l = Some m -> deref l h = (OK m, h).
Proof. unfold deref. intros ->. reflexivity. Qed.

Lemma alloc_ok m h l h' :
  alloc m h = (OK l, h') -> l = List.length h /\ h' = h ++ [m].
Proof. unfold alloc. intros E. inversion E. auto. Qed.

Lemma deepcopy_ok l h l' h' :
  deepcopy l h = (OK l', h') ->
  exists m, nth_error h l = Some m /\ l' = List.length h /\ h' = h ++ [m].
Proof.
  unfold deepcopy. intros E.
  apply bind_ok in E. destruct E as (m & h1 & Hd & Ha).
  apply deref_ok in Hd. destruct Hd as [Hm ->].
  apply alloc_ok in Ha. destruct Ha as [-> ->]. eauto.
Qed.

Lemma store_ok l m h u h' :
  store l m h = (OK u, h') -> h' = list_update h l m.
Proof. unfold store, modify. intros E. inversion E. reflexivity. Qed.

(** An assignment to the data of a parameter of the object at [l]. *)
Lemma assign_weight_data_ok l v h u h' :
  assign_weight_data l v h = (OK u, h') ->
  exists m t m',
    nth_error h l = Some m /\ v = VTensor t
    /\ set_weight_data m t = OK m' /\ h' = list_update h l m'.
Proof.
  unfold assign_weight_data. intros E. inv_ok.
  repeat match goal with
  | H : deref _ _ = (OK _, _) |- _ =>
      apply deref_ok in H; destruct H as [H ?]; subst
  end.
  apply store_ok in E.
  destruct v as [| ? | t]; try discriminate.
  match goal with H : as_tensor _ = OK _ |- _ => inversion H; subst end.
  eauto 8.
Qed.

Lemma assign_bias_data_ok l v h u h' :
  assign_bias_data l v h = (OK u, h') ->
  exists m t m',
    nth_error h l = Some m /\ v = VTensor t
    /\ set_bias_data m t = OK m' /\ h' = list_update h l m'.
Proof.
  unfold assign_bias_data. intros E. inv_ok.
  repeat match goal with
  | H : deref _ _ = (OK _, _) |- _ =>
      apply deref_ok in H; destruct H as [H ?]; subst
  end.
  apply store_ok in E.
  destruct v as [| ? | t]; try discriminate.
  match goal with H : as_tensor _ = OK _ |- _ => inversion H; subst end.
  eauto 8.
Qed.

End HeapFacts.

(** ** [merge_conv_bn] and the objects of the heap *)

Lemma bind_any {S A B} (m : M S A) (k : A -> M S B) s r s' :
  bind m k s = (r, s') ->
  (exists e, m s = (Raise e, s') /\ r = Raise e)
  \/ exists a s1, m s = (OK a, s1) /\ k a s1 = (r, s').
Proof.
  unfold bind. destruct (m s) as [[a | e] s1]; intros E.
  - right. exists a, s1. auto.
  - left. exists e. inversion E; subst. auto.
Qed.

Lemma lift_any {S A} (r0 r : result A) (s s' : S) :
  lift r0 s = (r, s') -> r = r0 /\ s' = s.
Proof. unfold lift. intros E. inversion E. auto. Qed.

Section MergeFrame.
Context {F : Type} {arith : Arith F}.
Implicit Types (h : heap F) (m : Layer F).

Lemma deref_any l h (r : result (Layer F)) h' :
  deref l h = (r, h') -> h' = h.
Proof.
  unfold deref. destruct (nth_error h l); intros E; inversion E; auto.
Qed.

(** An assignment to a parameter of the newest object only replaces that
    object. *)
Lemma assign_weight_data_newest h m v r h' :
  assign_weight_data (List.length h) v (h ++ [m]) = (r, h') ->
  exists m', h' = h ++ [m'].
Proof.
  unfold assign_weight_data, store, modify, bind, lift, deref.
  replace (List.length h) with (List.length h + 0)%nat by lia.
  rewrite nth_error_new. cbn [nth_error].
  destruct (get_weight_data m); [| intros E; inversion E; eauto].
  destruct (as_tensor v); [| intros E; inversion E; eauto].
  destruct (set_weight_data m a0); intros E; inversion E; eauto.
  rewrite list_update_new. cbn. eauto.
Qed.

Lemma assign_bias_data_newest h m v r h' :
  assign_bias_data (List.length h) v (h ++ [m]) = (r, h') ->
  exists m', h' = h ++ [m'].
Proof.
  unfold assign_bias_data, store, modify, bind, lift, deref.
  replace (List.length h) with (List.length h + 0)%nat by lia.
  rewrite nth_error_new. cbn [nth_error].
  destruct (get_bias m) as [[b |] |]; cbn;
    try (intros E; inversion E; eauto; fail).
  destruct (as_tensor v); [| intros E; inversion E; eauto].
  destruct (set_bias_data m a); intros E; inversion E; eauto.
  rewrite list_update_new. cbn. eauto.
Qed.

Ltac pure_step H :=
  apply bind_any in H;
  destruct H as [(? & H & ?) | (? & ? & ? & H)];
  [ first [ apply lift_any in H; destruct H as [_ ->]
          | apply deref_any in H; subst ]
  | match goal with
    | H0 : lift _ _ = _ |- _ => apply lift_any in H0; destruct H0 as [? ?]
    | H0 : deref _ _ = _ |- _ => apply deref_any in H0; subst
    end ].

(** The steps of [merge_conv_bn] from [sigmasq.sqrt()] on. *)
Ltac merge_tail E :=
  pure_step E; [auto |]; subst;
  pure_step E; [auto |]; subst;
  pure_step E; [auto |];
  pure_step E; [auto |]; subst;
  pure_step E; [auto |]; subst;
  apply bind_any in E;
  destruct E as [(? & E & ?) | (? & ? & Hcopy & E)];
  [ left; unfold deepcopy, bind, deref, alloc in E;
    match type of E with
    | context [nth_error ?h ?l] => destruct (nth_error h l)
    end; inversion E; reflexivity |];
  apply deepcopy_ok in Hcopy; destruct Hcopy as (? & ? & -> & ->);
  right;
  pure_step E; [eauto |]; subst;
  pure_step E; [eauto |]; subst;
  apply bind_any in E;
  destruct E as [(? & E & ?) | (? & ? & Hw & E)];
  [ eapply assign_weight_data_newest; eassumption |];
  apply assign_weight_data_newest in Hw; destruct Hw as [? ->];
  pure_step E; [eauto |]; subst;
  pure_step E; [eauto |]; subst;
  pure_step E; [eauto |]; subst;
  apply bind_any in E;
  destruct E as [(? & E & ?) | (? & ? & Hb & E)];
  [ eapply assign_bias_data_newest; eassumption |];
  apply assign_bias_data_newest in Hb; destruct Hb as [? ->];
  unfold ret in E; inversion E; subst; eauto.

(** Whatever its outcome, [merge_conv_bn] leaves the heap as it is or
    adds one object to it. *)
Lemma merge_conv_bn_grows conv bn h r h' :
  merge_conv_bn conv bn h = (r, h') ->
  h' = h \/ exists m, h' = h ++ [m].
Proof.
  unfold merge_conv_bn. intros E.
  pure_step E; [auto |].
  pure_step E; [auto |]. subst.
  match type of E with
  | context [if ?c then _ else _] => destruct c
  end; cbv beta iota in E; merge_tail E.
Qed.

(** When it returns, the result is a new object: the convolution passed
    in, with the data of its weight and of its bias replaced. *)
Lemma merge_conv_bn_ok conv bn h l' h' :
  merge_conv_bn conv bn h = (OK l', h') ->
  exists m0 w b m1 m',
    nth_error h conv = Some m0
    /\ l' = List.length h /\ h' = h ++ [m']
    /\ set_weight_data m0 w = OK m1 /\ set_bias_data m1 b = OK m'.
Proof.
  unfold merge_conv_bn. intros E.
  apply bind_ok in E. destruct E as (bn_obj & h1 & Hbn & E).
  apply deref_ok in Hbn. destruct Hbn as [Hbn ->].
  apply bind_ok in E. destruct E as (b & h1 & Hb & E).
  apply lift_ok in Hb. destruct Hb as [Hb ->].
  destruct (if BatchNorm2d.affine b then _ else _) as [gamma beta].
  inv_ok.
  repeat match goal with
  | H : deref _ _ = (OK _, _) |- _ =>
      apply deref_ok in H; destruct H as [H ?]; subst
  | H : deepcopy _ _ = (OK _, _) |- _ =>
      apply deepcopy_ok in H; destruct H as (? & H & ? & ?); subst
  end.
  match goal with
  | H : assign_weight_data _ _ _ = (OK _, _) |- _ =>
      apply assign_weight_data_ok in H;
      destruct H as (m & w & m1 & Hm & _ & Hw & ->)
  end.
  match goal with
  | H : assign_bias_data _ _ _ = (OK _, _) |- _ =>
      apply assign_bias_data_ok in H;
      destruct H as (m1' & b' & m2 & Hm1 & _ & Hb' & ->)
  end.
  replace (List.length h) with (List.length h + 0)%nat in * by lia.
  rewrite nth_error_new in Hm. cbn in Hm. inversion Hm; subst m.
  rewrite list_update_new in *. cbn [list_update] in *.
  rewrite nth_error_new in Hm1. cbn in Hm1. inversion Hm1; subst m1'.
  rewrite list_update_new. cbn [list_update].
  eauto 12.
Qed.

End MergeFrame.

(** C9. [merge_conv_bn] leaves the convolution passed in unmodified:
    whatever the outcome, every object of the heap before the call, the
    convolution included, is the same after it; when the call returns, the
    result is an object that did not exist before, which is the
    convolution with the data of its weight and of its bias replaced by
    the folded ones. *)
Theorem merge_conv_bn_leaves_conv_unmodified {F} {arith : Arith F}
  (h h' : heap F) (conv bn : loc) (r : result loc) :
  merge_conv_bn conv bn h = (r, h') ->
  (forall l m, nth_error h l = Some m -> nth_error h' l = Some m)
  /\ (forall l', r = OK l' ->
      nth_error h l' = None
      /\ exists m0 w b m1 m',
           nth_error h conv = Some m0 /\ nth_error h' conv = Some m0
           /\ nth_error h' l' = Some m'
           /\ set_weight_data m0 w = OK m1 /\ set_bias_data m1 b = OK m').
Proof.
  intros E. split.
  - intros l m Hl.
    destruct (merge_conv_bn_grows _ _ _ E) as [-> | [m' ->]];
      [assumption | apply nth_error_old; assumption].
  - intros l' ->.
    destruct (merge_conv_bn_ok _ _ _ E)
      as (m0 & w & b & m1 & m' & Hm0 & -> & -> & Hw & Hb).
    split.
    + apply nth_error_None. lia.
    + exists m0, w, b, m1, m'. repeat split; try assumption.
      * apply nth_error_old; assumption.
      * replace (List.length h) with (List.length h + 0)%nat by lia.
        rewrite nth_error_new. reflexivity.
Qed.

(** A convolution with bias and a batch normalisation. *)
Lemma merge_conv_bn_leaves_conv_unmodified_witness :
  let h := [Examples.conv_biased; Examples.bn] in
  exists fresh h',
    merge_conv_bn 0%nat 1%nat h = (OK fresh, h')
    /\ nth_error h' 0%nat = Some Examples.conv_biased
    /\ nth_error h fresh = None.
Proof.
  intros h.
  destruct (merge_conv_bn 0%nat 1%nat h) as [r h'] eqn:E.
  destruct (@merge_conv_bn_leaves_conv_unmodified Z _ h h' 0%nat 1%nat r E)
    as [Hold Hnew].
  vm_compute in E. inversion E; subst r h'.
  exists 2%nat. eexists. split; [reflexivity |]. split.
  - apply Hold. reflexivity.
  - apply (Hnew 2%nat eq_refl).
Defined.

(** ** Folding a batch normalisation into a convolution without bias *)

Section WithoutBias.
Context {F : Type} {arith : Arith F}.
Implicit Types (h : heap F) (m : Layer F).

Lemma set_weight_data_bias m t m' :
  set_weight_data m t = OK m' -> get_bias m' = get_bias m.
Proof.
  destruct m; cbn; intros E; try discriminate E;
    try (inversion E; reflexivity).
  destruct (BatchNorm2d.weight b); inversion E; reflexivity.
Qed.

Lemma set_bias_data_some m t m' :
  set_bias_data m t = OK m' -> exists b, get_bias m = OK (Some b).
Proof.
  destruct m; cbn; intros E; try discriminate E.
  - destruct (Conv2d.bias c); [eauto | discriminate E].
  - destruct (Linear.bias l); [eauto | discriminate E].
  - destruct (BatchNorm2d.bias b); [eauto | discriminate E].
Qed.

(** [merge_conv_bn] never returns for a convolution whose bias is
    [None]: the bias of the copy is [None] too, and the last assignment
    fails on it. *)
Lemma merge_conv_bn_bias_absent conv bn h m0 r h' :
  nth_error h conv = Some m0 ->
  get_bias m0 = OK None ->
  merge_conv_bn conv bn h = (r, h') ->
  exists e, r = Raise e.
Proof.
  intros Hm0 Hbias E. destruct r as [l' | e]; [| eauto].
  apply merge_conv_bn_ok in E.
  destruct E as (m0' & w & b & m1 & m' & Hm0' & _ & _ & Hw & Hb).
  rewrite Hm0 in Hm0'. inversion Hm0'; subst m0'.
  apply set_bias_data_some in Hb. destruct Hb as [b' Hb'].
  rewrite (set_weight_data_bias _ _ Hw), Hbias in Hb'. discriminate Hb'.
Qed.

End WithoutBias.

(** C5 (defect of the code).  For a convolution without bias the old bias
    is taken as 0 ([c_bias = 0.0]), but the folded bias is then assigned to
    [conv.bias.data] with [conv.bias] being [None]: [merge_conv_bn] raises
    an [AttributeError] instead of returning the folded convolution. *)
Theorem merge_conv_bn_without_bias_raises :
  fst (merge_conv_bn 0%nat 1%nat [Examples.conv_without_bias; Examples.bn])
  = Raise (AttributeError "'NoneType' object has no attribute 'data'").
Proof. vm_compute. reflexivity. Qed.

(** ** Conversion of a linear layer into a convolution *)

(** Forward evaluation of a sequence. *)
Lemma bind_eq {S A B} (m : M S A) (k : A -> M S B) s a s1 :
  m s = (OK a, s1) -> bind m k s = k a s1.
Proof. unfold bind. intros ->. reflexivity. Qed.
Arguments bind_eq {S A B m k s a s1} _.

(** Evaluate the first computation of the sequence at the head of the goal,
    [tac] proving its outcome. *)
Ltac step tac :=
  match goal with
  | |- context [bind ?m ?k ?s] =>
      let H := fresh in
      eassert (H : m s = (OK _, _)) by tac;
      rewrite (@bind_eq _ _ _ m k s _ _ H); clear H
  end.

Section NewestObject.
Context {F : Type}.
Implicit Types (h : heap F) (m : Layer F).

Lemma nth_error_newest h m : nth_error (h ++ [m]) (List.length h) = Some m.
Proof.
  replace (List.length h) with (List.length h + 0)%nat by lia.
  rewrite nth_error_new. reflexivity.
Qed.

Lemma list_update_newest h m m' :
  list_update (h ++ [m]) (List.length h) m' = h ++ [m'].
Proof.
  replace (List.length h) with (List.length h + 0)%nat by lia.
  rewrite list_update_new. reflexivity.
Qed.

Lemma assign_weight_data_newest_eq h m t w m' :
  get_weight_data m = OK w ->
  set_weight_data m t = OK m' ->
  assign_weight_data (List.length h) (VTensor t) (h ++ [m])
  = (OK tt, h ++ [m']).
Proof.
  intros Hg Hs. unfold assign_weight_data.
  rewrite (bind_eq (deref_eq _ _ (nth_error_newest h m))).
  unfold lift at 1. rewrite Hg.
  unfold bind, lift, as_tensor, store, modify. rewrite Hs.
  rewrite list_update_newest. reflexivity.
Qed.

Lemma assign_bias_data_newest_eq h m t b m' :
  get_bias m = OK (Some b) ->
  set_bias_data m t = OK m' ->
  assign_bias_data (List.length h) (VTensor t) (h ++ [m])
  = (OK tt, h ++ [m']).
Proof.
  intros Hg Hs. unfold assign_bias_data.
  rewrite (bind_eq (deref_eq _ _ (nth_error_newest h m))).
  unfold lift at 1. rewrite Hg.
  unfold bind, lift, as_tensor, store, modify. rewrite Hs.
  rewrite list_update_newest. reflexivity.
Qed.

End NewestObject.

Lemma forallb_nonneg (l : list Z) :
  Forall (fun d => 0 <= d) l -> forallb (fun d => 0 <=? d) l = true.
Proof.
  induction 1 as [| d l Hd _ IH]; cbn [forallb]; [reflexivity |].
  rewrite IH. destruct (Z.leb_spec 0 d); [reflexivity | lia].
Qed.

Lemma ravel_linear_conv (o c y x out C H W : Z) :
  ravel [out; C; H; W] [o; c; y; x] 0
  = ravel [out; C * H * W] [o; c * H * W + y * W + x] 0.
Proof. cbn [ravel]. ring. Qed.

Section LinearToConv.
Context {F : Type} {arith : Arith F} {discretizer : Discretizer F}.
Import DynapcnnLayer.

Lemma reshape_eq (t : Tensor F) (shp : list Z) :
  Forall (fun d => 0 <= d) shp ->
  numel shp = Z.of_nat (List.length (data t)) ->
  reshape t shp = OK (mkTensor shp (data t)).
Proof.
  intros Hnn Hn. unfold reshape.
  rewrite forallb_nonneg by assumption. rewrite Hn, Z.eqb_refl.
  reflexivity.
Qed.

Lemma node_data_eq (h : heap F) d o key nd :
  dict_get d (KInt key) = Some (DNode nd) ->
  node_data key (mkState h d o) = (OK nd, mkState h d o).
Proof.
  intros E. unfold node_data, bind, get. cbn [st_data]. rewrite E.
  reflexivity.
Qed.

Lemma on_heap_deref_eq (h : heap F) d o l m :
  nth_error h l = Some m ->
  on_heap (deref l) (mkState h d o) = (OK m, mkState h d o).
Proof.
  intros E. unfold on_heap, deref. cbn [st_heap]. rewrite E. reflexivity.
Qed.

Lemma _convert_linear_to_conv_eq (h : heap F) d o lin node l nd C H W :
  nth_error h lin = Some (LLinear l) ->
  dict_get d (KInt node) = Some (DNode nd) ->
  NodeData.input_shape nd = Some (C, H, W) ->
  Linear.in_features l = C * H * W ->
  0 <= C -> 0 <= H -> 0 <= W -> wf_linear l ->
  _convert_linear_to_conv lin node (mkState h d o)
  = (OK (List.length h, (C, H, W)),
     mkState (h ++ [LConv2d (converted l C H W)]) d
       (mk true (spk_node_id o) (conv_layer o) (spk_layer o)
          (pool_layer o))).
Proof.
  intros Hlin Hnode Hshape Hin HC HH HW (Hwshape & Hwlen & Hout).
  unfold _convert_linear_to_conv.
  step reflexivity.
  step ltac:(apply node_data_eq, Hnode).
  unfold lift at 1. rewrite Hshape.
  step reflexivity.
  step ltac:(apply on_heap_deref_eq, Hlin).
  rewrite Hin, Z.eqb_refl. cbn [negb].
  assert (Hdims : Forall (fun d => 0 <= d) [Linear.out_features l; C; H; W]).
  { repeat constructor; assumption. }
  unfold nn_Conv2d. cbn [fst snd].
  rewrite (forallb_nonneg Hdims).
  assert (Hre : reshape (Linear.weight l) [Linear.out_features l; C; H; W]
                = OK (mkTensor [Linear.out_features l; C; H; W]
                        (data (Linear.weight l)))).
  { apply reshape_eq; [assumption |].
    rewrite Hwlen, Hin. unfold numel. cbn [fold_right]. ring. }
  step reflexivity.
  step reflexivity.
  unfold converted.
  destruct (Linear.bias l) as [b |] eqn:Hb.
  - step ltac:(unfold on_heap; cbn [st_heap];
               erewrite assign_bias_data_newest_eq; reflexivity).
    rewrite Hre.
    step reflexivity.
    step ltac:(unfold on_heap; cbn [st_heap];
               erewrite assign_weight_data_newest_eq; reflexivity).
    reflexivity.
  - step reflexivity.
    rewrite Hre.
    step reflexivity.
    step ltac:(unfold on_heap; cbn [st_heap];
               erewrite assign_weight_data_newest_eq; reflexivity).
    reflexivity.
Qed.

End LinearToConv.

(** The weight of the convolution that a linear layer is converted to is
    the reshape of the linear weight, and reshaping it back gives the
    linear weight. *)
Lemma converted_weight {F} {arith : Arith F} (l : Linear.t F) (C H W : Z) :
  Linear.in_features l = C * H * W ->
  0 <= C -> 0 <= H -> 0 <= W -> wf_linear l ->
  reshape (Linear.weight l) [Linear.out_features l; C; H; W]
  = OK (Conv2d.weight (converted l C H W))
  /\ reshape (Conv2d.weight (converted l C H W))
       [Linear.out_features l; Linear.in_features l]
     = OK (Linear.weight l)
  /\ forall o c y x,
       tensor_get (Conv2d.weight (converted l C H W)) [o; c; y; x]
       = tensor_get (Linear.weight l) [o; c * H * W + y * W + x].
Proof.
  intros Hin HC HH HW (Hwshape & Hwlen & Hout).
  cbn [converted Conv2d.weight]. split; [| split].
  - apply reshape_eq.
    + repeat constructor; assumption.
    + rewrite Hwlen, Hin. unfold numel. cbn [fold_right]. ring.
  - rewrite <- Hwshape.
    destruct (Linear.weight l) as [wshape wdata]. cbn [shape data] in *.
    apply reshape_eq; cbn [data].
    + rewrite Hwshape. repeat constructor; [assumption |].
      rewrite Hin. apply Z.mul_nonneg_nonneg; [| assumption].
      apply Z.mul_nonneg_nonneg; assumption.
    + rewrite Hwshape, Hwlen. unfold numel. cbn [fold_right]. ring.
  - intros o c y x. unfold tensor_get. cbn [shape data].
    rewrite Hwshape, Hin, ravel_linear_conv. reflexivity.
Qed.

(** ** Folding a batch normalisation into a convolution with bias *)

Section Broadcasting.
Context {A : Type}.
Implicit Types (d : list A) (s tgt : list Z).

Lemma chunks_concat (n k : nat) : forall d,
  List.length d = (n * k)%nat ->
  concat (chunks n k d) = d
  /\ Forall (fun c => List.length c = k) (chunks n k d).
Proof.
  induction n as [| n IH]; intros d Hlen; cbn [chunks concat].
  - destruct d; [auto | discriminate].
  - destruct (IH (skipn k d)) as [Hc Hf].
    { rewrite length_skipn. lia. }
    split.
    + rewrite Hc. apply firstn_skipn.
    + constructor; [| exact Hf]. rewrite length_firstn. lia.
Qed.

Lemma chunks_singletons : forall d,
  chunks (List.length d) 1 d = map (fun x => [x]) d.
Proof.
  induction d as [| x d IH]; cbn [chunks List.length map]; [reflexivity |].
  cbn [firstn skipn]. rewrite IH. reflexivity.
Qed.

Lemma numel_nonneg s : Forall (fun x => 0 <= x) s -> 0 <= numel s.
Proof.
  induction 1 as [| a s Ha _ IH]; cbn; [lia |].
  apply Z.mul_nonneg_nonneg; assumption.
Qed.

Lemma map_id_on (f : list A -> list A) (l : list (list A)) :
  Forall (fun c => f c = c) l -> map f l = l.
Proof.
  induction 1 as [| c l Hc _ IH]; cbn [map]; [reflexivity |].
  rewrite Hc, IH. reflexivity.
Qed.

Lemma expand_to_cons (a b : Z) s tgt d :
  expand_to (a :: s) (b :: tgt) d
  = if a =? b
    then concat (map (expand_to s tgt)
                   (chunks (Z.to_nat a) (Z.to_nat (numel s)) d))
    else concat (repeat
                   (concat (map (expand_to s tgt)
                              (chunks (Z.to_nat a) (Z.to_nat (numel s)) d)))
                   (Z.to_nat b)).
Proof. reflexivity. Qed.

(** A tensor seen at its own shape. *)
Lemma expand_to_same s : forall d,
  Forall (fun x => 0 <= x) s ->
  List.length d = Z.to_nat (numel s) ->
  expand_to s s d = d.
Proof.
  induction s as [| a s IH]; intros d Hnn Hlen; cbn [expand_to];
    [reflexivity |].
  inversion Hnn as [| ? ? Ha Hs]; subst.
  rewrite Z.eqb_refl.
  destruct (@chunks_concat (Z.to_nat a) (Z.to_nat (numel s)) d) as [Hc Hf].
  { rewrite Hlen. cbn [numel fold_right]. fold (numel s).
    apply Z2Nat.inj_mul; [assumption | apply numel_nonneg; assumption]. }
  rewrite map_id_on; [exact Hc |].
  eapply Forall_impl; [| exact Hf].
  intros c Hclen. cbv beta in *. apply IH; assumption.
Qed.

Lemma numel_ones (n : nat) : numel (repeat 1 n) = 1.
Proof.
  induction n as [| n IH]; [reflexivity |].
  change (numel (repeat 1 (S n))) with (1 * numel (repeat 1 n)).
  rewrite IH. reflexivity.
Qed.

Lemma concat_repeat_repeat (x : A) (n k : nat) :
  concat (repeat (repeat x n) k) = repeat x (k * n).
Proof.
  induction k as [| k IH]; cbn [repeat concat Nat.mul]; [reflexivity |].
  rewrite IH, repeat_app. reflexivity.
Qed.

(** One element seen at any shape. *)
Lemma expand_to_ones tgt (x : A) :
  Forall (fun b => 0 <= b) tgt ->
  expand_to (repeat 1 (List.length tgt)) tgt [x]
  = repeat x (Z.to_nat (numel tgt)).
Proof.
  induction 1 as [| b tgt Hb Htgt IH]; cbn [List.length repeat expand_to];
    [reflexivity |].
  rewrite numel_ones. change (Z.to_nat 1) with 1%nat.
  cbn [chunks firstn map].
  rewrite IH. cbn [concat]. rewrite app_nil_r.
  cbn [numel fold_right]. fold (numel tgt).
  pose proof (numel_nonneg Htgt) as Hn.
  destruct (Z.eqb_spec 1 b) as [<- | Hne].
  - rewrite Z.mul_1_l. reflexivity.
  - rewrite concat_repeat_repeat, Z2Nat.inj_mul by assumption. reflexivity.
Qed.

End Broadcasting.

Section Folding.
Context {F : Type} {arith : Arith F}.
Implicit Types (h : heap F) (d : list F).

Lemma zip_with_length {A B C} (f : A -> B -> C) (n : nat) : forall l1 l2,
  List.length l1 = n -> List.length l2 = n ->
  List.length (zip_with f l1 l2) = n.
Proof.
  induction n as [| n IH]; intros [| a l1] [| b l2] H1 H2;
    try discriminate; cbn [zip_with List.length]; [reflexivity |].
  f_equal. apply IH; cbn in *; lia.
Qed.

Lemma broadcast_dims_same (s : list Z) : broadcast_dims s s = Some s.
Proof.
  induction s as [| a s IH]; cbn [broadcast_dims]; [reflexivity |].
  rewrite IH, Z.eqb_refl. reflexivity.
Qed.

Lemma broadcast_dims_ones (s : list Z) :
  broadcast_dims s (repeat 1 (List.length s)) = Some s.
Proof.
  induction s as [| a s IH]; cbn [broadcast_dims repeat List.length];
    [reflexivity |].
  rewrite IH. destruct (a =? 1); reflexivity.
Qed.

(** Two vectors of the same length. *)
Lemma tensor_binop_vectors (op : F -> F -> F) (n : Z) d1 d2 :
  0 <= n ->
  List.length d1 = Z.to_nat n -> List.length d2 = Z.to_nat n ->
  tensor_binop op (mkTensor [n] d1) (mkTensor [n] d2)
  = OK (mkTensor [n] (zip_with op d1 d2)).
Proof.
  intros Hn H1 H2. unfold tensor_binop. cbn [shape data List.length Nat.max].
  unfold pad_rank. cbn [List.length Nat.sub repeat app].
  rewrite broadcast_dims_same.
  assert (Hnumel : Z.to_nat (numel [n]) = Z.to_nat n).
  { cbn. rewrite Z.mul_1_r. reflexivity. }
  rewrite (@expand_to_same F [n] d1), (@expand_to_same F [n] d2);
    try (repeat constructor; assumption); try congruence.
Qed.

(** A weight of shape (O, I, KH, KW) and a factor of shape (O, 1, 1, 1). *)
Lemma tensor_binop_channels (op : F -> F -> F) (O I KH KW : Z) wd fd :
  0 <= O -> 0 <= I -> 0 <= KH -> 0 <= KW ->
  List.length wd = Z.to_nat (O * (I * (KH * KW))) ->
  List.length fd = Z.to_nat O ->
  tensor_binop op (mkTensor [O; I; KH; KW] wd) (mkTensor [O; 1; 1; 1] fd)
  = OK (mkTensor [O; I; KH; KW]
          (zip_with op wd
             (flat_map (fun f => repeat f (Z.to_nat (I * (KH * KW)))) fd))).
Proof.
  intros HO HI HKH HKW Hwd Hfd. unfold tensor_binop.
  cbn [shape data List.length Nat.max].
  unfold pad_rank. cbn [List.length Nat.sub repeat app].
  cbn [broadcast_dims].
  pose proof (broadcast_dims_ones [I; KH; KW]) as Hb.
  cbn [List.length repeat] in Hb. cbn [broadcast_dims] in Hb.
  rewrite Hb, Z.eqb_refl.
  rewrite expand_to_same;
    [| repeat constructor; assumption
     | rewrite Hwd; cbn; rewrite Z.mul_1_r; reflexivity].
  rewrite expand_to_cons, Z.eqb_refl.
  change (Z.to_nat (numel [1; 1; 1])) with 1%nat.
  rewrite <- Hfd, chunks_singletons, map_map.
  rewrite flat_map_concat_map.
  do 3 f_equal. f_equal. apply map_ext. intros x.
  pose proof (@expand_to_ones F [I; KH; KW] x) as He.
  cbn [List.length repeat] in He.
  rewrite He by (repeat constructor; assumption).
  cbn [numel fold_right]. rewrite Z.mul_1_r. reflexivity.
Qed.

End Folding.

Section FoldingWithBias.
Context {F : Type} {arith : Arith F}.
Implicit Types (h : heap F).

(** For a convolution with bias and a batch normalisation over its output
    channels, [merge_conv_bn] returns a new convolution whose weight and
    bias are the folded ones. *)
Lemma merge_conv_bn_folds h conv bn (c : Conv2d.t F) (b : BatchNorm2d.t F)
  (O I KH KW : Z) (wd bd mu var gamma beta : list F) :
  nth_error h conv = Some (LConv2d c) ->
  nth_error h bn = Some (LBatchNorm2d b) ->
  Conv2d.weight c = mkTensor [O; I; KH; KW] wd ->
  Conv2d.bias c = Some (mkTensor [O] bd) ->
  BatchNorm2d.running_mean b = Some (mkTensor [O] mu) ->
  BatchNorm2d.running_var b = Some (mkTensor [O] var) ->
  (BatchNorm2d.affine b = true ->
   BatchNorm2d.weight b = Some (mkTensor [O] gamma)
   /\ BatchNorm2d.bias b = Some (mkTensor [O] beta)
   /\ List.length gamma = Z.to_nat O /\ List.length beta = Z.to_nat O) ->
  0 <= O -> 0 <= I -> 0 <= KH -> 0 <= KW ->
  List.length wd = Z.to_nat (O * (I * (KH * KW))) ->
  List.length bd = Z.to_nat O ->
  List.length mu = Z.to_nat O ->
  List.length var = Z.to_nat O ->
  let factor := bn_factor (BatchNorm2d.affine b) gamma var in
  merge_conv_bn conv bn h
  = (OK (List.length h),
     h ++ [LConv2d
             (Conv2d.mk (Conv2d.in_channels c) (Conv2d.out_channels c)
                (Conv2d.kernel_size c) (Conv2d.stride c) (Conv2d.padding c)
                (Conv2d.dilation c)
                (mkTensor [O; I; KH; KW]
                   (folded_weight (Z.to_nat (I * (KH * KW))) wd factor))
                (Some (mkTensor [O]
                         (folded_bias (BatchNorm2d.affine b) beta bd mu
                            factor))))]).
Proof.
  intros Hconv Hbn Hw Hb Hmean Hvar Haff HO HI HKH HKW Lwd Lbd Lmu Lvar factor.
  assert (Lroot : List.length (map fsqrt var) = Z.to_nat O)
    by (rewrite length_map; exact Lvar).
  assert (Lfactor : List.length factor = Z.to_nat O).
  { unfold factor, bn_factor. destruct (BatchNorm2d.affine b).
    - destruct (Haff eq_refl) as (_ & _ & Lg & _).
      apply zip_with_length; assumption.
    - rewrite length_map. exact Lroot. }
  assert (Hfactor :
    binop fdiv
      (if BatchNorm2d.affine b then value_of_option (BatchNorm2d.weight b)
       else VFloat (of_int 1))
      (VTensor (mkTensor [O] (map fsqrt var)))
    = OK (VTensor (mkTensor [O] factor))).
  { unfold factor, bn_factor. destruct (BatchNorm2d.affine b).
    - destruct (Haff eq_refl) as (-> & _ & Lg & _).
      cbn [value_of_option binop].
      rewrite tensor_binop_vectors by assumption. reflexivity.
    - reflexivity. }
  assert (Hbias :
    forall scaled, List.length scaled = Z.to_nat O ->
    binop fadd
      (if BatchNorm2d.affine b then value_of_option (BatchNorm2d.bias b)
       else VFloat (of_int 0))
      (VTensor (mkTensor [O] scaled))
    = OK (VTensor (mkTensor [O]
            (if BatchNorm2d.affine b then zip_with fadd beta scaled
             else map (fadd (of_int 0)) scaled)))).
  { intros scaled Ls. destruct (BatchNorm2d.affine b).
    - destruct (Haff eq_refl) as (_ & -> & _ & Lbeta).
      cbn [value_of_option binop].
      rewrite tensor_binop_vectors by assumption. reflexivity.
    - reflexivity. }
  unfold merge_conv_bn.
  step ltac:(apply deref_eq; exact Hbn).
  step reflexivity.
  rewrite Hmean, Hvar. cbn [value_of_option].
  assert (Hsplit : forall A (k : value -> value -> A),
    (let '(gamma0, beta0) :=
       if BatchNorm2d.affine b
       then (value_of_option (BatchNorm2d.weight b),
             value_of_option (BatchNorm2d.bias b))
       else (VFloat (of_int 1), VFloat (of_int 0)) in
     k gamma0 beta0)
    = k (if BatchNorm2d.affine b then value_of_option (BatchNorm2d.weight b)
         else VFloat (of_int 1))
        (if BatchNorm2d.affine b then value_of_option (BatchNorm2d.bias b)
         else VFloat (of_int 0))).
  { intros A k. destruct (BatchNorm2d.affine b); reflexivity. }
  rewrite Hsplit. clear Hsplit.
  step reflexivity.
  unfold map_tensor. cbn [shape data].
  step ltac:(unfold lift; rewrite Hfactor; reflexivity).
  step ltac:(apply deref_eq; exact Hconv).
  step ltac:(unfold lift; cbn [get_weight_data get_weight rbind];
             reflexivity).
  step reflexivity.
  cbn [get_bias]. rewrite Hb, Hw.
  step ltac:(unfold deepcopy; rewrite (bind_eq (deref_eq _ _ Hconv));
             reflexivity).
  step reflexivity.
  step ltac:(unfold lift; cbn [binop];
             rewrite tensor_binop_channels by assumption; reflexivity).
  step ltac:(eapply assign_weight_data_newest_eq; reflexivity).
  step ltac:(unfold lift; cbn [binop];
             rewrite tensor_binop_vectors by assumption; reflexivity).
  step ltac:(unfold lift; cbn [binop];
             rewrite tensor_binop_vectors
               by (try apply zip_with_length; assumption);
             reflexivity).
  step ltac:(unfold lift; rewrite Hbias
               by (repeat apply zip_with_length; assumption);
             reflexivity).
  step ltac:(eapply assign_bias_data_newest_eq;
             [cbn [get_bias Conv2d.bias]; rewrite Hb; reflexivity
             | cbn [set_bias_data Conv2d.bias]; rewrite Hb; reflexivity]).
  unfold folded_weight, folded_bias.
  cbn [Conv2d.in_channels Conv2d.out_channels Conv2d.kernel_size
       Conv2d.stride Conv2d.padding Conv2d.dilation Conv2d.weight
       Conv2d.bias].
  reflexivity.
Qed.

End FoldingWithBias.

(** ** The constructor of [DynapcnnLayer], step by step *)

Section InitSteps.
Context {F : Type} {arith : Arith F} {discretizer : Discretizer F}.
Import DynapcnnLayer.
Implicit Types (s : state F) (h : heap F) (lv : locals).













Lemma nth_error_second_newest h (a b : Layer F) :
  nth_error (h ++ [a; b]) (List.length h) = Some a
  /\ nth_error (h ++ [a; b]) (S (List.length h)) = Some b.
Proof.
  split.
  - replace (List.length h) with (List.length h + 0)%nat by lia.
    rewrite nth_error_new. reflexivity.
  - replace (S (List.length h)) with (List.length h + 1)%nat by lia.
    rewrite nth_error_new. reflexivity.
Qed.

Lemma list_update_second_newest h (a b x : Layer F) :
  list_update (h ++ [a; b]) (List.length h) x = h ++ [x; b]
  /\ list_update (h ++ [a; b]) (S (List.length h)) x = h ++ [a; x].
Proof.
  split.
  - replace (List.length h) with (List.length h + 0)%nat by lia.
    rewrite list_update_new. reflexivity.
  - replace (S (List.length h)) with (List.length h + 1)%nat by lia.
    rewrite list_update_new. reflexivity.
Qed.




End InitSteps.

(** ** Non-square pooling kernels *)

Section SquareKernels.
Context {F : Type} {arith : Arith F} {discretizer : Discretizer F}.
Import DynapcnnLayer.
Implicit Types (s : state F) (h : heap F).

Lemma pooling_nodes_spec h d p :
  In p (pooling_nodes h d) -> exists q, nth_error h p = Some (LSumPool2d q).
Proof.
  unfold pooling_nodes. intros Hin. apply in_flat_map in Hin.
  destruct Hin as ([[key | name] [n |]] & _ & Hin); try contradiction.
  destruct (nth_error h (NodeData.layer n)) as [[] |] eqn:E;
    try contradiction.
  destruct Hin as [<- | []]. eauto.
Qed.

Lemma on_heap_deepcopy_eq h d o l m :
  nth_error h l = Some m ->
  on_heap (deepcopy l) (mkState h d o)
  = (OK (List.length h), mkState (h ++ [m]) d o).
Proof.
  intros E. unfold on_heap, deepcopy, bind, deref, alloc.
  cbn [st_heap st_data self]. rewrite E. reflexivity.
Qed.



(** Among sum pooling layers whose kernels are pairs, a non-square one
    makes the loop raise the error for non-square kernels; the
    convolution and the spiking layer assigned before are kept. *)
Lemma consolidate_pool_rejects pools : forall h d o,
  Forall (fun p => exists q a b,
            nth_error h p = Some (LSumPool2d q)
            /\ SumPool2d.kernel_size q = PPair a b) pools ->
  Exists (fun p => exists q a b,
            nth_error h p = Some (LSumPool2d q)
            /\ SumPool2d.kernel_size q = PPair a b /\ a <> b) pools ->
  exists s2 ext,
    consolidate_pool pools (mkState h d o)
    = (Raise (ValueError msg_square), s2)
    /\ st_heap s2 = h ++ ext
    /\ conv_layer (self s2) = conv_layer o
    /\ spk_layer (self s2) = spk_layer o.
Proof.
  induction pools as [| p pools IH]; intros h d o Hall Hex;
    [inversion Hex |].
  inversion Hall as [| ? ? (q & a & b & Hp & Hk) Hall']; subst.
  cbn [consolidate_pool].
  step ltac:(apply on_heap_deref_eq; exact Hp).
  rewrite Hk. cbn [subscript].
  step reflexivity. step reflexivity.
  destruct (Z.eqb_spec a b) as [-> | Hne]; cbn [negb].
  - step ltac:(apply on_heap_deepcopy_eq; exact Hp).
    step reflexivity.
    destruct (IH (h ++ [LSumPool2d q]) d
                (mk (lin_to_conv_conversion o) (spk_node_id o)
                   (conv_layer o) (spk_layer o)
                   (Some match pool_layer o with
                         | Some l => l ++ [List.length h]
                         | None => [List.length h]
                         end)))
      as (s2 & ext & E & Hh & Hc & Hs).
    + eapply Forall_impl; [| exact Hall'].
      intros p' (q' & a' & b' & Hp' & Hk').
      exists q', a', b'. split; [apply nth_error_old; exact Hp' | exact Hk'].
    + inversion Hex as [? ? (q' & a' & b' & Hp' & Hk' & Hne') | ? ? Hex'];
        subst.
      * rewrite Hp in Hp'. inversion Hp'; subst q'.
        rewrite Hk in Hk'. inversion Hk'; subst. contradiction.
      * eapply Exists_impl; [| exact Hex'].
        intros p' (q' & a' & b' & Hp' & Hk').
        exists q', a', b'. split; [apply nth_error_old; exact Hp' | exact Hk'].
    + exists s2, ([LSumPool2d q] ++ ext). rewrite app_assoc.
      cbn [conv_layer spk_layer] in Hc, Hs. auto.
  - exists (mkState h d o), []. rewrite app_nil_r. auto.
Qed.

End SquareKernels.

(** ** Validation of the configuration *)

Lemma rbind_ok {A B} (r : result A) (k : A -> result B) b :
  rbind r k = OK b -> exists a, r = OK a /\ k a = OK b.
Proof. destruct r as [a | e]; cbn; [eauto | discriminate]. Qed.

Section MakeConfig.
Import DynapcnnNetworkGraph.
Context {Cfg : Type}.
Variable ChipFactory : string -> result (ConfigBuilder Cfg).

(** The flag returned by [_make_config] is the verdict of the validator
    of the device on the configuration returned with it. *)
Lemma _make_config_validates self chip_layers_ordering device monitor
  config_modifier config valid :
  _make_config ChipFactory self chip_layers_ordering device monitor
    config_modifier = OK (config, valid) ->
  exists config_builder,
    ChipFactory device = OK config_builder
    /\ validate_configuration config_builder config = OK valid.
Proof.
  unfold _make_config. intros E.
  apply rbind_ok in E. destruct E as (config_builder & Hb & E).
  exists config_builder. split; [exact Hb |].
  apply rbind_ok in E. destruct E as (first & _ & E).
  apply rbind_ok in E. destruct E as (cores & _ & E).
  apply rbind_ok in E. destruct E as (config0 & _ & E).
  apply rbind_ok in E. destruct E as (config1 & _ & E).
  apply rbind_ok in E. destruct E as (config2 & _ & E).
  apply rbind_ok in E. destruct E as (config3 & _ & E).
  apply rbind_ok in E. destruct E as (v & Hv & E).
  inversion E; subst. exact Hv.
Qed.

End MakeConfig.

(** C8. [make_config] returns a configuration only when the validator of
    the device has accepted this very configuration; when the validator
    reports it invalid, [make_config] raises a [ValueError] that names the
    device; and when the assembly itself fails, [make_config] fails too.
    No configuration is returned that has not passed the validation. *)
Theorem make_config_only_validated {Cfg}
  (ChipFactory : string -> result (DynapcnnNetworkGraph.ConfigBuilder Cfg))
  (self : DynapcnnNetworkGraph.t)
  (chip_layers_ordering : DynapcnnNetworkGraph.ordering) (device : string)
  (monitor : DynapcnnNetworkGraph.monitor_spec)
  (config_modifier : option (Cfg -> result Cfg)) :
  (forall config,
     DynapcnnNetworkGraph.make_config ChipFactory self chip_layers_ordering
       device monitor config_modifier = OK config ->
     exists config_builder,
       ChipFactory device = OK config_builder
       /\ DynapcnnNetworkGraph.validate_configuration config_builder config
          = OK true)
  /\ (forall config,
        DynapcnnNetworkGraph._make_config ChipFactory self
          chip_layers_ordering device monitor config_modifier
        = OK (config, false) ->
        DynapcnnNetworkGraph.make_config ChipFactory self
          chip_layers_ordering device monitor config_modifier
        = Raise (ValueError
                   (append "Generated config is not valid for " device)))
  /\ (forall e,
        DynapcnnNetworkGraph._make_config ChipFactory self
          chip_layers_ordering device monitor config_modifier = Raise e ->
        DynapcnnNetworkGraph.make_config ChipFactory self
          chip_layers_ordering device monitor config_modifier = Raise e).
Proof.
  unfold DynapcnnNetworkGraph.make_config.
  destruct (DynapcnnNetworkGraph._make_config ChipFactory self
              chip_layers_ordering device monitor config_modifier)
    as [[config valid] | e] eqn:E; cbn [rbind].
  - split; [| split].
    + intros config' Hok. destruct valid; [| discriminate Hok].
      inversion Hok; subst config'.
      exact (_make_config_validates _ _ _ _ _ _ E).
    + intros config' Hc. inversion Hc; subst. reflexivity.
    + intros e He. discriminate He.
  - split; [| split].
    + intros config Hok. discriminate Hok.
    + intros config Hc. discriminate Hc.
    + intros e' He. inversion He; subst. reflexivity.
Qed.

(** On the toy device the default monitoring of the sink is valid and the
    configuration is returned; monitoring all the layers is not valid and
    the error names the device. *)
Lemma make_config_only_validated_witness :
  (exists config,
     DynapcnnNetworkGraph.make_config Examples.toy_factory Examples.two_layers
       DynapcnnNetworkGraph.Auto "toy:0" DynapcnnNetworkGraph.MonNone None
     = OK config
     /\ DynapcnnNetworkGraph.validate_configuration Examples.toy_builder
          config = OK true)
  /\ DynapcnnNetworkGraph.make_config Examples.toy_factory Examples.two_layers
       DynapcnnNetworkGraph.Auto "toy:0" (DynapcnnNetworkGraph.MonStr "all")
       None
     = Raise (ValueError "Generated config is not valid for toy:0").
Proof.
  split.
  - destruct (@make_config_only_validated _ Examples.toy_factory
                Examples.two_layers DynapcnnNetworkGraph.Auto "toy:0"
                DynapcnnNetworkGraph.MonNone None) as (Hok & _).
    destruct (Hok [DynapcnnNetworkGraph.Core (Some 1)] eq_refl)
      as (config_builder & Hb & Hv).
    exists [DynapcnnNetworkGraph.Core (Some 1)].
    split; [reflexivity |].
    inversion Hb; subst config_builder. exact Hv.
  - destruct (@make_config_only_validated _ Examples.toy_factory
                Examples.two_layers DynapcnnNetworkGraph.Auto "toy:0"
                (DynapcnnNetworkGraph.MonStr "all") None) as (_ & Hbad & _).
    apply (Hbad [DynapcnnNetworkGraph.Core (Some 0);
                 DynapcnnNetworkGraph.Core (Some 1)]).
    reflexivity.
Defined.

(** ** Further properties of the consolidation of pooling layers *)

Section MorePooling.
Context {F : Type}.
Implicit Types (l lyr : Layer F) (layers chain pre rest post : list (Layer F)).

(** The accumulation subscripts the kernel size: it does not return on
    [None]. *)
Lemma accumulate_pooling_kernel k s vars vars' :
  accumulate_pooling k s vars = OK vars' -> k <> PNone.
Proof.
  unfold accumulate_pooling. intros E Hk. subst k.
  cbn [expand_to_pair subscript rbind] in E.
  destruct (negb _); discriminate E.
Qed.

(** When the loop returns, every layer of the chain has passed the
    checks. *)
Lemma pooling_loop_returns layers : forall i vars vars',
  pooling_loop i layers vars = OK vars' ->
  Forall passes_checks (pooling_chain layers).
Proof.
  induction layers as [| l layers IH]; intros i vars vars' E;
    cbn [pooling_chain]; [constructor |].
  destruct (is_pooling l) eqn:Hl; [| constructor].
  destruct l; try discriminate Hl; cbn [pooling_loop] in E.
  - destruct (pyval_eqb_spec (AvgPool2d.padding p) (PInt 0)) as [Hpad | ];
      [| discriminate].
    cbn [negb] in E.
    destruct (accumulate_pooling _ _ _) as [v |] eqn:Hacc; [| discriminate].
    constructor; [| exact (IH _ _ _ E)].
    split; [reflexivity | split; [| split]].
    + eapply accumulate_pooling_kernel; exact Hacc.
    + exact (accumulate_pooling_ok _ _ _ Hacc).
    + intros q Hq. cbn in Hq. congruence.
  - destruct (accumulate_pooling _ _ _) as [v |] eqn:Hacc; [| discriminate].
    constructor; [| exact (IH _ _ _ E)].
    split; [reflexivity | split; [| split]].
    + eapply accumulate_pooling_kernel; exact Hacc.
    + exact (accumulate_pooling_ok _ _ _ Hacc).
    + intros q Hq. discriminate Hq.
Qed.

Lemma construct_next_pooling_layer_returns layers res :
  construct_next_pooling_layer layers = OK res ->
  Forall passes_checks (pooling_chain layers).
Proof.
  unfold construct_next_pooling_layer. intros E.
  destruct (pooling_loop 0 layers _) as [v |] eqn:Hloop; [| discriminate].
  exact (pooling_loop_returns _ _ _ Hloop).
Qed.

Lemma returned_kernel_consolidated chain :
  returned_kernel (consolidated_pool chain) = cumulative_kernel chain.
Proof.
  unfold consolidated_pool.
  destruct (cumulative_kernel chain) as [kh kw].
  destruct (Z.eqb_spec kh 1), (Z.eqb_spec kw 1); cbn; subst; reflexivity.
Qed.

Lemma product_app (l1 l2 : list Z) :
  product (l1 ++ l2) = product l1 * product l2.
Proof.
  unfold product. induction l1 as [| x l1 IH]; cbn [app fold_right].
  - destruct (fold_right Z.mul 1 l2); reflexivity.
  - rewrite IH. apply Z.mul_assoc.
Qed.

Lemma cumulative_kernel_app (a b : list (Layer F)) :
  cumulative_kernel (a ++ b)
  = (fst (cumulative_kernel a) * fst (cumulative_kernel b),
     snd (cumulative_kernel a) * snd (cumulative_kernel b)).
Proof.
  unfold cumulative_kernel. cbn [fst snd].
  rewrite !map_app, !product_app. reflexivity.
Qed.

Lemma pooling_chain_app (a b : list (Layer F)) :
  Forall (fun l => is_pooling l = true) a ->
  pooling_chain (a ++ b) = a ++ pooling_chain b.
Proof.
  induction 1 as [| l a Hl _ IH]; cbn [app pooling_chain]; [reflexivity |].
  rewrite Hl, IH. reflexivity.
Qed.

Lemma pooling_chain_stops chain l rest :
  Forall (fun l => is_pooling l = true) chain ->
  is_pooling l = false ->
  pooling_chain (chain ++ l :: rest) = chain.
Proof.
  intros Hall Hl. rewrite pooling_chain_app by assumption.
  cbn [pooling_chain]. rewrite Hl. apply app_nil_r.
Qed.

(** The loop entered at index [i] on a non-empty list ends [i] further
    than the loop entered at index 0. *)
Lemma index_after_loop_shift layers : forall i dflt,
  layers <> [] ->
  index_after_loop i layers dflt = (i + index_after_loop 0 layers 0)%nat.
Proof.
  induction layers as [| l layers IH]; intros i dflt Hne; [congruence |].
  cbn [index_after_loop]. destruct (is_pooling l); [| lia].
  destruct layers as [| l' layers']; [cbn; lia |].
  rewrite (IH (S i) i), (IH 1%nat 0%nat) by discriminate. lia.
Qed.

Lemma index_after_loop_app (a : list (Layer F)) : forall b i dflt,
  Forall (fun l => is_pooling l = true) a ->
  index_after_loop i (a ++ b) dflt
  = match b with
    | [] => index_after_loop i a dflt
    | _ => (i + List.length a + index_after_loop 0 b 0)%nat
    end.
Proof.
  induction a as [| l a IH]; intros b i dflt Hall; cbn [app].
  - destruct b as [| l' b']; [reflexivity |].
    rewrite index_after_loop_shift by discriminate. cbn [List.length]. lia.
  - inversion Hall as [| ? ? Hl Hrest]; subst.
    cbn [index_after_loop]. rewrite Hl, IH by assumption.
    destruct b; cbn [List.length]; [reflexivity | lia].
Qed.

Lemma passes_checks_pooling chain :
  Forall passes_checks chain -> Forall (fun l => is_pooling l = true) chain.
Proof.
  intros H. eapply Forall_impl; [| exact H]. intros l (Hl & _). exact Hl.
Qed.

Lemma expand_to_pair_idempotent (v : pyval) :
  expand_to_pair (expand_to_pair v) = expand_to_pair v.
Proof. destruct v; reflexivity. Qed.

Lemma pooling_loop_pair_sizes layers : forall i vars,
  pooling_loop i (map (@with_pair_sizes F) layers) vars
  = pooling_loop i layers vars.
Proof.
  induction layers as [| l layers IH]; intros i vars; [reflexivity |].
  cbn [map]. destruct l; cbn [with_pair_sizes pooling_loop];
    try reflexivity.
  - cbn [AvgPool2d.padding AvgPool2d.kernel_size AvgPool2d.stride].
    destruct (negb _); [reflexivity |].
    unfold accumulate_pooling. rewrite !expand_to_pair_idempotent.
    destruct (negb _); [reflexivity |].
    destruct (subscript _ 0); [| reflexivity].
    destruct (subscript _ 1); [| reflexivity].
    cbn [rbind]. apply IH.
  - cbn [SumPool2d.kernel_size SumPool2d.stride].
    unfold accumulate_pooling. rewrite !expand_to_pair_idempotent.
    destruct (negb _); [reflexivity |].
    destruct (subscript _ 0); [| reflexivity].
    destruct (subscript _ 1); [| reflexivity].
    cbn [rbind]. apply IH.
Qed.

End MorePooling.

(** X1. When the chain of pooling layers at the head of [layers] is
    followed by a layer that is no pooling layer,
    [construct_next_pooling_layer] returns as next index the index of that
    layer, which is the length of the chain, and nothing after that layer
    has any influence: the kernel and the rescale factor are those of the
    chain.  (When the chain runs to the end of the list, the index is that
    of the last pooling layer instead.) *)
Theorem pooling_stops_at_first_other_layer {F}
  (chain rest : list (Layer F)) (l : Layer F) :
  Forall passes_checks chain ->
  is_pooling l = false ->
  construct_next_pooling_layer (chain ++ l :: rest)
  = OK (consolidated_pool chain, List.length chain, cumulative_rescale chain).
Proof.
  intros Hall Hl.
  pose proof (passes_checks_pooling Hall) as Hpool.
  rewrite construct_next_pooling_layer_passes
    by (rewrite pooling_chain_stops; assumption).
  rewrite pooling_chain_stops by assumption.
  rewrite index_after_loop_app by assumption.
  cbn [index_after_loop]. rewrite Hl.
  repeat f_equal. lia.
Qed.

(** Two average poolings followed by a convolution and more layers. *)
Lemma pooling_stops_at_first_other_layer_witness :
  construct_next_pooling_layer
    [Examples.avg_2x2; Examples.avg_2; Examples.conv_a; Examples.spk;
     Examples.avg_padded]
  = OK (Some (SumPool2d.new (PPair 4 4)), 2%nat, 16).
Proof.
  apply (@pooling_stops_at_first_other_layer Z
           [Examples.avg_2x2; Examples.avg_2]
           [Examples.spk; Examples.avg_padded] Examples.conv_a).
  - repeat constructor; try discriminate; intros p H; inversion H;
      reflexivity.
  - reflexivity.
Defined.

(** X2. Whenever [construct_next_pooling_layer] returns, the rescale
    factor is the area of the kernel of the pooling layer it returns:
    kernel (kh, kw), other than (1, 1), and factor kh * kw; when it returns
    no pooling layer the factor is 1.  The factor never differs from the
    kernel area. *)
Theorem rescale_factor_is_kernel_area {F} (layers : list (Layer F))
  (pool : option SumPool2d.t) (idx : nat) (r : Z) :
  construct_next_pooling_layer layers = OK (pool, idx, r) ->
  match pool with
  | Some p =>
      exists kh kw,
        SumPool2d.kernel_size p = PPair kh kw
        /\ (kh, kw) <> (1, 1) /\ r = kh * kw
  | None => r = 1
  end.
Proof.
  intros E.
  pose proof (construct_next_pooling_layer_returns _ E) as Hall.
  rewrite (construct_next_pooling_layer_passes _ Hall) in E.
  inversion E as [[Hpool Hidx Hr]]. clear E Hidx.
  rewrite cumulative_rescale_kernel. unfold consolidated_pool.
  destruct (cumulative_kernel (pooling_chain layers)) as [kh kw].
  cbn [fst snd].
  destruct (Z.eqb_spec kh 1) as [-> | Hkh];
    [destruct (Z.eqb_spec kw 1) as [-> | Hkw] |]; cbn [andb].
  - reflexivity.
  - exists 1, kw. repeat split. congruence.
  - exists kh, kw. repeat split. congruence.
Qed.

(** Pooling (2, 3) twice: kernel (4, 9), factor 36. *)
Lemma rescale_factor_is_kernel_area_witness :
  exists kh kw,
    SumPool2d.kernel_size (SumPool2d.new (PPair 4 9)) = PPair kh kw
    /\ (kh, kw) <> (1, 1) /\ 36 = kh * kw.
Proof.
  exact (@rescale_factor_is_kernel_area Z
           [Examples.avg_2x3; Examples.sum_2x3; Examples.spk]
           (Some (SumPool2d.new (PPair 4 9))) 2%nat 36 eq_refl).
Defined.

(** X3. Kernel size and stride of a pooling layer may be given as an
    integer or as a pair: writing them as pairs ([expand_to_pair]) in every
    layer changes nothing in what [construct_next_pooling_layer] returns or
    raises.  The padding is compared with the integer 0 as it is: an
    average pooling whose padding is the pair (0, 0) is rejected. *)
Theorem pooling_sizes_as_int_or_pair {F} (layers : list (Layer F))
  (kernel_size stride : pyval) :
  construct_next_pooling_layer (map (@with_pair_sizes F) layers)
  = construct_next_pooling_layer layers
  /\ construct_next_pooling_layer
       (LAvgPool2d (AvgPool2d.mk kernel_size stride (PPair 0 0)) :: layers)
     = Raise (ValueError msg_padding).
Proof.
  split.
  - unfold construct_next_pooling_layer.
    rewrite pooling_loop_pair_sizes. reflexivity.
  - reflexivity.
Qed.

(** X4. Consolidating a list of pooling layers followed by further layers
    composes: when the pooling layers [a] consolidate to the factor [ra]
    and the layers [b] to the factor [rb], the list [a ++ b] consolidates
    to the factor [ra * rb], with as kernel the elementwise product of the
    two kernels (no pooling layer counting as the kernel (1, 1)); the next
    index is the one found in [b], moved by the length of [a]. *)
Theorem pooling_concatenation_multiplies {F} (a b : list (Layer F))
  (pa pb : option SumPool2d.t) (ia ib : nat) (ra rb : Z) :
  Forall (fun l => is_pooling l = true) a ->
  construct_next_pooling_layer a = OK (pa, ia, ra) ->
  construct_next_pooling_layer b = OK (pb, ib, rb) ->
  exists p,
    construct_next_pooling_layer (a ++ b)
    = OK (p, match b with [] => ia | _ => (List.length a + ib)%nat end,
          ra * rb)
    /\ returned_kernel p
       = (fst (returned_kernel pa) * fst (returned_kernel pb),
          snd (returned_kernel pa) * snd (returned_kernel pb)).
Proof.
  intros Hpool Ea Eb.
  pose proof (construct_next_pooling_layer_returns _ Ea) as Ha.
  pose proof (construct_next_pooling_layer_returns _ Eb) as Hb.
  rewrite (construct_next_pooling_layer_passes _ Ha) in Ea.
  rewrite (construct_next_pooling_layer_passes _ Hb) in Eb.
  inversion Ea as [[Hpa Hia Hra]]. inversion Eb as [[Hpb Hib Hrb]].
  clear Ea Eb.
  assert (Hchain : pooling_chain a = a).
  { rewrite <- (app_nil_r a) at 1. rewrite pooling_chain_app by assumption.
    apply app_nil_r. }
  rewrite Hchain in *.
  assert (Hab : Forall passes_checks (pooling_chain (a ++ b))).
  { rewrite pooling_chain_app by assumption. apply Forall_app. auto. }
  exists (consolidated_pool (pooling_chain (a ++ b))).
  rewrite (construct_next_pooling_layer_passes _ Hab).
  rewrite !returned_kernel_consolidated.
  rewrite pooling_chain_app by assumption.
  rewrite cumulative_kernel_app, index_after_loop_app by assumption.
  split; [| reflexivity].
  assert (Hr : cumulative_rescale (a ++ pooling_chain b)
               = cumulative_rescale a * cumulative_rescale (pooling_chain b)).
  { rewrite !cumulative_rescale_kernel, cumulative_kernel_app.
    cbn [fst snd]. ring. }
  rewrite Hr. subst pa pb ia ib ra rb. destruct b; reflexivity.
Qed.

(** Pooling 2 then (2, 3), and pooling (2, 3) before a convolution. *)
Lemma pooling_concatenation_multiplies_witness :
  exists p,
    construct_next_pooling_layer
      ([Examples.avg_2; Examples.avg_2x3]
       ++ [Examples.sum_2x3; Examples.conv_a])
    = OK (p, 3%nat, 24 * 6)
    /\ returned_kernel p = (4 * 2, 6 * 3).
Proof.
  apply (@pooling_concatenation_multiplies Z
           [Examples.avg_2; Examples.avg_2x3]
           [Examples.sum_2x3; Examples.conv_a]
           (Some (SumPool2d.new (PPair 4 6)))
           (Some (SumPool2d.new (PPair 2 3))) 1%nat 1%nat 24 6).
  - repeat constructor.
  - reflexivity.
  - reflexivity.
Defined.

(** ** Edge cases of the output shape of a convolution *)

(** X5. [get_conv_output_shape] checks nothing of its arguments.  A stride
    of 0 in either direction raises [ZeroDivisionError]; the number of
    channels of the input shape is not looked at (nor compared with
    [in_channels]); and an input that is, with its padding, smaller than
    the dilated kernel is not rejected: for a positive stride the height
    returned is then zero or negative. *)
Theorem get_conv_output_shape_checks_nothing {F} (conv : Conv2d.t F)
  (C C' H W : Z) :
  (fst (Conv2d.stride conv) = 0 \/ snd (Conv2d.stride conv) = 0 ->
   get_conv_output_shape conv (C, H, W) = Raise ZeroDivisionError)
  /\ get_conv_output_shape conv (C', H, W)
     = get_conv_output_shape conv (C, H, W)
  /\ (0 < fst (Conv2d.stride conv) ->
      snd (Conv2d.stride conv) <> 0 ->
      H + 2 * fst (Conv2d.padding conv)
      < fst (Conv2d.dilation conv) * (fst (Conv2d.kernel_size conv) - 1) + 1 ->
      exists out_height out_width,
        get_conv_output_shape conv (C, H, W)
        = OK (Conv2d.out_channels conv, out_height, out_width)
        /\ out_height <= 0).
Proof.
  unfold get_conv_output_shape, floordiv. split; [| split].
  - intros [Hs | Hs]; rewrite Hs; cbn [Z.eqb rbind]; [reflexivity |].
    destruct (fst (Conv2d.stride conv) =? 0); reflexivity.
  - reflexivity.
  - intros Hsh Hsw Hsmall.
    destruct (Z.eqb_spec (fst (Conv2d.stride conv)) 0); [lia |].
    destruct (Z.eqb_spec (snd (Conv2d.stride conv)) 0); [contradiction |].
    cbn [rbind]. eexists. eexists. split; [reflexivity |].
    assert ((H + 2 * fst (Conv2d.padding conv)
             - fst (Conv2d.dilation conv)
               * (fst (Conv2d.kernel_size conv) - 1) - 1)
            / fst (Conv2d.stride conv) < 0)
      by (apply Z.div_lt_upper_bound; lia).
    lia.
Qed.

(** A kernel of 3 on an input of height 2: the height returned is 0; and
    the same convolution with stride 0. *)
Lemma get_conv_output_shape_checks_nothing_witness :
  (exists out_height out_width,
     get_conv_output_shape Examples.conv_k3 (3, 2, 32)
     = OK (8, out_height, out_width)
     /\ out_height <= 0)
  /\ get_conv_output_shape
       (Conv2d.mk 3 8 (3, 3) (0, 1) (0, 0) (1, 1) (mkTensor [8; 3; 3; 3] [])
          (@None (Tensor Z)))
       (3, 32, 32)
     = Raise ZeroDivisionError.
Proof.
  split.
  - destruct (@get_conv_output_shape_checks_nothing Z Examples.conv_k3
                3 3 2 32) as (_ & _ & Hsmall).
    apply Hsmall; cbn; lia.
  - destruct (@get_conv_output_shape_checks_nothing Z
                (Conv2d.mk 3 8 (3, 3) (0, 1) (0, 0) (1, 1)
                   (mkTensor [8; 3; 3; 3] []) None) 3 3 32 32)
      as (Hzero & _).
    apply Hzero. left. reflexivity.
Defined.

(** ** Further properties of [merge_conv_bn] *)

Section Elementwise.
Context {A B C : Type}.

Lemma nth_zip_with (f : A -> B -> C) : forall l1 l2 o d d1 d2,
  (o < List.length l1)%nat -> (o < List.length l2)%nat ->
  nth o (zip_with f l1 l2) d = f (nth o l1 d1) (nth o l2 d2).
Proof.
  induction l1 as [| a l1 IH]; intros l2 o d d1 d2 H1 H2;
    [cbn in H1; lia |].
  destruct l2 as [| b l2]; [cbn in H2; lia |].
  destruct o as [| o]; cbn [zip_with nth]; [reflexivity |].
  apply IH; cbn in H1, H2; lia.
Qed.

Lemma nth_map_in (f : A -> B) (l : list A) o d d1 :
  (o < List.length l)%nat -> nth o (map f l) d = f (nth o l d1).
Proof.
  intros Ho. rewrite (nth_indep _ d (f d1)) by (rewrite length_map; lia).
  apply map_nth.
Qed.

Lemma nth_repeated (K : nat) : forall (l : list A) o j d d1,
  (o < List.length l)%nat -> (j < K)%nat ->
  nth (o * K + j) (flat_map (fun x => repeat x K) l) d = nth o l d1.
Proof.
  induction l as [| x l IH]; intros o j d d1 Ho Hj; [cbn in Ho; lia |].
  cbn [flat_map]. destruct o as [| o].
  - cbn [Nat.mul Nat.add nth]. rewrite app_nth1 by (rewrite repeat_length; lia).
    apply nth_repeat_lt. exact Hj.
  - rewrite app_nth2 by (rewrite repeat_length; lia).
    rewrite repeat_length.
    replace (S o * K + j - K)%nat with (o * K + j)%nat by lia.
    cbn [nth]. apply IH; [cbn in Ho; lia | exact Hj].
Qed.

End Elementwise.

Section MoreMerge.
Context {F : Type} {arith : Arith F}.
Implicit Types (h : heap F).

Lemma folded_bias_at (affine : bool) beta bd mu factor (n o : nat) :
  (affine = true -> List.length beta = n) ->
  List.length bd = n -> List.length mu = n -> List.length factor = n ->
  (o < n)%nat ->
  at_index (folded_bias affine beta bd mu factor) o
  = fadd (if affine then at_index beta o else of_int 0)
      (fmul (fsub (at_index bd o) (at_index mu o)) (at_index factor o)).
Proof.
  intros Lbeta Lbd Lmu Lf Ho. unfold folded_bias, at_index.
  assert (L1 : List.length (zip_with fsub bd mu) = n)
    by (apply zip_with_length; assumption).
  assert (L2 : List.length (zip_with fmul (zip_with fsub bd mu) factor) = n)
    by (apply zip_with_length; assumption).
  destruct affine.
  - rewrite (nth_zip_with fadd beta _ _ (of_int 0) (of_int 0))
      by (rewrite ?Lbeta by reflexivity; lia).
    rewrite (nth_zip_with fmul _ factor _ (of_int 0) (of_int 0)) by lia.
    rewrite (nth_zip_with fsub bd mu _ (of_int 0) (of_int 0)) by lia.
    reflexivity.
  - rewrite (nth_map_in _ _ _ (of_int 0)) by lia.
    rewrite (nth_zip_with fmul _ factor _ (of_int 0) (of_int 0)) by lia.
    rewrite (nth_zip_with fsub bd mu _ (of_int 0) (of_int 0)) by lia.
    reflexivity.
Qed.

Lemma bn_factor_at (affine : bool) gamma var (n o : nat) :
  (affine = true -> List.length gamma = n) ->
  List.length var = n -> (o < n)%nat ->
  at_index (bn_factor affine gamma var) o = channel_factor affine gamma var o.
Proof.
  intros Lg Lv Ho. unfold bn_factor, channel_factor, at_index.
  destruct affine.
  - rewrite (nth_zip_with fdiv gamma _ _ (of_int 0) (fsqrt (of_int 0)))
      by (rewrite ?length_map, ?Lg by reflexivity; lia).
    rewrite map_nth. reflexivity.
  - rewrite (nth_map_in _ _ _ (fsqrt (of_int 0))) by (rewrite length_map; lia).
    rewrite map_nth. reflexivity.
Qed.

Lemma bn_factor_length (affine : bool) gamma var (n : nat) :
  (affine = true -> List.length gamma = n) ->
  List.length var = n ->
  List.length (bn_factor affine gamma var) = n.
Proof.
  intros Lg Lv. unfold bn_factor. destruct affine.
  - apply zip_with_length; [auto | rewrite length_map; exact Lv].
  - rewrite !length_map. exact Lv.
Qed.

Lemma folded_weight_at (K : nat) wd factor (n o j : nat) :
  List.length wd = (n * K)%nat -> List.length factor = n ->
  (o < n)%nat -> (j < K)%nat ->
  at_index (folded_weight K wd factor) (o * K + j)
  = fmul (at_index wd (o * K + j)) (at_index factor o).
Proof.
  intros Lw Lf Ho Hj. unfold folded_weight, at_index.
  assert (Hidx : (o * K + j < n * K)%nat) by nia.
  rewrite (nth_zip_with fmul wd _ _ (of_int 0) (of_int 0)).
  - rewrite nth_repeated with (d1 := of_int 0) by lia.
    reflexivity.
  - lia.
  - replace (List.length (flat_map (fun f => repeat f K) factor))
      with (List.length factor * K)%nat; [lia |].
    clear. induction factor as [| x l IH]; cbn [flat_map List.length];
      [reflexivity |].
    rewrite length_app, repeat_length, <- IH. lia.
Qed.

End MoreMerge.

(** X6. For a convolution that has a bias, with weight of shape
    (O, I, KH, KW), and a batch normalisation over its O output channels,
    [merge_conv_bn] returns a new convolution with the same geometry whose
    parameters are folded channel by channel: in the output channel o, with
    factor = gamma[o] / sqrt(var[o]), every weight is the old weight times
    the factor, and the bias is beta[o] + (old bias[o] - mean[o]) * factor;
    gamma = 1 and beta = 0 when the normalisation is not affine. *)
Theorem merge_conv_bn_folds_each_channel {F} {arith : Arith F}
  (h : heap F) (conv bn : loc) (c : Conv2d.t F) (b : BatchNorm2d.t F)
  (O I KH KW : Z) (wd bd mu var gamma beta : list F) :
  nth_error h conv = Some (LConv2d c) ->
  nth_error h bn = Some (LBatchNorm2d b) ->
  Conv2d.weight c = mkTensor [O; I; KH; KW] wd ->
  Conv2d.bias c = Some (mkTensor [O] bd) ->
  BatchNorm2d.running_mean b = Some (mkTensor [O] mu) ->
  BatchNorm2d.running_var b = Some (mkTensor [O] var) ->
  (BatchNorm2d.affine b = true ->
   BatchNorm2d.weight b = Some (mkTensor [O] gamma)
   /\ BatchNorm2d.bias b = Some (mkTensor [O] beta)
   /\ List.length gamma = Z.to_nat O /\ List.length beta = Z.to_nat O) ->
  0 <= O -> 0 <= I -> 0 <= KH -> 0 <= KW ->
  List.length wd = Z.to_nat (O * (I * (KH * KW))) ->
  List.length bd = Z.to_nat O ->
  List.length mu = Z.to_nat O ->
  List.length var = Z.to_nat O ->
  exists w' b',
    merge_conv_bn conv bn h
    = (OK (List.length h),
       h ++ [LConv2d
               (Conv2d.mk (Conv2d.in_channels c) (Conv2d.out_channels c)
                  (Conv2d.kernel_size c) (Conv2d.stride c)
                  (Conv2d.padding c) (Conv2d.dilation c)
                  (mkTensor [O; I; KH; KW] w') (Some (mkTensor [O] b')))])
    /\ forall o, (o < Z.to_nat O)%nat ->
         let factor := channel_factor (BatchNorm2d.affine b) gamma var o in
         at_index b' o
         = fadd (channel_shift (BatchNorm2d.affine b) beta o)
             (fmul (fsub (at_index bd o) (at_index mu o)) factor)
         /\ forall j, (j < Z.to_nat (I * (KH * KW)))%nat ->
              at_index w' (o * Z.to_nat (I * (KH * KW)) + j)
              = fmul (at_index wd (o * Z.to_nat (I * (KH * KW)) + j)) factor.
Proof.
  intros Hconv Hbn Hw Hb Hmean Hvar Haff HO HI HKH HKW Lwd Lbd Lmu Lvar.
  eexists. eexists. split.
  - eapply merge_conv_bn_folds; eassumption.
  - intros o Ho factor.
    assert (Lg : BatchNorm2d.affine b = true ->
                 List.length gamma = Z.to_nat O)
      by (intros Ha; apply (Haff Ha)).
    assert (Lbeta : BatchNorm2d.affine b = true ->
                    List.length beta = Z.to_nat O)
      by (intros Ha; apply (Haff Ha)).
    pose proof (@bn_factor_length F arith (BatchNorm2d.affine b) gamma var
                  (Z.to_nat O) Lg Lvar) as Lf.
    pose proof (@bn_factor_at F arith (BatchNorm2d.affine b) gamma var
                  (Z.to_nat O) o Lg Lvar Ho) as Hf.
    split.
    + rewrite (@folded_bias_at F arith (BatchNorm2d.affine b) beta bd mu _
                 (Z.to_nat O) o Lbeta Lbd Lmu Lf Ho).
      rewrite Hf. reflexivity.
    + intros j Hj.
      rewrite (@folded_weight_at F arith _ wd _ (Z.to_nat O) o j);
        try assumption.
      * rewrite Hf. reflexivity.
      * rewrite Lwd, Z2Nat.inj_mul; [reflexivity | lia |].
        apply Z.mul_nonneg_nonneg; [lia |].
        apply Z.mul_nonneg_nonneg; lia.
Qed.

(** The convolution with weights 8, 16 and bias 4, 6, and the affine
    normalisation with mean 1, 2, variance 4, 16, gamma 8, 12 and beta
    1, 1: the factors are 8 / 2 and 12 / 4. *)
Lemma merge_conv_bn_folds_each_channel_witness :
  exists w' b' h',
    merge_conv_bn 0%nat 1%nat [Examples.conv_biased; Examples.bn]
    = (OK 2%nat, h')
    /\ nth_error h' 2
       = Some (LConv2d
                 (Conv2d.mk 1 2 (1, 1) (1, 1) (0, 0) (1, 1)
                    (mkTensor [2; 1; 1; 1] w') (Some (mkTensor [2] b'))))
    /\ at_index b' 1 = 1 + (6 - 2) * (12 / 4)
    /\ at_index w' 1 = 16 * (12 / 4).
Proof.
  destruct (@merge_conv_bn_folds_each_channel Z _
              [Examples.conv_biased; Examples.bn] 0%nat 1%nat
              (Examples.conv_1x1 8 16 (Some (mkTensor [2] [4; 6])))
              (BatchNorm2d.mk true (Some (mkTensor [2] [1; 2]))
                 (Some (mkTensor [2] [4; 16])) (Some (mkTensor [2] [8; 12]))
                 (Some (mkTensor [2] [1; 1])))
              2 1 1 1 [8; 16] [4; 6] [1; 2] [4; 16] [8; 12] [1; 1])
    as (w' & b' & Hrun & Hch);
    try reflexivity; try lia.
  { intros _. repeat split; reflexivity. }
  exists w', b'. eexists. split; [exact Hrun |].
  split; [reflexivity |].
  destruct (Hch 1%nat ltac:(cbn; lia)) as [Hb Hw].
  split; [exact Hb | exact (Hw 0%nat ltac:(cbn; lia))].
Defined.

(** X7. Whenever [merge_conv_bn] returns for a convolution, the object it
    returns is a convolution with the channels, kernel size, stride,
    padding and dilation of the one passed in; only the data of the weight
    and of the bias are replaced, and both convolutions have a bias. *)
Theorem merge_conv_bn_keeps_geometry {F} {arith : Arith F}
  (h h' : heap F) (conv bn merged : loc) (c : Conv2d.t F) :
  merge_conv_bn conv bn h = (OK merged, h') ->
  nth_error h conv = Some (LConv2d c) ->
  exists c' old_bias new_bias,
    nth_error h' merged = Some (LConv2d c')
    /\ Conv2d.in_channels c' = Conv2d.in_channels c
    /\ Conv2d.out_channels c' = Conv2d.out_channels c
    /\ Conv2d.kernel_size c' = Conv2d.kernel_size c
    /\ Conv2d.stride c' = Conv2d.stride c
    /\ Conv2d.padding c' = Conv2d.padding c
    /\ Conv2d.dilation c' = Conv2d.dilation c
    /\ Conv2d.bias c = Some old_bias
    /\ Conv2d.bias c' = Some new_bias.
Proof.
  intros E Hc. apply merge_conv_bn_ok in E.
  destruct E as (m0 & w & b & m1 & m' & Hm0 & -> & -> & Hw & Hb).
  rewrite Hc in Hm0. inversion Hm0; subst m0.
  cbn in Hw. inversion Hw; subst m1. cbn in Hb.
  destruct (Conv2d.bias c) as [old |] eqn:Hold; [| discriminate Hb].
  inversion Hb; subst m'.
  eexists. exists old, b. split; [apply nth_error_newest |].
  cbn. repeat split; reflexivity.
Qed.

Lemma merge_conv_bn_keeps_geometry_witness :
  exists c' old_bias new_bias h',
    merge_conv_bn 0%nat 1%nat [Examples.conv_biased; Examples.bn]
    = (OK 2%nat, h')
    /\ nth_error h' 2 = Some (LConv2d c')
    /\ Conv2d.kernel_size c' = (1, 1)
    /\ Conv2d.bias (Examples.conv_1x1 8 16 (Some (mkTensor [2] [4; 6])))
       = Some old_bias
    /\ Conv2d.bias c' = Some new_bias.
Proof.
  destruct (merge_conv_bn 0%nat 1%nat [Examples.conv_biased; Examples.bn])
    as [r h'] eqn:E.
  vm_compute in E. inversion E; subst r h'; clear E.
  destruct (@merge_conv_bn_keeps_geometry Z _
              [Examples.conv_biased; Examples.bn] _ 0%nat 1%nat 2%nat
              (Examples.conv_1x1 8 16 (Some (mkTensor [2] [4; 6])))
              ltac:(vm_compute; reflexivity) eq_refl)
    as (c' & old & new & Hm & _ & _ & Hk & _ & _ & _ & Hold & Hnew).
  exists c', old, new. eexists. split; [reflexivity |].
  repeat split; assumption.
Defined.

(** X8. A batch normalisation that keeps no running statistics
    ([running_var] is [None]) cannot be merged: [merge_conv_bn] raises the
    [AttributeError] of [sigmasq.sqrt()], before the convolution is looked
    at or copied; the heap is left as it was. *)
Theorem merge_conv_bn_without_statistics {F} {arith : Arith F}
  (h : heap F) (conv bn : loc) (b : BatchNorm2d.t F) :
  nth_error h bn = Some (LBatchNorm2d b) ->
  BatchNorm2d.running_var b = None ->
  merge_conv_bn conv bn h
  = (Raise (AttributeError "'NoneType' object has no attribute 'sqrt'"), h).
Proof.
  intros Hbn Hvar. unfold merge_conv_bn.
  step ltac:(apply deref_eq; exact Hbn).
  step reflexivity.
  rewrite Hvar. cbn [value_of_option].
  destruct (BatchNorm2d.affine b); reflexivity.
Qed.

Lemma merge_conv_bn_without_statistics_witness :
  merge_conv_bn 0%nat 1%nat
    [Examples.conv_biased;
     LBatchNorm2d (BatchNorm2d.mk false None None None None)]
  = (Raise (AttributeError "'NoneType' object has no attribute 'sqrt'"),
     [Examples.conv_biased;
      LBatchNorm2d (BatchNorm2d.mk false None None None None)]).
Proof.
  apply (@merge_conv_bn_without_statistics Z _
           [Examples.conv_biased;
            LBatchNorm2d (BatchNorm2d.mk false None None None None)]
           0%nat 1%nat (BatchNorm2d.mk false None None None None));
    reflexivity.
Defined.

(** ** The constructor of [DynapcnnLayer], evaluated *)

Lemma dkey_eqb_spec (a b : dkey) : reflect (a = b) (dkey_eqb a b).
Proof.
  destruct a as [x | x], b as [y | y]; cbn; try (constructor; congruence).
  - destruct (Z.eqb_spec x y); constructor; congruence.
  - destruct (String.eqb_spec x y); constructor; congruence.
Qed.

Lemma dict_get_set_same (d : dcnnl_data) k v :
  dict_get (dict_set d k v) k = Some v.
Proof.
  induction d as [| [k' v'] d IH]; cbn [dict_set dict_get].
  - destruct (dkey_eqb_spec k k); [reflexivity | congruence].
  - destruct (dkey_eqb_spec k' k) as [-> | Hne]; cbn [dict_get].
    + destruct (dkey_eqb_spec k k); [reflexivity | congruence].
    + destruct (dkey_eqb_spec k' k); [congruence | exact IH].
Qed.

Lemma dict_get_set_other (d : dcnnl_data) k k' v :
  k' <> k -> dict_get (dict_set d k v) k' = dict_get d k'.
Proof.
  intros Hne. induction d as [| [k0 v0] d IH]; cbn [dict_set dict_get].
  - destruct (dkey_eqb_spec k k'); [congruence | reflexivity].
  - destruct (dkey_eqb_spec k0 k) as [-> | Hk0]; cbn [dict_get].
    + destruct (dkey_eqb_spec k k'); [congruence | reflexivity].
    + destruct (dkey_eqb_spec k0 k'); [reflexivity | exact IH].
Qed.

Lemma last_of_cons {A} (x : A) l dflt :
  last_of (x :: l) dflt = last_of l (Some x).
Proof.
  unfold last_of. cbn [rev]. destruct (rev l); reflexivity.
Qed.

Lemma last_of_snoc {A} (l : list A) x dflt : last_of (l ++ [x]) dflt = Some x.
Proof. unfold last_of. rewrite rev_unit. reflexivity. Qed.

Section InitEvaluated.
Context {F : Type} {arith : Arith F} {discretizer : Discretizer F}.
Import DynapcnnLayer.
Implicit Types (s : state F) (h : heap F) (lv : locals) (o : t).

Lemma set_self_eq h (d : dcnnl_data) o (f : t -> t) :
  set_self f (mkState h d o) = (OK tt, mkState h d (f o)).
Proof. reflexivity. Qed.

(** The first loop on a dictionary whose entries are all accepted: the
    convolution and the spiking layer are those of the last nodes that
    hold one, the pooling layers are collected in order. *)
Lemma scan_items_eq h d items : forall lv o,
  forallb (valid_node h) items = true ->
  exists ids,
    scan_items items lv (mkState h d o)
    = (OK (mkLocals
             (last_of (map snd (conv_nodes h items)) (conv lv))
             (last_of (map fst (conv_nodes h items)) (conv_node_id lv))
             (last_of (map snd (spk_nodes h items)) (spk lv))
             (pool lv ++ pooling_nodes h items) ids),
       mkState h d
         (mk (lin_to_conv_conversion o)
            (last_of (map fst (spk_nodes h items)) (spk_node_id o))
            (conv_layer o) (spk_layer o) (pool_layer o))).
Proof.
  induction items as [| [[key | name] [n |]] items IH]; intros lv o Hvalid;
    cbn [forallb valid_node andb] in Hvalid; try discriminate Hvalid.
  - exists (pool_node_id lv). cbn. rewrite app_nil_r.
    destruct lv, o; reflexivity.
  - apply andb_prop in Hvalid. destruct Hvalid as [Hn Hvalid].
    cbn [scan_items conv_nodes spk_nodes pooling_nodes flat_map].
    destruct (nth_error h (NodeData.layer n)) as [m |] eqn:Hm;
      [| discriminate Hn].
    rewrite (bind_eq (on_heap_deref_eq h d o _ Hm)).
    destruct m; try discriminate Hn; cbn [app map fst snd].
    + destruct (IH (mkLocals (Some (NodeData.layer n)) (Some key) (spk lv)
                      (pool lv) (pool_node_id lv)) o Hvalid) as [ids E].
      exists ids. rewrite E, !last_of_cons. reflexivity.
    + destruct (IH (mkLocals (Some (NodeData.layer n)) (Some key) (spk lv)
                      (pool lv) (pool_node_id lv)) o Hvalid) as [ids E].
      exists ids. rewrite E, !last_of_cons. reflexivity.
    + destruct (IH (mkLocals (conv lv) (conv_node_id lv) (spk lv)
                      (pool lv ++ [NodeData.layer n])
                      (pool_node_id lv ++ [key])) o Hvalid) as [ids E].
      exists ids. rewrite E. cbn [conv conv_node_id spk pool].
      rewrite <- app_assoc. reflexivity.
    + rewrite (bind_eq (set_self_eq h d o _)).
      destruct (IH (mkLocals (conv lv) (conv_node_id lv)
                      (Some (NodeData.layer n)) (pool lv) (pool_node_id lv))
                  (mk (lin_to_conv_conversion o) (Some key) (conv_layer o)
                     (spk_layer o) (pool_layer o)) Hvalid) as [ids E].
      exists ids. rewrite E, !last_of_cons. reflexivity.
  - cbn [scan_items conv_nodes spk_nodes pooling_nodes flat_map app].
    apply IH. exact Hvalid.
  - cbn [scan_items conv_nodes spk_nodes pooling_nodes flat_map app].
    apply IH. exact Hvalid.
Qed.

(** The first loop stops at the first node whose layer is of no accepted
    kind. *)
Lemma scan_items_invalid h d pre key n m post : forall lv o,
  forallb (valid_node h) pre = true ->
  nth_error h (NodeData.layer n) = Some m ->
  not_a_group_layer m ->
  exists o',
    scan_items (pre ++ (KInt key, DNode n) :: post) lv (mkState h d o)
    = (Raise (ValueError
                (append "Node " (append (string_of_Z key)
                   " has not valid layer associated with it."))),
       mkState h d o').
Proof.
  induction pre as [| kv pre IH]; intros lv o Hvalid Hm Hbad.
  - cbn [app scan_items].
    rewrite (bind_eq (on_heap_deref_eq h d o _ Hm)).
    destruct m; try contradiction; eexists; reflexivity.
  - cbn [forallb] in Hvalid. apply andb_prop in Hvalid.
    destruct Hvalid as [Hkv Hvalid].
    destruct kv as [[k | name] [nd |]]; try discriminate Hkv;
      cbn [app scan_items]; try (apply IH; assumption).
    cbn [valid_node] in Hkv.
    destruct (nth_error h (NodeData.layer nd)) as [m' |] eqn:Hm';
      [| discriminate Hkv].
    rewrite (bind_eq (on_heap_deref_eq h d o _ Hm')).
    destruct m'; try discriminate Hkv; apply IH; assumption.
Qed.

Lemma copy_spk_eq h d o spk sp :
  nth_error h spk = Some (LIAFSqueeze sp) ->
  copy_spk spk (mkState h d o)
  = (OK (List.length h), mkState (h ++ [LIAFSqueeze (unsqueezed sp)]) d o).
Proof.
  intros Hspk. unfold copy_spk.
  rewrite (bind_eq (on_heap_deepcopy_eq h d o _ Hspk)).
  rewrite (bind_eq (on_heap_deref_eq _ d o _ (nth_error_newest h _))).
  unfold unsqueezed. destruct sp as [[v |] thr low];
    cbn [IAFSqueeze.v_mem IAFSqueeze.spike_threshold IAFSqueeze.min_v_mem].
  - unfold on_heap at 1, store, modify, bind, ret. cbn [st_heap st_data self].
    rewrite list_update_newest. unfold unsqueeze_last. cbn [shape data].
    rewrite <- app_assoc. reflexivity.
  - reflexivity.
Qed.

Lemma copy_conv_eq h d o conv node c :
  nth_error h conv = Some (LConv2d c) ->
  copy_conv conv node (mkState h d o)
  = (OK (List.length h), mkState (h ++ [LConv2d c]) d o).
Proof.
  intros Hconv. unfold copy_conv.
  rewrite (bind_eq (on_heap_deref_eq h d o _ Hconv)).
  apply on_heap_deepcopy_eq. exact Hconv.
Qed.

Lemma rescale_conv_eq h d o c rescale_weights :
  rescale_conv (List.length h) rescale_weights
    (mkState (h ++ [LConv2d c]) d o)
  = (OK tt, mkState (h ++ [LConv2d (rescaled rescale_weights c)]) d o).
Proof.
  unfold rescale_conv, rescaled.
  destruct (rescale_weights =? 1); cbn [negb]; [reflexivity |].
  rewrite (bind_eq (on_heap_deref_eq _ d o _ (nth_error_newest h _))).
  step reflexivity. step reflexivity.
  unfold on_heap. cbn [st_heap st_data self].
  erewrite assign_weight_data_newest_eq; reflexivity.
Qed.

Lemma discretize_layers_eq h d o (sp sf : IAFSqueeze.t F)
  (c cf : Conv2d.t F) (discretize : bool) :
  (if discretize then discretize_conv_spike_ c sp = OK (cf, sf)
   else (cf, sf) = (c, sp)) ->
  discretize_layers discretize (S (List.length h)) (List.length h)
    (mkState (h ++ [LIAFSqueeze sp; LConv2d c]) d o)
  = (OK tt, mkState (h ++ [LIAFSqueeze sf; LConv2d cf]) d o).
Proof.
  unfold discretize_layers. destruct discretize; intros Hd.
  - destruct (nth_error_second_newest h (LIAFSqueeze sp) (LConv2d c))
      as [Hspk Hconv].
    rewrite (bind_eq (on_heap_deref_eq _ d o _ Hconv)).
    rewrite (bind_eq (on_heap_deref_eq _ d o _ Hspk)).
    unfold lift at 1. rewrite Hd.
    step reflexivity.
    unfold on_heap, store, modify, bind. cbn [st_heap st_data self].
    rewrite (proj2 (list_update_second_newest h _ _ _)).
    rewrite (proj1 (list_update_second_newest h _ _ _)).
    reflexivity.
  - inversion Hd; subst. reflexivity.
Qed.

Lemma layers_at_old h ext (ls : list loc) :
  Forall (fun l => (l < List.length h)%nat) ls ->
  layers_at (h ++ ext) ls = layers_at h ls.
Proof.
  induction 1 as [| l ls Hl _ IH]; cbn [layers_at flat_map]; [reflexivity |].
  fold (layers_at (h ++ ext) ls). fold (layers_at h ls). rewrite IH.
  rewrite nth_error_app1 by exact Hl. reflexivity.
Qed.

Lemma pooling_nodes_in_heap h (items : dcnnl_data) :
  Forall (fun l => (l < List.length h)%nat) (pooling_nodes h items).
Proof.
  apply Forall_forall. intros p Hp.
  destruct (pooling_nodes_spec _ _ _ Hp) as [q Hq].
  apply nth_error_Some. congruence.
Qed.

Lemma layers_at_length h (ls : list loc) :
  Forall (fun l => (l < List.length h)%nat) ls ->
  List.length (layers_at h ls) = List.length ls.
Proof.
  induction 1 as [| l ls Hl _ IH]; cbn [layers_at flat_map]; [reflexivity |].
  fold (layers_at h ls). apply nth_error_Some in Hl.
  destruct (nth_error h l); [| congruence].
  cbn [app List.length]. rewrite IH. reflexivity.
Qed.

(** The loop over pooling layers with square kernels: each is copied,
    in order. *)
Lemma consolidate_pool_eq pools : forall h d o acc,
  Forall (fun l => (l < List.length h)%nat) pools ->
  Forall (@square_pooling F) (layers_at h pools) ->
  pool_layer o = Some acc ->
  consolidate_pool pools (mkState h d o)
  = (OK tt,
     mkState (h ++ layers_at h pools) d
       (mk (lin_to_conv_conversion o) (spk_node_id o) (conv_layer o)
          (spk_layer o)
          (Some (acc ++ seq (List.length h) (List.length pools))))).
Proof.
  induction pools as [| p pools IH]; intros h d o acc Hin Hsq Hacc.
  - cbn [consolidate_pool layers_at flat_map seq List.length].
    rewrite !app_nil_r, <- Hacc. destruct o; reflexivity.
  - inversion Hin as [| ? ? Hp Hin']; subst.
    cbn [layers_at flat_map] in *. fold (layers_at h pools) in *.
    apply nth_error_Some in Hp.
    destruct (nth_error h p) as [m |] eqn:Hm; [| congruence].
    cbn [app] in Hsq. inversion Hsq as [| ? ? (q & k & -> & Hk) Hsq']; subst.
    cbn [consolidate_pool].
    rewrite (bind_eq (on_heap_deref_eq h d o _ Hm)).
    rewrite Hk. cbn [subscript].
    step reflexivity. step reflexivity.
    rewrite Z.eqb_refl. cbn [negb].
    rewrite (bind_eq (on_heap_deepcopy_eq h d o _ Hm)).
    rewrite (bind_eq (set_self_eq _ d o _)).
    rewrite Hacc.
    rewrite (IH (h ++ [LSumPool2d q]) d _ (acc ++ [List.length h])).
    + rewrite layers_at_old by exact Hin'.
      cbn [lin_to_conv_conversion spk_node_id conv_layer spk_layer].
      rewrite <- !app_assoc, length_app. cbn [List.length app seq].
      rewrite Nat.add_1_r. reflexivity.
    + eapply Forall_impl; [| exact Hin'].
      intros l Hl. cbv beta in Hl. rewrite length_app. cbn [List.length].
      lia.
    + rewrite layers_at_old by exact Hin'. exact Hsq'.
    + reflexivity.
Qed.

(** Lines 55-117, given what the copy or the conversion of the convolution
    does. *)
Lemma build_conv_spk_from h d d' o (discretize : bool) rescale_weights cs kc
  lc ss ks ls (c cf : Conv2d.t F) (sp sf : IAFSqueeze.t F) (lin : bool) :
  forallb (valid_node h) d = true ->
  conv_nodes h d = cs ++ [(kc, lc)] ->
  spk_nodes h d = ss ++ [(ks, ls)] ->
  nth_error h ls = Some (LIAFSqueeze sp) ->
  copy_conv lc kc
    (mkState (h ++ [LIAFSqueeze (unsqueezed sp)]) d
       (mk false (Some ks) (conv_layer o) (spk_layer o) (pool_layer o)))
  = (OK (S (List.length h)),
     mkState ((h ++ [LIAFSqueeze (unsqueezed sp)]) ++ [LConv2d c]) d'
       (mk lin (Some ks) (conv_layer o) (spk_layer o) (pool_layer o))) ->
  (if discretize
   then discretize_conv_spike_ (rescaled rescale_weights c) (unsqueezed sp)
        = OK (cf, sf)
   else (cf, sf) = (rescaled rescale_weights c, unsqueezed sp)) ->
  build_conv_spk discretize rescale_weights (mkState h d o)
  = (OK (pooling_nodes h d),
     mkState (h ++ [LIAFSqueeze sf; LConv2d cf]) d'
       (mk lin (Some ks) (Some (S (List.length h)))
          (Some (List.length h)) (Some []))).
Proof.
  intros Hvalid Hcs Hss Hsp Hcopy Hd. unfold build_conv_spk.
  rewrite (bind_eq (set_self_eq h d o _)).
  rewrite (bind_eq (set_self_eq h d _ _)).
  step reflexivity.
  cbn [st_data self lin_to_conv_conversion spk_node_id conv_layer spk_layer
       pool_layer].
  destruct (@scan_items_eq h d d (mkLocals None None None [] [])
              (mk false None (conv_layer o) (spk_layer o) (pool_layer o))
              Hvalid) as [ids Hscan].
  rewrite (bind_eq Hscan).
  rewrite Hcs, Hss, !map_app. cbn [map fst snd]. rewrite !last_of_snoc.
  cbn [conv conv_node_id spk pool app lin_to_conv_conversion conv_layer
       spk_layer pool_layer].
  step ltac:(apply copy_spk_eq; exact Hsp).
  rewrite (bind_eq Hcopy).
  assert (Hresc :
    rescale_conv (S (List.length h)) rescale_weights
      (mkState ((h ++ [LIAFSqueeze (unsqueezed sp)]) ++ [LConv2d c]) d'
         (mk lin (Some ks) (conv_layer o) (spk_layer o) (pool_layer o)))
    = (OK tt,
       mkState (h ++ [LIAFSqueeze (unsqueezed sp);
                      LConv2d (rescaled rescale_weights c)]) d'
         (mk lin (Some ks) (conv_layer o) (spk_layer o) (pool_layer o)))).
  { replace (S (List.length h))
      with (List.length (h ++ [LIAFSqueeze (unsqueezed sp)]))
      by (rewrite length_app; cbn; lia).
    rewrite rescale_conv_eq, <- app_assoc. reflexivity. }
  rewrite (bind_eq Hresc).
  step ltac:(apply discretize_layers_eq; exact Hd).
  reflexivity.
Qed.

Lemma length_two_more h (a b : Layer F) :
  List.length (h ++ [a; b]) = (List.length h + 2)%nat.
Proof. rewrite length_app. reflexivity. Qed.

(** The constructor, given what the copy or the conversion of the
    convolution does. *)
Lemma init_from h d d' o (discretize : bool) rescale_weights cs kc lc ss ks
  ls (c cf : Conv2d.t F) (sp sf : IAFSqueeze.t F) (lin : bool) :
  forallb (valid_node h) d = true ->
  conv_nodes h d = cs ++ [(kc, lc)] ->
  spk_nodes h d = ss ++ [(ks, ls)] ->
  nth_error h ls = Some (LIAFSqueeze sp) ->
  Forall (@square_pooling F) (layers_at h (pooling_nodes h d)) ->
  copy_conv lc kc
    (mkState (h ++ [LIAFSqueeze (unsqueezed sp)]) d
       (mk false (Some ks) (conv_layer o) (spk_layer o) (pool_layer o)))
  = (OK (S (List.length h)),
     mkState ((h ++ [LIAFSqueeze (unsqueezed sp)]) ++ [LConv2d c]) d'
       (mk lin (Some ks) (conv_layer o) (spk_layer o) (pool_layer o))) ->
  (if discretize
   then discretize_conv_spike_ (rescaled rescale_weights c) (unsqueezed sp)
        = OK (cf, sf)
   else (cf, sf) = (rescaled rescale_weights c, unsqueezed sp)) ->
  __init__ discretize rescale_weights (mkState h d o)
  = (OK tt,
     mkState
       (h ++ [LIAFSqueeze sf; LConv2d cf]
          ++ layers_at h (pooling_nodes h d)) d'
       (mk lin (Some ks) (Some (S (List.length h))) (Some (List.length h))
          (Some (seq (List.length h + 2)
                   (List.length (pooling_nodes h d)))))).
Proof.
  intros Hvalid Hcs Hss Hsp Hsq Hcopy Hd. unfold __init__.
  step ltac:(eapply build_conv_spk_from; eassumption).
  pose proof (pooling_nodes_in_heap h d) as Hin.
  rewrite (@consolidate_pool_eq (pooling_nodes h d)
             (h ++ [LIAFSqueeze sf; LConv2d cf]) d' _ []).
  - rewrite layers_at_old by exact Hin.
    rewrite length_two_more, <- app_assoc. reflexivity.
  - eapply Forall_impl; [| exact Hin].
    intros l Hl. cbv beta in Hl. rewrite length_two_more. lia.
  - rewrite layers_at_old by exact Hin. exact Hsq.
  - reflexivity.
Qed.

Lemma _update_conv_node_output_shape_eq h d o cl node (c : Conv2d.t F) nd
  shp out :
  nth_error h cl = Some (LConv2d c) ->
  get_conv_output_shape c shp = OK out ->
  dict_get d (KInt node) = Some (DNode nd) ->
  _update_conv_node_output_shape cl node shp (mkState h d o)
  = (OK out,
     mkState h
       (dict_set d (KInt node)
          (DNode (NodeData.mk (NodeData.layer nd) (NodeData.input_shape nd)
                    (Some out)))) o).
Proof.
  intros Hcl Hout Hnd. unfold _update_conv_node_output_shape.
  rewrite (bind_eq (on_heap_deref_eq h d o _ Hcl)).
  unfold lift at 1. rewrite Hout.
  step reflexivity.
  step ltac:(apply node_data_eq; exact Hnd).
  step reflexivity.
  reflexivity.
Qed.

Lemma _update_neuron_node_output_shape_eq h d o node nd shp :
  dict_get d (KInt node) = Some (DNode nd) ->
  _update_neuron_node_output_shape node shp (mkState h d o)
  = (OK tt,
     mkState h
       (dict_set d (KInt node)
          (DNode (NodeData.mk (NodeData.layer nd) (Some shp) (Some shp)))) o).
Proof.
  intros Hnd. unfold _update_neuron_node_output_shape.
  step ltac:(apply node_data_eq; exact Hnd).
  reflexivity.
Qed.

(** The conversion of the linear layer of a group, with the update of
    the shapes of its node and of the node of the spiking layer. *)
Lemma copy_conv_linear_eq h d o lin kc (l : Linear.t F) ndc C H W ks nds :
  nth_error h lin = Some (LLinear l) ->
  dict_get d (KInt kc) = Some (DNode ndc) ->
  NodeData.input_shape ndc = Some (C, H, W) ->
  Linear.in_features l = C * H * W ->
  0 <= C -> 0 <= H -> 0 <= W -> wf_linear l ->
  spk_node_id o = Some ks ->
  dict_get d (KInt ks) = Some (DNode nds) ->
  exists lyr,
    copy_conv lin kc (mkState h d o)
    = (OK (List.length h),
       mkState (h ++ [LConv2d (converted l C H W)])
         (dict_set
            (dict_set d (KInt kc)
               (DNode (NodeData.mk (NodeData.layer ndc) (Some (C, H, W))
                         (Some (Linear.out_features l, 1, 1)))))
            (KInt ks)
            (DNode (NodeData.mk lyr (Some (Linear.out_features l, 1, 1))
                      (Some (Linear.out_features l, 1, 1)))))
         (mk true (Some ks) (conv_layer o) (spk_layer o) (pool_layer o))).
Proof.
  intros Hlin Hkc Hshape Hin HC HH HW Hwf Hid Hks.
  set (out := (Linear.out_features l, 1, 1)).
  set (d1 := dict_set d (KInt kc)
               (DNode (NodeData.mk (NodeData.layer ndc) (Some (C, H, W))
                         (Some out)))).
  assert (Hks1 : exists n1, dict_get d1 (KInt ks) = Some (DNode n1)).
  { unfold d1. destruct (Z.eq_dec ks kc) as [-> | Hne].
    - rewrite dict_get_set_same. eauto.
    - rewrite dict_get_set_other by congruence. eauto. }
  destruct Hks1 as [n1 Hn1]. exists (NodeData.layer n1).
  assert (Hout : get_conv_output_shape (converted l C H W) (C, H, W)
                 = OK out).
  { unfold get_conv_output_shape, converted, floordiv, out.
    cbn [Conv2d.out_channels Conv2d.kernel_size Conv2d.stride
         Conv2d.padding Conv2d.dilation fst snd Z.eqb rbind].
    replace (H + 2 * 0 - 1 * (H - 1) - 1) with 0 by ring.
    replace (W + 2 * 0 - 1 * (W - 1) - 1) with 0 by ring.
    reflexivity. }
  unfold copy_conv.
  rewrite (bind_eq (on_heap_deref_eq h d o _ Hlin)).
  step ltac:(eapply _convert_linear_to_conv_eq; eassumption).
  cbv beta iota.
  step ltac:(eapply _update_conv_node_output_shape_eq;
             [apply nth_error_newest | exact Hout | exact Hkc]).
  rewrite Hshape. fold out. fold d1.
  step reflexivity.
  cbn [self spk_node_id]. rewrite Hid.
  step ltac:(eapply _update_neuron_node_output_shape_eq; exact Hn1).
  reflexivity.
Qed.

End InitEvaluated.

Lemma last_of_nonempty {A} (l : list A) dflt :
  l <> [] -> exists x, last_of l dflt = Some x.
Proof.
  intros Hne. destruct (exists_last Hne) as (l' & x & ->).
  exists x. apply last_of_snoc.
Qed.

(** X9. The constructor on a group whose convolution is a [Conv2d] (the
    last node that holds one), with a spiking layer and sum poolings of
    square kernels, returns; it allocates, in this order, a copy of the
    spiking layer whose initialised state has two more trailing dimensions
    of size 1, a copy of the convolution with its weights divided by
    [rescale_weights], and one copy of each pooling layer in the order of
    the dictionary; with [discretize] the first two are replaced by what
    the discretisation gives for them.  The dictionary is left as it is, no
    conversion is recorded and [get_modified_node_it] returns
    (None, None). *)
Theorem init_builds_conv_group
  {F} {arith : Arith F} {discretizer : Discretizer F}
  (h : heap F) (d : dcnnl_data) (o : DynapcnnLayer.t) (discretize : bool)
  (rescale_weights : Z) (cs ss : list (Z * loc)) (kc ks : Z) (lc ls : loc)
  (c cf : Conv2d.t F) (sp sf : IAFSqueeze.t F) :
  forallb (valid_node h) d = true ->
  conv_nodes h d = cs ++ [(kc, lc)] ->
  nth_error h lc = Some (LConv2d c) ->
  spk_nodes h d = ss ++ [(ks, ls)] ->
  nth_error h ls = Some (LIAFSqueeze sp) ->
  Forall (@square_pooling F) (layers_at h (pooling_nodes h d)) ->
  (if discretize
   then discretize_conv_spike_ (rescaled rescale_weights c) (unsqueezed sp)
        = OK (cf, sf)
   else (cf, sf) = (rescaled rescale_weights c, unsqueezed sp)) ->
  let n := List.length h in
  let L :=
    DynapcnnLayer.mk false (Some ks) (Some (S n)) (Some n)
      (Some (seq (n + 2) (List.length (pooling_nodes h d)))) in
  DynapcnnLayer.__init__ discretize rescale_weights
    (DynapcnnLayer.mkState h d o)
  = (OK tt,
     DynapcnnLayer.mkState
       (h ++ [LIAFSqueeze sf; LConv2d cf]
          ++ layers_at h (pooling_nodes h d)) d L)
  /\ DynapcnnLayer.get_modified_node_it L d = OK (None, None).
Proof.
  intros Hvalid Hcs Hc Hss Hsp Hsq Hd n L. split; [| reflexivity].
  eapply init_from with (c := c) (lin := false); try eassumption.
  erewrite copy_conv_eq by (apply nth_error_old; exact Hc).
  rewrite length_app. cbn [List.length]. rewrite Nat.add_1_r. reflexivity.
Qed.

(** The group conv, spk (state initialised), pooling 2, pooling 2, built
    with the factor 4. *)
Lemma init_builds_conv_group_witness :
  DynapcnnLayer.__init__ false 4
    (DynapcnnLayer.mkState Examples.conv_group_heap Examples.conv_group_data
       DynapcnnLayer.blank)
  = (OK tt,
     DynapcnnLayer.mkState
       (Examples.conv_group_heap
        ++ [LIAFSqueeze (IAFSqueeze.mk (Some (mkTensor [1; 2; 1; 1] [0; 0]))
                           1 None);
            LConv2d (Examples.conv_1x1 2 4 None);
            Examples.sum_2x2; Examples.sum_2x2])
       Examples.conv_group_data
       (DynapcnnLayer.mk false (Some 4) (Some 5%nat) (Some 4%nat)
          (Some [6; 7]%nat))).
Proof.
  apply (@init_builds_conv_group Z _ _ Examples.conv_group_heap
           Examples.conv_group_data DynapcnnLayer.blank false 4
           [] [] 3 4 0%nat 1%nat
           (Examples.conv_1x1 8 16 None) (Examples.conv_1x1 2 4 None)
           (IAFSqueeze.mk (Some (mkTensor [1; 2] [0; 0])) 1 None)
           (IAFSqueeze.mk (Some (mkTensor [1; 2; 1; 1] [0; 0])) 1 None));
    try reflexivity.
  repeat constructor; exists (SumPool2d.mk (PPair 2 2) (PPair 2 2)), 2;
    split; reflexivity.
Defined.

(** X10. The constructor on a group whose convolution node holds a
    [Linear] layer of declared input shape (C, H, W), with
    in_features = C * H * W: it returns, the convolution of the layer
    being the conversion of the linear layer (divided by
    [rescale_weights], discretised on demand), and it rewrites the shapes
    in the dictionary passed in: the output shape of the convolution node
    and both shapes of the spiking node become (out_features, 1, 1), the
    other entries being kept; [get_modified_node_it] then returns the
    spiking node with this shape. *)
Theorem init_converts_linear_group
  {F} {arith : Arith F} {discretizer : Discretizer F}
  (h : heap F) (d : dcnnl_data) (o : DynapcnnLayer.t) (discretize : bool)
  (rescale_weights : Z) (cs ss : list (Z * loc)) (kc ks : Z) (lc ls : loc)
  (l : Linear.t F) (ndc nds : NodeData.t) (C H W : Z)
  (cf : Conv2d.t F) (sp sf : IAFSqueeze.t F) :
  forallb (valid_node h) d = true ->
  conv_nodes h d = cs ++ [(kc, lc)] ->
  nth_error h lc = Some (LLinear l) ->
  spk_nodes h d = ss ++ [(ks, ls)] ->
  nth_error h ls = Some (LIAFSqueeze sp) ->
  Forall (@square_pooling F) (layers_at h (pooling_nodes h d)) ->
  dict_get d (KInt kc) = Some (DNode ndc) ->
  NodeData.input_shape ndc = Some (C, H, W) ->
  dict_get d (KInt ks) = Some (DNode nds) ->
  Linear.in_features l = C * H * W ->
  0 <= C -> 0 <= H -> 0 <= W -> wf_linear l ->
  (if discretize
   then discretize_conv_spike_
          (rescaled rescale_weights (converted l C H W)) (unsqueezed sp)
        = OK (cf, sf)
   else (cf, sf)
        = (rescaled rescale_weights (converted l C H W), unsqueezed sp)) ->
  let out := (Linear.out_features l, 1, 1) in
  exists s',
    DynapcnnLayer.__init__ discretize rescale_weights
      (DynapcnnLayer.mkState h d o)
    = (OK tt, s')
    /\ DynapcnnLayer.st_heap s'
       = h ++ [LIAFSqueeze sf; LConv2d cf]
           ++ layers_at h (pooling_nodes h d)
    /\ DynapcnnLayer.lin_to_conv_conversion (DynapcnnLayer.self s') = true
    /\ (exists n,
          dict_get (DynapcnnLayer.st_data s') (KInt kc) = Some (DNode n)
          /\ NodeData.output_shape n = Some out)
    /\ (exists n,
          dict_get (DynapcnnLayer.st_data s') (KInt ks) = Some (DNode n)
          /\ NodeData.input_shape n = Some out
          /\ NodeData.output_shape n = Some out)
    /\ (forall k, k <> KInt kc -> k <> KInt ks ->
          dict_get (DynapcnnLayer.st_data s') k = dict_get d k)
    /\ DynapcnnLayer.get_modified_node_it (DynapcnnLayer.self s')
         (DynapcnnLayer.st_data s')
       = OK (Some ks, Some out).
Proof.
  intros Hvalid Hcs Hl Hss Hsp Hsq Hkc Hshape Hks Hin HC HH HW Hwf Hd out.
  destruct (@copy_conv_linear_eq F arith
              (h ++ [LIAFSqueeze (unsqueezed sp)]) d
              (DynapcnnLayer.mk false (Some ks) (DynapcnnLayer.conv_layer o)
                 (DynapcnnLayer.spk_layer o) (DynapcnnLayer.pool_layer o))
              lc kc l ndc C H W ks nds)
    as [lyr Hcopy]; try assumption; try reflexivity.
  { apply nth_error_old. exact Hl. }
  rewrite length_app in Hcopy. cbn [List.length] in Hcopy.
  rewrite Nat.add_1_r in Hcopy.
  cbn [DynapcnnLayer.conv_layer DynapcnnLayer.spk_layer
       DynapcnnLayer.pool_layer] in Hcopy.
  eexists. split.
  { eapply init_from with (lin := true); try eassumption. }
  cbn [DynapcnnLayer.st_heap DynapcnnLayer.st_data DynapcnnLayer.self
       DynapcnnLayer.lin_to_conv_conversion].
  split; [reflexivity |]. split; [reflexivity |].
  split; [| split; [| split]].
  - destruct (Z.eq_dec kc ks) as [-> | Hne].
    + eexists. rewrite dict_get_set_same. split; reflexivity.
    + eexists. rewrite dict_get_set_other by congruence.
      rewrite dict_get_set_same. split; reflexivity.
  - eexists. rewrite dict_get_set_same. repeat split; reflexivity.
  - intros k Hk1 Hk2. rewrite !dict_get_set_other by assumption.
    reflexivity.
  - unfold DynapcnnLayer.get_modified_node_it.
    cbn [DynapcnnLayer.lin_to_conv_conversion DynapcnnLayer.spk_node_id].
    rewrite dict_get_set_same. reflexivity.
Qed.

(** [Linear(12, 4)] with declared input shape (3, 2, 2). *)
Lemma init_converts_linear_group_witness :
  exists s',
    DynapcnnLayer.__init__ false 1 Examples.linear_state = (OK tt, s')
    /\ nth_error (DynapcnnLayer.st_heap s') 3
       = Some (LConv2d (converted Examples.linear_12_4 3 2 2))
    /\ DynapcnnLayer.get_modified_node_it (DynapcnnLayer.self s')
         (DynapcnnLayer.st_data s')
       = OK (Some 1, Some (4, 1, 1)).
Proof.
  destruct (@init_converts_linear_group Z _ _
              [LLinear Examples.linear_12_4; Examples.spk]
              (DynapcnnLayer.st_data Examples.linear_state)
              DynapcnnLayer.blank false 1 [] [] 0 1 0%nat 1%nat
              Examples.linear_12_4
              (NodeData.mk 0%nat (Some (3, 2, 2)) (Some (4, 1, 1)))
              (NodeData.mk 1%nat (Some (4, 1, 1)) (Some (4, 1, 1))) 3 2 2
              (converted Examples.linear_12_4 3 2 2)
              (IAFSqueeze.mk None 1 None) (IAFSqueeze.mk None 1 None))
    as (s' & Hrun & Hheap & _ & _ & _ & _ & Hmod);
    try reflexivity; try lia.
  { constructor. }
  { repeat split; first [reflexivity | discriminate]. }
  exists s'. split; [exact Hrun |]. split; [| exact Hmod].
  rewrite Hheap. reflexivity.
Defined.

(** X11. A group that is not complete is rejected before anything is
    copied.  When every entry of the dictionary is a name or a node with a
    layer of an accepted kind: without a node that holds a convolution or
    a linear layer the constructor raises the error for the missing
    convolution (whether or not there is a spiking layer); with one, but
    without a spiking node, the error for the missing spiking layer.  The
    heap and the dictionary are as before. *)
Theorem init_rejects_incomplete_group
  {F} {arith : Arith F} {discretizer : Discretizer F}
  (h : heap F) (d : dcnnl_data) (o : DynapcnnLayer.t) (discretize : bool)
  (rescale_weights : Z) :
  forallb (valid_node h) d = true ->
  (conv_nodes h d = [] ->
   exists o',
     DynapcnnLayer.__init__ discretize rescale_weights
       (DynapcnnLayer.mkState h d o)
     = (Raise (ValueError msg_no_conv), DynapcnnLayer.mkState h d o'))
  /\ (conv_nodes h d <> [] -> spk_nodes h d = [] ->
      exists o',
        DynapcnnLayer.__init__ discretize rescale_weights
          (DynapcnnLayer.mkState h d o)
        = (Raise (ValueError msg_no_spk), DynapcnnLayer.mkState h d o')).
Proof.
  intros Hvalid.
  destruct (@scan_items_eq F h d d (DynapcnnLayer.mkLocals None None None [] [])
              (DynapcnnLayer.mk false None (DynapcnnLayer.conv_layer o)
                 (DynapcnnLayer.spk_layer o) (DynapcnnLayer.pool_layer o))
              Hvalid) as [ids Hscan].
  split.
  - intros Hnone. eexists.
    unfold DynapcnnLayer.__init__, DynapcnnLayer.build_conv_spk.
    unfold bind at 1.
    rewrite (bind_eq (set_self_eq h d o _)).
    rewrite (bind_eq (set_self_eq h d _ _)).
    step reflexivity.
    cbn [DynapcnnLayer.st_data DynapcnnLayer.self
         DynapcnnLayer.lin_to_conv_conversion DynapcnnLayer.spk_node_id
         DynapcnnLayer.conv_layer DynapcnnLayer.spk_layer
         DynapcnnLayer.pool_layer].
    rewrite (bind_eq Hscan), Hnone. reflexivity.
  - intros Hsome Hnone.
    destruct (last_of_nonempty None (l:=map snd (conv_nodes h d)))
      as [lc Hlc].
    { destruct (conv_nodes h d); [congruence | discriminate]. }
    destruct (last_of_nonempty None (l:=map fst (conv_nodes h d)))
      as [kc Hkc].
    { destruct (conv_nodes h d); [congruence | discriminate]. }
    eexists.
    unfold DynapcnnLayer.__init__, DynapcnnLayer.build_conv_spk.
    unfold bind at 1.
    rewrite (bind_eq (set_self_eq h d o _)).
    rewrite (bind_eq (set_self_eq h d _ _)).
    step reflexivity.
    cbn [DynapcnnLayer.st_data DynapcnnLayer.self
         DynapcnnLayer.lin_to_conv_conversion DynapcnnLayer.spk_node_id
         DynapcnnLayer.conv_layer DynapcnnLayer.spk_layer
         DynapcnnLayer.pool_layer].
    rewrite (bind_eq Hscan), Hnone.
    cbn [DynapcnnLayer.conv DynapcnnLayer.conv_node_id DynapcnnLayer.spk].
    rewrite Hlc, Hkc. reflexivity.
Qed.

(** A group of a spiking layer and a pooling; and a group of a
    convolution and a pooling. *)
Lemma init_rejects_incomplete_group_witness :
  (exists o',
     DynapcnnLayer.__init__ false 1
       (DynapcnnLayer.mkState [Examples.spk; Examples.sum_2x2]
          [(KInt 0, DNode (NodeData.mk 0%nat None None));
           (KInt 1, DNode (NodeData.mk 1%nat None None))]
          DynapcnnLayer.blank)
     = (Raise (ValueError msg_no_conv),
        DynapcnnLayer.mkState [Examples.spk; Examples.sum_2x2]
          [(KInt 0, DNode (NodeData.mk 0%nat None None));
           (KInt 1, DNode (NodeData.mk 1%nat None None))] o'))
  /\ exists o',
       DynapcnnLayer.__init__ false 1
         (DynapcnnLayer.mkState [Examples.conv_a; Examples.sum_2x2]
            [(KInt 0, DNode (NodeData.mk 0%nat None None));
             (KInt 1, DNode (NodeData.mk 1%nat None None))]
            DynapcnnLayer.blank)
       = (Raise (ValueError msg_no_spk),
          DynapcnnLayer.mkState [Examples.conv_a; Examples.sum_2x2]
            [(KInt 0, DNode (NodeData.mk 0%nat None None));
             (KInt 1, DNode (NodeData.mk 1%nat None None))] o').
Proof.
  split.
  - apply (@init_rejects_incomplete_group Z _ _
             [Examples.spk; Examples.sum_2x2]
             [(KInt 0, DNode (NodeData.mk 0%nat None None));
              (KInt 1, DNode (NodeData.mk 1%nat None None))]
             DynapcnnLayer.blank false 1 eq_refl).
    reflexivity.
  - apply (@init_rejects_incomplete_group Z _ _
             [Examples.conv_a; Examples.sum_2x2]
             [(KInt 0, DNode (NodeData.mk 0%nat None None));
              (KInt 1, DNode (NodeData.mk 1%nat None None))]
             DynapcnnLayer.blank false 1 eq_refl).
    + discriminate.
    + reflexivity.
Defined.

(** X12. A node whose layer is of no accepted kind (anything but
    [Conv2d], [Linear], [IAFSqueeze] and [SumPool2d]: an [AvgPool2d] or a
    [BatchNorm2d] for instance) makes the constructor raise the error that
    names the node, as soon as the first loop reaches it, whatever the
    rest of the group; nothing is copied. *)
Theorem init_rejects_invalid_node
  {F} {arith : Arith F} {discretizer : Discretizer F}
  (h : heap F) (pre post : dcnnl_data) (key : Z) (n : NodeData.t)
  (m : Layer F) (o : DynapcnnLayer.t) (discretize : bool)
  (rescale_weights : Z) :
  forallb (valid_node h) pre = true ->
  nth_error h (NodeData.layer n) = Some m ->
  not_a_group_layer m ->
  exists o',
    DynapcnnLayer.__init__ discretize rescale_weights
      (DynapcnnLayer.mkState h (pre ++ (KInt key, DNode n) :: post) o)
    = (Raise (ValueError
                (append "Node " (append (string_of_Z key)
                   " has not valid layer associated with it."))),
       DynapcnnLayer.mkState h (pre ++ (KInt key, DNode n) :: post) o').
Proof.
  intros Hvalid Hm Hbad.
  destruct (@scan_items_invalid F h (pre ++ (KInt key, DNode n) :: post)
              pre key n m post
              (DynapcnnLayer.mkLocals None None None [] [])
              (DynapcnnLayer.mk false None (DynapcnnLayer.conv_layer o)
                 (DynapcnnLayer.spk_layer o) (DynapcnnLayer.pool_layer o))
              Hvalid Hm Hbad) as [o' Hscan].
  exists o'.
  unfold DynapcnnLayer.__init__, DynapcnnLayer.build_conv_spk.
  unfold bind at 1.
  rewrite (bind_eq (set_self_eq h _ o _)).
  rewrite (bind_eq (set_self_eq h _ _ _)).
  step reflexivity.
  cbn [DynapcnnLayer.st_data DynapcnnLayer.self
       DynapcnnLayer.lin_to_conv_conversion DynapcnnLayer.spk_node_id
       DynapcnnLayer.conv_layer DynapcnnLayer.spk_layer
       DynapcnnLayer.pool_layer].
  unfold bind at 1. rewrite Hscan. reflexivity.
Qed.

(** The group conv, spk, average pooling: node 2 is rejected. *)
Lemma init_rejects_invalid_node_witness :
  exists o',
    DynapcnnLayer.__init__ false 1
      (DynapcnnLayer.mkState [Examples.conv_a; Examples.spk; Examples.avg_2x2]
         ([(KInt 0, DNode (NodeData.mk 0%nat None None));
           (KInt 1, DNode (NodeData.mk 1%nat None None))]
          ++ [(KInt 2, DNode (NodeData.mk 2%nat None None))])
         DynapcnnLayer.blank)
    = (Raise (ValueError "Node 2 has not valid layer associated with it."),
       DynapcnnLayer.mkState
         [Examples.conv_a; Examples.spk; Examples.avg_2x2]
         ([(KInt 0, DNode (NodeData.mk 0%nat None None));
           (KInt 1, DNode (NodeData.mk 1%nat None None))]
          ++ [(KInt 2, DNode (NodeData.mk 2%nat None None))]) o').
Proof.
  apply (@init_rejects_invalid_node Z _ _
           [Examples.conv_a; Examples.spk; Examples.avg_2x2]
           [(KInt 0, DNode (NodeData.mk 0%nat None None));
            (KInt 1, DNode (NodeData.mk 1%nat None None))] []
           2 (NodeData.mk 2%nat None None) Examples.avg_2x2
           DynapcnnLayer.blank false 1 eq_refl eq_refl I).
Defined.

Section InitRaises.
Context {F : Type} {arith : Arith F} {discretizer : Discretizer F}.
Import DynapcnnLayer.

Lemma bind_raises {S A B} (m : M S A) (k : A -> M S B) s e s1 :
  m s = (Raise e, s1) -> bind m k s = (Raise e, s1).
Proof. unfold bind. intros ->. reflexivity. Qed.

(** The constructor fails as the copy or the conversion of the
    convolution fails. *)
Lemma init_raises_from (h : heap F) d o (discretize : bool) rescale_weights
  cs kc lc ss ks ls (sp : IAFSqueeze.t F) e s' :
  forallb (valid_node h) d = true ->
  conv_nodes h d = cs ++ [(kc, lc)] ->
  spk_nodes h d = ss ++ [(ks, ls)] ->
  nth_error h ls = Some (LIAFSqueeze sp) ->
  copy_conv lc kc
    (mkState (h ++ [LIAFSqueeze (unsqueezed sp)]) d
       (mk false (Some ks) (conv_layer o) (spk_layer o) (pool_layer o)))
  = (Raise e, s') ->
  __init__ discretize rescale_weights (mkState h d o) = (Raise e, s').
Proof.
  intros Hvalid Hcs Hss Hsp Hcopy.
  unfold __init__. apply bind_raises. unfold build_conv_spk.
  rewrite (bind_eq (set_self_eq h d o _)).
  rewrite (bind_eq (set_self_eq h d _ _)).
  step reflexivity.
  cbn [st_data self lin_to_conv_conversion spk_node_id conv_layer spk_layer
       pool_layer].
  destruct (@scan_items_eq F h d d (mkLocals None None None [] [])
              (mk false None (conv_layer o) (spk_layer o) (pool_layer o))
              Hvalid) as [ids Hscan].
  rewrite (bind_eq Hscan).
  rewrite Hcs, Hss, !map_app. cbn [map fst snd]. rewrite !last_of_snoc.
  cbn [conv conv_node_id spk pool app lin_to_conv_conversion conv_layer
       spk_layer pool_layer].
  step ltac:(apply copy_spk_eq; exact Hsp).
  apply bind_raises. exact Hcopy.
Qed.

(** The conversion of a linear layer whose [in_features] is not the size
    of the declared input. *)
Lemma copy_conv_mismatch (h : heap F) d o lin node (l : Linear.t F) nd C H W :
  nth_error h lin = Some (LLinear l) ->
  dict_get d (KInt node) = Some (DNode nd) ->
  NodeData.input_shape nd = Some (C, H, W) ->
  Linear.in_features l <> C * H * W ->
  copy_conv lin node (mkState h d o)
  = (Raise (ValueError msg_shapes),
     mkState h d
       (mk true (spk_node_id o) (conv_layer o) (spk_layer o)
          (pool_layer o))).
Proof.
  intros Hlin Hnode Hshape Hne. unfold copy_conv.
  rewrite (bind_eq (on_heap_deref_eq h d o _ Hlin)).
  apply bind_raises. unfold _convert_linear_to_conv.
  rewrite (bind_eq (set_self_eq h d o _)).
  step ltac:(apply node_data_eq; exact Hnode).
  unfold lift at 1. rewrite Hshape.
  step reflexivity.
  step ltac:(apply on_heap_deref_eq; exact Hlin).
  destruct (Z.eqb_spec (Linear.in_features l) (C * H * W));
    [contradiction | reflexivity].
Qed.

End InitRaises.

Section GroupConvolution.
Context {F : Type} {arith : Arith F} {discretizer : Discretizer F}.
Import DynapcnnLayer.






End GroupConvolution.

Section IntKernel.
Context {F : Type} {arith : Arith F} {discretizer : Discretizer F}.
Import DynapcnnLayer.

(** The loop over the pooling layers subscripts the kernel size: it stops
    at the first one whose kernel size is an integer. *)
Lemma consolidate_pool_int_kernel pre : forall (h : heap F) d o p post q k,
  Forall (fun l => exists m, nth_error h l = Some m /\ square_pooling m) pre ->
  nth_error h p = Some (LSumPool2d q) ->
  SumPool2d.kernel_size q = PInt k ->
  exists s',
    consolidate_pool (pre ++ p :: post) (mkState h d o)
    = (Raise (TypeError "'int' object is not subscriptable"), s')
    /\ extends h (st_heap s')
    /\ conv_layer (self s') = conv_layer o
    /\ spk_layer (self s') = spk_layer o.
Proof.
  induction pre as [| p0 pre IH]; intros h d o p post q k Hpre Hp Hk.
  - cbn [app consolidate_pool].
    rewrite (bind_eq (on_heap_deref_eq h d o _ Hp)).
    rewrite Hk. eexists. split; [reflexivity |].
    split; [exists []; symmetry; apply app_nil_r | auto].
  - inversion Hpre as [| ? ? (m & Hm & q0 & k0 & -> & Hk0) Hpre']; subst.
    cbn [app consolidate_pool].
    rewrite (bind_eq (on_heap_deref_eq h d o _ Hm)).
    rewrite Hk0. cbn [subscript].
    step reflexivity. step reflexivity.
    rewrite Z.eqb_refl. cbn [negb].
    rewrite (bind_eq (on_heap_deepcopy_eq h d o _ Hm)).
    rewrite (bind_eq (set_self_eq _ d o _)).
    destruct (IH (h ++ [LSumPool2d q0]) d
                (mk (lin_to_conv_conversion o) (spk_node_id o)
                   (conv_layer o) (spk_layer o)
                   (Some match pool_layer o with
                         | Some l => l ++ [List.length h]
                         | None => [List.length h]
                         end)) p post q k)
      as (s' & E & (ext & Hext) & Hc & Hs).
    + eapply Forall_impl; [| exact Hpre'].
      intros l (m' & Hm' & Hsq). exists m'.
      split; [apply nth_error_old; exact Hm' | exact Hsq].
    + apply nth_error_old. exact Hp.
    + exact Hk.
    + exists s'. split; [exact E |]. split; [| auto].
      exists ([LSumPool2d q0] ++ ext). rewrite Hext, app_assoc. reflexivity.
Qed.

End IntKernel.

(** X22. A sum pooling node whose kernel size is an integer (as in
    [SumPool2d(2)]) makes the constructor fail though the kernel is square:
    its loop over the pooling layers subscripts [kernel_size] and raises
    [TypeError]; as for a non-square kernel, this happens after the copies
    of the spiking layer and of the convolution were made and assigned, and
    no object that existed before is changed. *)
Theorem init_rejects_int_kernel
  {F} {arith : Arith F} {discretizer : Discretizer F}
  (h : heap F) (d : dcnnl_data) (o : DynapcnnLayer.t) (discretize : bool)
  (rescale_weights : Z) (cs ss : list (Z * loc)) (kc ks : Z) (lc ls : loc)
  (c cf : Conv2d.t F) (sp sf : IAFSqueeze.t F)
  (pre post : list loc) (p : loc) (q : SumPool2d.t) (k : Z) :
  forallb (valid_node h) d = true ->
  conv_nodes h d = cs ++ [(kc, lc)] ->
  nth_error h lc = Some (LConv2d c) ->
  spk_nodes h d = ss ++ [(ks, ls)] ->
  nth_error h ls = Some (LIAFSqueeze sp) ->
  pooling_nodes h d = pre ++ p :: post ->
  Forall (@square_pooling F) (layers_at h pre) ->
  nth_error h p = Some (LSumPool2d q) ->
  SumPool2d.kernel_size q = PInt k ->
  (if discretize
   then discretize_conv_spike_ (rescaled rescale_weights c) (unsqueezed sp)
        = OK (cf, sf)
   else (cf, sf) = (rescaled rescale_weights c, unsqueezed sp)) ->
  exists s',
    DynapcnnLayer.__init__ discretize rescale_weights
      (DynapcnnLayer.mkState h d o)
    = (Raise (TypeError "'int' object is not subscriptable"), s')
    /\ preserved h (DynapcnnLayer.st_heap s')
    /\ nth_error (DynapcnnLayer.st_heap s') (List.length h)
       = Some (LIAFSqueeze sf)
    /\ nth_error (DynapcnnLayer.st_heap s') (S (List.length h))
       = Some (LConv2d cf)
    /\ DynapcnnLayer.spk_layer (DynapcnnLayer.self s')
       = Some (List.length h)
    /\ DynapcnnLayer.conv_layer (DynapcnnLayer.self s')
       = Some (S (List.length h)).
Proof.
  intros Hvalid Hcs Hc Hss Hsp Hps Hpre Hp Hk Hd.
  assert (Hbuild :
    DynapcnnLayer.build_conv_spk discretize rescale_weights
      (DynapcnnLayer.mkState h d o)
    = (OK (pooling_nodes h d),
       DynapcnnLayer.mkState (h ++ [LIAFSqueeze sf; LConv2d cf]) d
         (DynapcnnLayer.mk false (Some ks) (Some (S (List.length h)))
            (Some (List.length h)) (Some [])))).
  { eapply build_conv_spk_from with (c := c); try eassumption.
    erewrite copy_conv_eq by (apply nth_error_old; exact Hc).
    rewrite length_app. cbn [List.length]. rewrite Nat.add_1_r.
    reflexivity. }
  pose proof (pooling_nodes_in_heap h d) as Hin. rewrite Hps in Hin.
  apply Forall_app in Hin. destruct Hin as [Hin_pre _].
  destruct (@consolidate_pool_int_kernel F pre
              (h ++ [LIAFSqueeze sf; LConv2d cf]) d
              (DynapcnnLayer.mk false (Some ks) (Some (S (List.length h)))
                 (Some (List.length h)) (Some [])) p post q k)
    as (s' & E & (ext & Hext) & Hcl & Hsl).
  - clear - Hpre Hin_pre.
    induction pre as [| l pre IH]; [constructor |].
    inversion Hin_pre as [| ? ? Hl Hin']; subst.
    cbn [layers_at flat_map] in Hpre. fold (layers_at h pre) in Hpre.
    apply nth_error_Some in Hl.
    destruct (nth_error h l) as [m |] eqn:Hm; [| congruence].
    cbn [app] in Hpre. inversion Hpre as [| ? ? Hsq Hpre']; subst.
    constructor; [| exact (IH Hpre' Hin')].
    exists m. split; [apply nth_error_old; exact Hm | exact Hsq].
  - apply nth_error_old. exact Hp.
  - exact Hk.
  - exists s'. unfold DynapcnnLayer.__init__.
    rewrite (bind_eq Hbuild), Hps. split; [exact E |].
    rewrite Hext, <- app_assoc.
    destruct (nth_error_second_newest h (LIAFSqueeze sf) (LConv2d cf))
      as [Hs Hcv].
    split; [intros l m Hl; apply nth_error_old; exact Hl |].
    split; [rewrite app_assoc; apply nth_error_old; exact Hs |].
    split; [rewrite app_assoc; apply nth_error_old; exact Hcv |].
    split; assumption.
Qed.

(** The group conv, spk, sum pooling of kernel size 2. *)
Lemma init_rejects_int_kernel_witness :
  exists s',
    DynapcnnLayer.__init__ false 1
      (DynapcnnLayer.mkState
         [Examples.conv_a; Examples.spk;
          LSumPool2d (SumPool2d.mk (PInt 2) (PInt 2))]
         [(KInt 0, DNode (NodeData.mk 0%nat None None));
          (KInt 1, DNode (NodeData.mk 1%nat None None));
          (KInt 2, DNode (NodeData.mk 2%nat None None))]
         DynapcnnLayer.blank)
    = (Raise (TypeError "'int' object is not subscriptable"), s')
    /\ DynapcnnLayer.conv_layer (DynapcnnLayer.self s') = Some 4%nat.
Proof.
  destruct (@init_rejects_int_kernel Z _ _
              [Examples.conv_a; Examples.spk;
               LSumPool2d (SumPool2d.mk (PInt 2) (PInt 2))]
              [(KInt 0, DNode (NodeData.mk 0%nat None None));
               (KInt 1, DNode (NodeData.mk 1%nat None None));
               (KInt 2, DNode (NodeData.mk 2%nat None None))]
              DynapcnnLayer.blank false 1 [] [] 0 1 0%nat 1%nat
              (Examples.conv_1x1 8 16 None) (Examples.conv_1x1 8 16 None)
              (IAFSqueeze.mk None 1 None) (IAFSqueeze.mk None 1 None)
              [] [] 2%nat (SumPool2d.mk (PInt 2) (PInt 2)) 2)
    as (s' & E & _ & _ & _ & _ & Hcl);
    try reflexivity.
  { constructor. }
  exists s'. split; [exact E | exact Hcl].
Defined.

(** C2. The builder ([DynapcnnLayer.__init__]) on a group whose convolution
    node holds a [Linear] layer with declared input shape (C, H, W), the
    group having its spiking node: if in_features differs from C * H * W
    the builder fails with the shape mismatch error, and no convolution is
    assigned to the layer; otherwise (the other steps of the builder
    passing) it returns, and the convolution of the layer is made from a
    new convolution [conv] with kernel size (H, W), out_channels equal to
    out_features, padding 0 and stride 1, whose weight is the reshape of
    the linear weight to (out_features, C, H, W): the storage is the same,
    the element (o, c, y, x) is the element (o, c * H * W + y * W + x) of
    the linear weight, and reshaping the weight back to
    (out_features, in_features) gives the linear weight again.  The
    convolution of the layer is [conv] itself when the builder is asked
    neither to rescale nor to discretise, and what these two steps make
    of [conv] otherwise. *)
Theorem linear_to_conv_conversion
  {F} {arith : Arith F} {discretizer : Discretizer F}
  (h : heap F) (d : dcnnl_data) (o : DynapcnnLayer.t) (discretize : bool)
  (rescale_weights : Z) (cs ss : list (Z * loc)) (kc ks : Z) (lc ls : loc)
  (l : Linear.t F) (ndc : NodeData.t) (C H W : Z) (sp : IAFSqueeze.t F) :
  forallb (valid_node h) d = true ->
  conv_nodes h d = cs ++ [(kc, lc)] ->
  nth_error h lc = Some (LLinear l) ->
  spk_nodes h d = ss ++ [(ks, ls)] ->
  nth_error h ls = Some (LIAFSqueeze sp) ->
  dict_get d (KInt kc) = Some (DNode ndc) ->
  NodeData.input_shape ndc = Some (C, H, W) ->
  (Linear.in_features l <> C * H * W ->
   exists s',
     DynapcnnLayer.__init__ discretize rescale_weights
       (DynapcnnLayer.mkState h d o)
     = (Raise ShapeMismatchError, s')
     /\ DynapcnnLayer.conv_layer (DynapcnnLayer.self s')
        = DynapcnnLayer.conv_layer o)
  /\ (Linear.in_features l = C * H * W ->
      0 <= C -> 0 <= H -> 0 <= W -> wf_linear l ->
      (exists nds, dict_get d (KInt ks) = Some (DNode nds)) ->
      Forall (@square_pooling F) (layers_at h (pooling_nodes h d)) ->
      forall cf sf,
        (if discretize
         then discretize_conv_spike_
                (rescaled rescale_weights (converted l C H W))
                (unsqueezed sp)
              = OK (cf, sf)
         else (cf, sf)
              = (rescaled rescale_weights (converted l C H W),
                 unsqueezed sp)) ->
        exists conv s',
          DynapcnnLayer.__init__ discretize rescale_weights
            (DynapcnnLayer.mkState h d o)
          = (OK tt, s')
          /\ DynapcnnLayer.lin_to_conv_conversion (DynapcnnLayer.self s')
             = true
          /\ DynapcnnLayer.conv_layer (DynapcnnLayer.self s')
             = Some (S (List.length h))
          /\ nth_error (DynapcnnLayer.st_heap s') (S (List.length h))
             = Some (LConv2d cf)
          /\ (if discretize
              then discretize_conv_spike_ (rescaled rescale_weights conv)
                     (unsqueezed sp)
                   = OK (cf, sf)
              else cf = rescaled rescale_weights conv)
          /\ (rescale_weights = 1 -> discretize = false -> cf = conv)
          /\ Conv2d.kernel_size conv = (H, W)
          /\ Conv2d.in_channels conv = C
          /\ Conv2d.out_channels conv = Linear.out_features l
          /\ Conv2d.padding conv = (0, 0)
          /\ Conv2d.stride conv = (1, 1)
          /\ Conv2d.bias conv = Linear.bias l
          /\ reshape (Linear.weight l) [Linear.out_features l; C; H; W]
             = OK (Conv2d.weight conv)
          /\ data (Conv2d.weight conv) = data (Linear.weight l)
          /\ reshape (Conv2d.weight conv)
               [Linear.out_features l; Linear.in_features l]
             = OK (Linear.weight l)
          /\ forall o c y x,
               tensor_get (Conv2d.weight conv) [o; c; y; x]
               = tensor_get (Linear.weight l) [o; c * H * W + y * W + x]).
Proof.
  intros Hvalid Hcs Hl Hss Hsp Hkc Hshape. split.
  - intros Hne. eexists. split.
    + eapply init_raises_from; try eassumption.
      eapply copy_conv_mismatch; try eassumption.
      apply nth_error_old. exact Hl.
    + reflexivity.
  - intros Hin HC HH HW Hwf [nds Hks] Hsq cf sf Hd.
    destruct (@copy_conv_linear_eq F arith
                (h ++ [LIAFSqueeze (unsqueezed sp)]) d
                (DynapcnnLayer.mk false (Some ks)
                   (DynapcnnLayer.conv_layer o) (DynapcnnLayer.spk_layer o)
                   (DynapcnnLayer.pool_layer o))
                lc kc l ndc C H W ks nds)
      as [lyr Hcopy]; try assumption; try reflexivity.
    { apply nth_error_old. exact Hl. }
    rewrite length_app in Hcopy. cbn [List.length] in Hcopy.
    rewrite Nat.add_1_r in Hcopy.
    cbn [DynapcnnLayer.conv_layer DynapcnnLayer.spk_layer
         DynapcnnLayer.pool_layer] in Hcopy.
    exists (converted l C H W). eexists. split.
    { eapply init_from with (lin := true); try eassumption. }
    cbn [DynapcnnLayer.st_heap DynapcnnLayer.self
         DynapcnnLayer.lin_to_conv_conversion DynapcnnLayer.conv_layer].
    split; [reflexivity |]. split; [reflexivity |].
    split.
    { destruct (nth_error_second_newest h (LIAFSqueeze sf) (LConv2d cf))
        as [_ Hcv].
      change (h ++ [LIAFSqueeze sf; LConv2d cf]
                ++ layers_at h (pooling_nodes h d))
        with (h ++ ([LIAFSqueeze sf; LConv2d cf]
                      ++ layers_at h (pooling_nodes h d))).
      rewrite app_assoc. apply nth_error_old. exact Hcv. }
    split.
    { destruct discretize; [exact Hd | congruence]. }
    split.
    { intros -> ->. inversion Hd. reflexivity. }
    destruct (converted_weight Hin HC HH HW Hwf) as (Hre & Hback & Hget).
    cbn [converted Conv2d.kernel_size Conv2d.in_channels
         Conv2d.out_channels Conv2d.padding Conv2d.stride Conv2d.bias].
    repeat (split; [reflexivity |]).
    split; [exact Hre |]. split; [reflexivity |].
    split; [exact Hback | exact Hget].
Qed.

(** [Linear(in_features=12, out_features=4)] in a group with a spiking
    layer: with the declared input shape (3, 2, 2), and with (3, 2, 3),
    whose size is 18. *)
Lemma linear_to_conv_conversion_witness :
  (exists conv s',
     DynapcnnLayer.__init__ false 1 Examples.linear_state = (OK tt, s')
     /\ nth_error (DynapcnnLayer.st_heap s') 3 = Some (LConv2d conv)
     /\ Conv2d.kernel_size conv = (2, 2)
     /\ Conv2d.out_channels conv = 4
     /\ reshape (Conv2d.weight conv) [4; 12]
        = OK (Linear.weight Examples.linear_12_4))
  /\ exists s',
       DynapcnnLayer.__init__ false 1
         (DynapcnnLayer.mkState [LLinear Examples.linear_12_4; Examples.spk]
            [(KInt 0, DNode (NodeData.mk 0%nat (Some (3, 2, 3)) None));
             (KInt 1, DNode (NodeData.mk 1%nat None None))]
            DynapcnnLayer.blank)
       = (Raise ShapeMismatchError, s').
Proof.
  split.
  - destruct (proj2 (@linear_to_conv_conversion Z _ _
                       [LLinear Examples.linear_12_4; Examples.spk]
                       (DynapcnnLayer.st_data Examples.linear_state)
                       DynapcnnLayer.blank false 1 [] [] 0 1 0%nat 1%nat
                       Examples.linear_12_4
                       (NodeData.mk 0%nat (Some (3, 2, 2)) (Some (4, 1, 1)))
                       3 2 2 (IAFSqueeze.mk None 1 None)
                       eq_refl eq_refl eq_refl eq_refl eq_refl eq_refl
                       eq_refl)
                eq_refl ltac:(lia) ltac:(lia) ltac:(lia)
                ltac:(repeat split; first [reflexivity | discriminate])
                ltac:(eexists; reflexivity)
                ltac:(constructor)
                (converted Examples.linear_12_4 3 2 2)
                (IAFSqueeze.mk None 1 None) eq_refl)
      as (conv & s' & Hrun & _ & _ & Hheap & _ & Hsame & Hk & _ & Hout & _
          & _ & _ & _ & _ & Hback & _).
    exists conv, s'. rewrite <- (Hsame eq_refl eq_refl).
    repeat split; assumption.
  - destruct (proj1 (@linear_to_conv_conversion Z _ _
                       [LLinear Examples.linear_12_4; Examples.spk]
                       [(KInt 0,
                         DNode (NodeData.mk 0%nat (Some (3, 2, 3)) None));
                        (KInt 1, DNode (NodeData.mk 1%nat None None))]
                       DynapcnnLayer.blank false 1 [] [] 0 1 0%nat 1%nat
                       Examples.linear_12_4
                       (NodeData.mk 0%nat (Some (3, 2, 3)) None)
                       3 2 3 (IAFSqueeze.mk None 1 None)
                       eq_refl eq_refl eq_refl eq_refl eq_refl eq_refl
                       eq_refl)
                ltac:(discriminate))
      as (s' & Hrun & _).
    exists s'. exact Hrun.
Defined.

Section ScanAccepts.
Context {F : Type} {arith : Arith F} {discretizer : Discretizer F}.
Import DynapcnnLayer.




End ScanAccepts.




(** ** The objects passed in are never modified *)

Section Frames.
Context {F : Type}.
Implicit Types (h : heap F).

Lemma extends_refl h : extends h h.
Proof. exists []. symmetry. apply app_nil_r. Qed.

Lemma extends_preserved h0 h : extends h0 h -> preserved h0 h.
Proof. intros [ext ->] l m Hl. apply nth_error_old. exact Hl. Qed.

Lemma extends_alloc h0 h (m : Layer F) : extends h0 h -> extends h0 (h ++ [m]).
Proof.
  intros [ext ->]. exists (ext ++ [m]). symmetry. apply app_assoc.
Qed.

Lemma extends_length h0 h : extends h0 h -> (List.length h0 <= List.length h)%nat.
Proof. intros [ext ->]. rewrite length_app. lia. Qed.

Lemma extends_update h0 h l (m : Layer F) :
  extends h0 h -> fresh_for h0 l -> extends h0 (list_update h l m).
Proof.
  intros [ext ->] Hl. unfold fresh_for in Hl.
  replace l with (List.length h0 + (l - List.length h0))%nat by lia.
  rewrite list_update_new. eexists. reflexivity.
Qed.

Section Generic.
Context {S : Type} (proj : S -> heap F) (h0 : heap F).

Lemma frames_ret {A} (P : A -> Prop) a : P a -> frames proj h0 P (ret a).
Proof.
  intros Ha s r s' Hs E. unfold ret in E. inversion E; subst.
  split; [exact Hs |]. intros a' Ha'. inversion Ha'; subst. exact Ha.
Qed.

Lemma frames_raise {A} (P : A -> Prop) e : frames proj h0 P (raise e).
Proof.
  intros s r s' Hs E. unfold raise in E. inversion E; subst.
  split; [exact Hs |]. intros a Ha. discriminate Ha.
Qed.

Lemma frames_lift {A} (P : A -> Prop) (r0 : result A) :
  (forall a, r0 = OK a -> P a) -> frames proj h0 P (lift r0).
Proof.
  intros Hr s r s' Hs E. unfold lift in E. inversion E; subst. auto.
Qed.

Lemma frames_get : frames proj h0 (fun _ : S => True) get.
Proof.
  intros s r s' Hs E. unfold get in E. inversion E; subst. auto.
Qed.

Lemma frames_bind {A B} (P : A -> Prop) (Q : B -> Prop) (m : M S A)
  (k : A -> M S B) :
  frames proj h0 P m ->
  (forall a, P a -> frames proj h0 Q (k a)) ->
  frames proj h0 Q (bind m k).
Proof.
  intros Hm Hk s r s' Hs E. unfold bind in E.
  destruct (m s) as [[a | e] s1] eqn:Em.
  - destruct (Hm _ _ _ Hs Em) as [Hs1 Ha].
    exact (Hk a (Ha a eq_refl) _ _ _ Hs1 E).
  - destruct (Hm _ _ _ Hs Em) as [Hs1 _]. inversion E; subst.
    split; [exact Hs1 |]. intros b Hb. discriminate Hb.
Qed.

Lemma frames_weaken {A} (P Q : A -> Prop) (m : M S A) :
  frames proj h0 P m -> (forall a, P a -> Q a) -> frames proj h0 Q m.
Proof.
  intros Hm HPQ s r s' Hs E. destruct (Hm _ _ _ Hs E) as [Hs' Ha].
  split; [exact Hs' |]. intros a Hr. apply HPQ, Ha, Hr.
Qed.

Lemma frames_modify (f : S -> S) :
  (forall s, proj (f s) = proj s) ->
  frames proj h0 (fun _ : unit => True) (modify f).
Proof.
  intros Hf s r s' Hs E. unfold modify in E. inversion E; subst.
  rewrite Hf. auto.
Qed.

End Generic.

(** The operations on the heap. *)
Section OnTheHeap.
Context (h0 : heap F).

Lemma frames_deref l : frames (fun h : heap F => h) h0 (fun _ => True) (deref l).
Proof.
  intros h r h' Hh E. unfold deref in E.
  destruct (nth_error h l); inversion E; subst; auto.
Qed.

Lemma frames_alloc (m : Layer F) : frames (fun h : heap F => h) h0 (fresh_for h0) (alloc m).
Proof.
  intros h r h' Hh E. unfold alloc in E. inversion E; subst.
  split; [apply extends_alloc; exact Hh |].
  intros a Ha. inversion Ha; subst. apply extends_length. exact Hh.
Qed.

Lemma frames_deepcopy l : frames (fun h : heap F => h) h0 (fresh_for h0) (deepcopy l).
Proof.
  unfold deepcopy. eapply frames_bind; [apply frames_deref |].
  intros m _. apply frames_alloc.
Qed.

Lemma frames_store l (m : Layer F) :
  fresh_for h0 l -> frames (fun h : heap F => h) h0 (fun _ => True) (store l m).
Proof.
  intros Hl h r h' Hh E. unfold store, modify in E. inversion E; subst.
  split; [apply extends_update; assumption | auto].
Qed.

Lemma frames_assign_weight_data l (v : value) :
  fresh_for h0 l -> frames (fun h : heap F => h) h0 (fun _ => True) (assign_weight_data l v).
Proof.
  intros Hl. unfold assign_weight_data.
  eapply frames_bind; [apply frames_deref |]. intros m _.
  eapply frames_bind; [apply frames_lift with (P := fun _ => True); auto |].
  intros w _.
  eapply frames_bind; [apply frames_lift with (P := fun _ => True); auto |].
  intros t _.
  eapply frames_bind; [apply frames_lift with (P := fun _ => True); auto |].
  intros m' _. apply frames_store. exact Hl.
Qed.

Lemma frames_assign_bias_data l (v : value) :
  fresh_for h0 l -> frames (fun h : heap F => h) h0 (fun _ => True) (assign_bias_data l v).
Proof.
  intros Hl. unfold assign_bias_data.
  eapply frames_bind; [apply frames_deref |]. intros m _.
  eapply frames_bind; [apply frames_lift with (P := fun _ => True); auto |].
  intros b _.
  eapply frames_bind; [apply frames_lift with (P := fun _ => True); auto |].
  intros b' _.
  eapply frames_bind; [apply frames_lift with (P := fun _ => True); auto |].
  intros t _.
  eapply frames_bind; [apply frames_lift with (P := fun _ => True); auto |].
  intros m' _. apply frames_store. exact Hl.
Qed.

End OnTheHeap.

End Frames.

(** A step that returns nothing of interest. *)
Ltac frames_pure :=
  first [ apply frames_lift with (P := fun _ => True); auto
        | apply frames_deref
        | apply frames_get
        | apply frames_raise ].

Section FramesOfTheSources.
Context {F : Type} {arith : Arith F} {discretizer : Discretizer F}.
Variable h0 : heap F.

Lemma frames_merge_conv_bn conv bn :
  frames (fun h : heap F => h) h0 (fresh_for h0) (merge_conv_bn conv bn).
Proof.
  unfold merge_conv_bn.
  eapply frames_bind; [apply frames_deref |]. intros bn_obj _.
  eapply frames_bind; [frames_pure |]. intros b _.
  destruct (if BatchNorm2d.affine b then _ else _) as [gamma beta].
  eapply frames_bind; [frames_pure |]. intros root _.
  eapply frames_bind; [frames_pure |]. intros factor _.
  eapply frames_bind; [apply frames_deref |]. intros conv_obj _.
  eapply frames_bind; [frames_pure |]. intros c_weight _.
  eapply frames_bind; [frames_pure |]. intros c_bias _.
  eapply frames_bind; [apply frames_deepcopy |]. intros copy Hcopy.
  eapply frames_bind; [frames_pure |]. intros factor4 _.
  eapply frames_bind; [frames_pure |]. intros new_weight _.
  eapply frames_bind; [apply frames_assign_weight_data; exact Hcopy |].
  intros _ _.
  eapply frames_bind; [frames_pure |]. intros centred _.
  eapply frames_bind; [frames_pure |]. intros scaled _.
  eapply frames_bind; [frames_pure |]. intros new_bias _.
  eapply frames_bind; [apply frames_assign_bias_data; exact Hcopy |].
  intros _ _. apply frames_ret. exact Hcopy.
Qed.

Import DynapcnnLayer.

Lemma frames_on_heap {A} (P : A -> Prop) (m : M (heap F) A) :
  frames (fun h : heap F => h) h0 P m -> frames (@DynapcnnLayer.st_heap F) h0 P (on_heap m).
Proof.
  intros Hm s r s' Hs E. unfold on_heap in E.
  destruct (m (st_heap s)) as [r1 h1] eqn:Em. inversion E; subst.
  cbn [st_heap]. exact (Hm _ _ _ Hs Em).
Qed.

Lemma frames_set_self f : frames (@DynapcnnLayer.st_heap F) h0 (fun _ => True) (set_self f).
Proof. apply frames_modify. reflexivity. Qed.

Lemma frames_node_data key : frames (@DynapcnnLayer.st_heap F) h0 (fun _ => True) (node_data key).
Proof.
  unfold node_data. eapply frames_bind; [apply frames_get |]. intros s _.
  destruct (dict_get (st_data s) (KInt key)) as [[n |] |];
    first [apply frames_ret; exact I | apply frames_raise].
Qed.

Lemma frames_set_node_data key n :
  frames (@DynapcnnLayer.st_heap F) h0 (fun _ => True) (set_node_data key n).
Proof. apply frames_modify. reflexivity. Qed.

Ltac state_pure :=
  first [ apply frames_lift with (P := fun _ => True); auto
        | apply frames_on_heap, frames_deref
        | apply frames_get
        | apply frames_raise
        | apply frames_set_self
        | apply frames_node_data
        | apply frames_set_node_data ].

Lemma frames__convert_linear_to_conv lin node :
  frames (@DynapcnnLayer.st_heap F) h0 (fun r => fresh_for h0 (fst r))
    (_convert_linear_to_conv lin node).
Proof.
  unfold _convert_linear_to_conv.
  eapply frames_bind; [state_pure |]. intros _ _.
  eapply frames_bind; [state_pure |]. intros layer_data _.
  eapply frames_bind; [state_pure |]. intros [[in_chan in_h] in_w] _.
  eapply frames_bind; [state_pure |]. intros lin_obj _.
  destruct lin_obj; try state_pure.
  destruct (negb _); [apply frames_raise |].
  eapply frames_bind; [state_pure |]. intros layer _.
  eapply frames_bind; [apply frames_on_heap, frames_alloc |].
  intros cl Hcl.
  eapply frames_bind with (P := fun _ => True).
  { destruct (Linear.bias l).
    - apply frames_on_heap, frames_assign_bias_data. exact Hcl.
    - apply frames_ret. exact I. }
  intros _ _.
  eapply frames_bind; [state_pure |]. intros w _.
  eapply frames_bind;
    [apply frames_on_heap, frames_assign_weight_data; exact Hcl |].
  intros _ _. apply frames_ret. exact Hcl.
Qed.

Lemma frames__update_conv_node_output_shape cl node shp :
  frames (@DynapcnnLayer.st_heap F) h0 (fun _ => True) (_update_conv_node_output_shape cl node shp).
Proof.
  unfold _update_conv_node_output_shape.
  eapply frames_bind; [state_pure |]. intros conv_obj _.
  destruct conv_obj; try state_pure.
  eapply frames_bind; [state_pure |]. intros out _.
  eapply frames_bind; [state_pure |]. intros layer_data _.
  eapply frames_bind; [state_pure |]. intros _ _.
  apply frames_ret. exact I.
Qed.

Lemma frames__update_neuron_node_output_shape node shp :
  frames (@DynapcnnLayer.st_heap F) h0 (fun _ => True) (_update_neuron_node_output_shape node shp).
Proof.
  unfold _update_neuron_node_output_shape.
  eapply frames_bind; [state_pure |]. intros layer_data _. state_pure.
Qed.

Lemma frames_scan_items items : forall lv,
  frames (@DynapcnnLayer.st_heap F) h0 (fun _ => True) (scan_items items lv).
Proof.
  induction items as [| [[key | name] [n |]] items IH]; intros lv;
    cbn [scan_items]; try apply IH.
  - apply frames_ret. exact I.
  - eapply frames_bind; [state_pure |]. intros lyr _.
    destruct lyr; try apply IH; try apply frames_raise.
    eapply frames_bind; [state_pure |]. intros _ _. apply IH.
  - apply frames_raise.
Qed.

Lemma frames_consolidate_pool pools :
  frames (@DynapcnnLayer.st_heap F) h0 (fun _ => True) (consolidate_pool pools).
Proof.
  induction pools as [| plyr pools IH]; cbn [consolidate_pool].
  - apply frames_ret. exact I.
  - eapply frames_bind; [state_pure |]. intros lyr _.
    destruct lyr; try state_pure.
    eapply frames_bind; [state_pure |]. intros k0 _.
    eapply frames_bind; [state_pure |]. intros k1 _.
    destruct (negb _); [apply frames_raise |].
    eapply frames_bind with (P := fun _ => True).
    { eapply frames_weaken; [apply frames_on_heap, frames_deepcopy | auto]. }
    intros copy _.
    eapply frames_bind; [state_pure |]. intros _ _. exact IH.
Qed.

Lemma frames_copy_spk spk : frames (@DynapcnnLayer.st_heap F) h0 (fresh_for h0) (copy_spk spk).
Proof.
  unfold copy_spk.
  eapply frames_bind; [apply frames_on_heap, frames_deepcopy |].
  intros sl Hsl.
  eapply frames_bind; [state_pure |]. intros spk_obj _.
  eapply frames_bind with (P := fun _ => True).
  { destruct spk_obj; try state_pure.
    destruct (IAFSqueeze.v_mem s).
    - apply frames_on_heap, frames_store. exact Hsl.
    - apply frames_ret. exact I. }
  intros _ _. apply frames_ret. exact Hsl.
Qed.

Lemma frames_copy_conv conv node :
  frames (@DynapcnnLayer.st_heap F) h0 (fresh_for h0) (copy_conv conv node).
Proof.
  unfold copy_conv.
  eapply frames_bind; [state_pure |]. intros conv_obj _.
  destruct conv_obj; try (apply frames_on_heap, frames_deepcopy).
  eapply frames_bind; [apply frames__convert_linear_to_conv |].
  intros [cl shp] Hcl. cbn [fst] in Hcl.
  eapply frames_bind; [apply frames__update_conv_node_output_shape |].
  intros out _.
  eapply frames_bind; [state_pure |]. intros s _.
  eapply frames_bind with (P := fun _ => True).
  { destruct (spk_node_id (self s)).
    - apply frames__update_neuron_node_output_shape.
    - apply frames_raise. }
  intros _ _. apply frames_ret. exact Hcl.
Qed.

Lemma frames_rescale_conv conv rescale_weights :
  fresh_for h0 conv ->
  frames (@DynapcnnLayer.st_heap F) h0 (fun _ => True) (rescale_conv conv rescale_weights).
Proof.
  intros Hconv. unfold rescale_conv.
  destruct (negb _); [| apply frames_ret; exact I].
  eapply frames_bind; [state_pure |]. intros conv_obj _.
  eapply frames_bind; [state_pure |]. intros w _.
  eapply frames_bind; [state_pure |]. intros scaled _.
  apply frames_on_heap, frames_assign_weight_data. exact Hconv.
Qed.

Lemma frames_discretize_layers discretize conv spk :
  fresh_for h0 conv -> fresh_for h0 spk ->
  frames (@DynapcnnLayer.st_heap F) h0 (fun _ => True) (discretize_layers discretize conv spk).
Proof.
  intros Hconv Hspk. unfold discretize_layers.
  destruct discretize; [| apply frames_ret; exact I].
  eapply frames_bind; [state_pure |]. intros conv_obj _.
  eapply frames_bind; [state_pure |]. intros spk_obj _.
  destruct conv_obj; try apply frames_raise.
  destruct spk_obj; try apply frames_raise.
  eapply frames_bind; [state_pure |]. intros [c' sp'] _.
  eapply frames_bind; [apply frames_on_heap, frames_store; exact Hconv |].
  intros _ _. apply frames_on_heap, frames_store. exact Hspk.
Qed.

Lemma frames_build_conv_spk discretize rescale_weights :
  frames (@DynapcnnLayer.st_heap F) h0 (fun _ => True) (build_conv_spk discretize rescale_weights).
Proof.
  unfold build_conv_spk.
  eapply frames_bind; [state_pure |]. intros _ _.
  eapply frames_bind; [state_pure |]. intros _ _.
  eapply frames_bind; [state_pure |]. intros s _.
  eapply frames_bind; [apply frames_scan_items |]. intros lv _.
  destruct (conv lv) as [cl |]; [| apply frames_raise].
  destruct (conv_node_id lv) as [node |]; [| apply frames_raise].
  destruct (spk lv) as [sl |]; [| apply frames_raise].
  eapply frames_bind; [apply frames_copy_spk |]. intros spk' Hspk.
  eapply frames_bind; [apply frames_copy_conv |]. intros conv' Hconv.
  eapply frames_bind; [apply frames_rescale_conv; exact Hconv |].
  intros _ _.
  eapply frames_bind;
    [apply frames_discretize_layers; assumption |].
  intros _ _.
  eapply frames_bind; [state_pure |]. intros _ _.
  eapply frames_bind; [state_pure |]. intros _ _.
  eapply frames_bind; [state_pure |]. intros _ _.
  apply frames_ret. exact I.
Qed.

Lemma frames___init__ discretize rescale_weights :
  frames (@DynapcnnLayer.st_heap F) h0 (fun _ => True) (__init__ discretize rescale_weights).
Proof.
  unfold __init__.
  eapply frames_bind; [apply frames_build_conv_spk |]. intros pools _.
  apply frames_consolidate_pool.
Qed.

Lemma frames_deref_all ls :
  frames (fun h : heap F => h) h0 (fun _ => True) (deref_all ls).
Proof.
  induction ls as [| l ls IH]; cbn [deref_all].
  - apply frames_ret. exact I.
  - eapply frames_bind; [apply frames_deref |]. intros m _.
    eapply frames_bind; [exact IH |]. intros ms _.
    apply frames_ret. exact I.
Qed.

End FramesOfTheSources.

Section FramesOfConstruct.
Context {F : Type} {arith : Arith F}.
Variable T : Type.
Variable new_DynapcnnLayer :
  loc -> loc -> option loc -> Z * Z * Z -> bool -> Z -> M (heap F) T.
Variable is_SpikingLayer : Layer F -> bool.
Variable type_repr : Layer F -> string.

(** The constructor of the class changes no object that exists when it is
    called. *)
Hypothesis new_DynapcnnLayer_preserves :
  forall conv spk pool in_shape discretize rescale_weights h r h',
    new_DynapcnnLayer conv spk pool in_shape discretize rescale_weights h
    = (r, h') ->
    preserved h h'.

Variable h0 : heap F.

Lemma preserved_extends (h h' : heap F) : preserved h h' -> extends h h'.
Proof.
  revert h'. induction h as [| m h IH]; intros h' Hp.
  - exists h'. reflexivity.
  - destruct h' as [| m' h'].
    + specialize (Hp 0%nat m eq_refl). discriminate Hp.
    + pose proof (Hp 0%nat m eq_refl) as H0. inversion H0; subst m'.
      destruct (IH h') as [ext ->].
      * intros l x Hl. exact (Hp (S l) x Hl).
      * exists ext. reflexivity.
Qed.

Lemma frames_new_DynapcnnLayer conv spk pool in_shape discretize
  rescale_weights :
  frames (fun h : heap F => h) h0 (fun _ => True)
    (new_DynapcnnLayer conv spk pool in_shape discretize rescale_weights).
Proof.
  intros h r h' [ext ->] E.
  apply new_DynapcnnLayer_preserves, preserved_extends in E.
  destruct E as [ext' ->].
  split; [| auto]. exists (ext ++ ext'). symmetry. apply app_assoc.
Qed.

(** The steps of [construct_next_dynapcnn_layer] after the check of the
    first layer. *)
Ltac frames_group :=
  eapply frames_bind; [frames_pure |]; intros ? _;
  eapply frames_bind; [frames_pure |]; intros ? _;
  eapply frames_bind; [frames_pure |]; intros second_obj _;
  eapply frames_bind with (P := fun _ => True);
  [ destruct second_obj; try (apply frames_ret; exact I);
    eapply frames_bind; [apply frames_merge_conv_bn |];
    intros ? _; apply frames_ret; exact I
  | intros [? idx] _;
    eapply frames_bind with (P := fun _ => True);
    [ destruct (nth_error _ idx);
      [apply frames_ret; exact I | apply frames_raise]
    | intros ? _;
      eapply frames_bind; [frames_pure |]; intros spk_obj _;
      destruct (is_SpikingLayer spk_obj); [| apply frames_raise];
      eapply frames_bind; [apply frames_deref_all |]; intros ? _;
      eapply frames_bind; [frames_pure |]; intros [[lyr_pool ?] ?] _;
      eapply frames_bind with (P := fun _ => True);
      [ destruct lyr_pool; [| apply frames_ret; exact I];
        eapply frames_bind; [apply frames_alloc |];
        intros ? _; apply frames_ret; exact I
      | intros ? _;
        eapply frames_bind; [apply frames_new_DynapcnnLayer |];
        intros ? _; apply frames_ret; exact I ] ] ].

Lemma frames_construct_next_dynapcnn_layer layers in_shape discretize
  rescale_factor :
  frames (fun h : heap F => h) h0 (fun _ => True)
    (construct_next_dynapcnn_layer new_DynapcnnLayer is_SpikingLayer
       type_repr layers in_shape discretize rescale_factor).
Proof.
  unfold construct_next_dynapcnn_layer.
  eapply frames_bind; [frames_pure |]. intros first _.
  eapply frames_bind; [frames_pure |]. intros first_obj _.
  destruct first_obj; try apply frames_raise; frames_group.
Qed.

End FramesOfConstruct.

(** X13. Whatever the outcome of the constructor, a value or any
    exception, every object that existed before the call is the same after
    it: the layers that the dictionary names are read and copied, and all
    assignments go to the copies. *)
Theorem init_never_modifies_its_inputs
  {F} {arith : Arith F} {discretizer : Discretizer F}
  (s s' : DynapcnnLayer.state F) (r : result unit) (discretize : bool)
  (rescale_weights : Z) :
  DynapcnnLayer.__init__ discretize rescale_weights s = (r, s') ->
  preserved (DynapcnnLayer.st_heap s) (DynapcnnLayer.st_heap s').
Proof.
  intros E. apply extends_preserved.
  pose proof (@frames___init__ F arith discretizer (DynapcnnLayer.st_heap s)
                discretize rescale_weights) as Hf.
  unfold frames in Hf. eapply Hf in E; [apply E | apply extends_refl].
Qed.

(** The group with a pooling of kernel (2, 3), rejected after the copies
    were made, and with the discretisation on. *)
Lemma init_never_modifies_its_inputs_witness :
  exists s',
    DynapcnnLayer.__init__ true 4 Examples.nonsquare_state
    = (Raise (ValueError msg_square), s')
    /\ preserved (DynapcnnLayer.st_heap Examples.nonsquare_state)
         (DynapcnnLayer.st_heap s').
Proof.
  destruct (DynapcnnLayer.__init__ true 4 Examples.nonsquare_state)
    as [r s'] eqn:E.
  pose proof (init_never_modifies_its_inputs _ _ _ E) as Hframe.
  vm_compute in E. inversion E; subst r s'; clear E.
  eexists. split; [reflexivity | exact Hframe].
Defined.

(** X14. When the constructor of the class [DynapcnnLayer] changes no
    object that exists when it is called, neither does
    [construct_next_dynapcnn_layer], whatever its outcome, a value or any
    exception: every object that existed before the call (the layers of
    the network passed in) is the same after it; the batch normalisation
    is folded into a copy and the consolidated pooling is a new object. *)
Theorem construct_never_modifies_the_network
  {F} {arith : Arith F} (T : Type)
  (new_DynapcnnLayer :
     loc -> loc -> option loc -> Z * Z * Z -> bool -> Z -> M (heap F) T)
  (is_SpikingLayer : Layer F -> bool) (type_repr : Layer F -> string)
  (h h' : heap F) (layers : list loc) (in_shape : Z * Z * Z)
  (discretize : bool) (rescale_factor : Z) (r : result (T * nat * Z)) :
  (forall conv spk pool shp disc w h1 r1 h2,
     new_DynapcnnLayer conv spk pool shp disc w h1 = (r1, h2) ->
     preserved h1 h2) ->
  construct_next_dynapcnn_layer new_DynapcnnLayer is_SpikingLayer type_repr
    layers in_shape discretize rescale_factor h
  = (r, h') ->
  preserved h h'.
Proof.
  intros Hclass E. apply extends_preserved.
  pose proof (@frames_construct_next_dynapcnn_layer F arith T
                new_DynapcnnLayer is_SpikingLayer type_repr Hclass h layers
                in_shape discretize rescale_factor) as Hf.
  unfold frames in Hf. eapply Hf in E; [apply E | apply extends_refl].
Qed.

(** The group conv (with bias), batch normalisation, spk, average pooling
    of size 2, with the class that records its arguments: the layer is
    requested for the merged copy, and the four layers are as before. *)
Lemma construct_never_modifies_the_network_witness :
  exists L h',
    construct_next_dynapcnn_layer Examples.recording_class
      Examples.spiking_classes Examples.qualified_names [0; 1; 2; 3]%nat
      (1, 4, 4) false 4
      [Examples.conv_biased; Examples.bn; Examples.spk; Examples.avg_2]
    = (OK (L, 3%nat, 4), h')
    /\ Examples.call_conv L = 4%nat
    /\ preserved
         [Examples.conv_biased; Examples.bn; Examples.spk; Examples.avg_2] h'.
Proof.
  destruct (construct_next_dynapcnn_layer Examples.recording_class
              Examples.spiking_classes Examples.qualified_names
              [0; 1; 2; 3]%nat (1, 4, 4) false 4
              [Examples.conv_biased; Examples.bn; Examples.spk;
               Examples.avg_2]) as [r h'] eqn:E.
  assert (Hclass : forall conv spk pool shp disc w (h1 : heap Z) r1 h2,
            Examples.recording_class conv spk pool shp disc w h1 = (r1, h2) ->
            preserved h1 h2).
  { intros conv spk pool shp disc w h1 r1 h2 E1. inversion E1; subst.
    intros l m Hl. exact Hl. }
  pose proof (@construct_never_modifies_the_network Z _ _ _ _ _ _ _ _ _ _ _
                _ Hclass E) as Hframe.
  vm_compute in E. inversion E; subst r h'; clear E.
  eexists. eexists. split; [reflexivity |]. split; [reflexivity |].
  exact Hframe.
Defined.

(** ** [construct_next_dynapcnn_layer], evaluated *)

Section ConstructEvaluated.
Context {F : Type} {arith : Arith F}.
Variable T : Type.
Variable new_DynapcnnLayer :
  loc -> loc -> option loc -> Z * Z * Z -> bool -> Z -> M (heap F) T.
Variable is_SpikingLayer : Layer F -> bool.
Variable type_repr : Layer F -> string.
Implicit Types (h : heap F) (m : Layer F).

Lemma deref_all_eq h ls : forall ms,
  Forall2 (fun l m => nth_error h l = Some m) ls ms ->
  deref_all ls h = (OK ms, h).
Proof.
  induction ls as [| l ls IH]; intros ms Hall; inversion Hall; subst;
    cbn [deref_all]; [reflexivity |].
  rewrite (bind_eq (deref_eq _ _ H1)).
  rewrite (bind_eq (IH _ H3)). reflexivity.
Qed.

Lemma list_item_eq (layers : list loc) i l :
  nth_error layers i = Some l -> list_item layers i = OK l.
Proof. unfold list_item. intros ->. reflexivity. Qed.

(** The function on a list whose first layer is a convolution or a linear
    layer, once the convolution to hand over ([lconv], in the heap [hx])
    and the index [idx] of the spiking layer are known: the outcome is
    that of the class, called on the heap where the consolidated pooling,
    if any, is the newest object. *)
Lemma construct_with h hx (layers : list loc) (l0 : loc) m0 (l1 : loc) m1
  (lconv : loc) (idx : nat) (lspk : loc) mspk ms
  (pool : option SumPool2d.t) (i : nat) r in_shape (discretize : bool)
  rescale_factor :
  nth_error layers 0 = Some l0 ->
  nth_error h l0 = Some m0 ->
  is_conv_or_linear m0 = true ->
  nth_error layers 1 = Some l1 ->
  nth_error h l1 = Some m1 ->
  conv_and_index l0 l1 m1 h = (OK (lconv, idx), hx) ->
  nth_error layers idx = Some lspk ->
  nth_error hx lspk = Some mspk ->
  is_SpikingLayer mspk = true ->
  Forall2 (fun l m => nth_error hx l = Some m) (skipn (S idx) layers) ms ->
  construct_next_pooling_layer ms = OK (pool, i, r) ->
  construct_next_dynapcnn_layer new_DynapcnnLayer is_SpikingLayer type_repr
    layers in_shape discretize rescale_factor h
  = attach
      (new_DynapcnnLayer lconv lspk
         (match pool with Some _ => Some (List.length hx) | None => None end)
         in_shape discretize rescale_factor
         (hx ++ match pool with Some p => [LSumPool2d p] | None => [] end))
      (S idx + i) r.
Proof.
  intros Hl0 Hm0 Hkind Hl1 Hm1 Hpre Hlspk Hsp Hspiking Hms Hpool.
  unfold conv_and_index in Hpre.
  unfold construct_next_dynapcnn_layer, attach.
  step ltac:(unfold lift; rewrite (list_item_eq _ _ Hl0); reflexivity).
  step ltac:(apply deref_eq; exact Hm0).
  destruct m0; try discriminate Hkind.
  all: step ltac:(unfold lift; rewrite (list_item_eq _ _ Hl0); reflexivity).
  all: step ltac:(unfold lift; rewrite (list_item_eq _ _ Hl1); reflexivity).
  all: step ltac:(apply deref_eq; exact Hm1).
  all: rewrite (bind_eq Hpre); cbv beta iota zeta.
  all: rewrite Hlspk.
  all: step reflexivity.
  all: step ltac:(apply deref_eq; exact Hsp).
  all: rewrite Hspiking.
  all: step ltac:(apply deref_all_eq; exact Hms).
  all: step ltac:(unfold lift; rewrite Hpool; reflexivity).
  all: cbv beta iota.
  all: destruct pool as [p |];
    [ step ltac:(unfold bind, alloc, ret; reflexivity)
    | step reflexivity; rewrite app_nil_r ].
  all: unfold bind at 1;
    destruct (new_DynapcnnLayer _ _ _ _ _ _ _) as [[L | e] h'];
    reflexivity.
Qed.

End ConstructEvaluated.

(** X15. On a list that starts with a convolution or a linear layer
    followed by a spiking layer, [construct_next_dynapcnn_layer] is one
    call of the class [DynapcnnLayer], whatever that class does: with
    (pool, i, r) the result of the consolidation of the layers that follow,
    the class is called for the first layer as it is (a linear layer is not
    converted here), the spiking layer and the consolidated pooling, a new
    object created before the call, with [rescale_weights] equal to the
    argument [rescale_factor] (not to r); the object it returns is
    returned with the index 2 + i and the factor r, and an exception it
    raises is passed on. *)
Theorem construct_calls_the_class_for_the_group
  {F} {arith : Arith F} (T : Type)
  (new_DynapcnnLayer :
     loc -> loc -> option loc -> Z * Z * Z -> bool -> Z -> M (heap F) T)
  (is_SpikingLayer : Layer F -> bool) (type_repr : Layer F -> string)
  (h : heap F) (l0 l1 : loc) (tail : list loc) (m0 m1 : Layer F)
  (ms : list (Layer F)) (pool : option SumPool2d.t) (i : nat) (r : Z)
  (in_shape : Z * Z * Z) (discretize : bool) (rescale_factor : Z) :
  nth_error h l0 = Some m0 ->
  is_conv_or_linear m0 = true ->
  nth_error h l1 = Some m1 ->
  (forall b, m1 <> LBatchNorm2d b) ->
  is_SpikingLayer m1 = true ->
  Forall2 (fun l m => nth_error h l = Some m) tail ms ->
  construct_next_pooling_layer ms = OK (pool, i, r) ->
  let pooling :=
    match pool with Some p => [LSumPool2d p] | None => [] end in
  let lyr_pool :=
    match pool with Some _ => Some (List.length h) | None => None end in
  let called :=
    new_DynapcnnLayer l0 l1 lyr_pool in_shape discretize rescale_factor
      (h ++ pooling) in
  construct_next_dynapcnn_layer new_DynapcnnLayer is_SpikingLayer type_repr
    (l0 :: l1 :: tail) in_shape discretize rescale_factor h
  = attach called (2 + i) r.
Proof.
  intros Hm0 Hkind Hm1 Hnbn Hspiking Hms Hpool pooling lyr_pool called.
  apply (@construct_with F arith T new_DynapcnnLayer is_SpikingLayer
           type_repr h h (l0 :: l1 :: tail) l0 m0 l1 m1 l0 1%nat l1 m1 ms
           pool i r in_shape discretize rescale_factor);
    try assumption; try reflexivity.
  unfold conv_and_index. destruct m1; try reflexivity.
  elim (Hnbn _ eq_refl).
Qed.

(** The second group of the chain, conv_b, spk, average pooling 2, and
    the layers of the third group after them, with the class that records
    its arguments: the pooling is the new object 7, the factor handed over
    is the argument 1 and the factor returned is 4. *)
Lemma construct_calls_the_class_for_the_group_witness :
  construct_next_dynapcnn_layer Examples.recording_class
    Examples.spiking_classes Examples.qualified_names [2; 3; 4; 5; 6]%nat
    (2, 4, 4) false 1 Examples.chain_heap
  = (OK (Examples.mkCall 2%nat 3%nat (Some 7%nat) (2, 4, 4) false 1,
         3%nat, 4),
     Examples.chain_heap ++ [LSumPool2d (SumPool2d.new (PPair 2 2))]).
Proof.
  apply (@construct_calls_the_class_for_the_group Z _ _
           Examples.recording_class Examples.spiking_classes
           Examples.qualified_names Examples.chain_heap 2%nat 3%nat
           [4; 5; 6]%nat Examples.conv_b Examples.spk
           [Examples.avg_2; Examples.conv_c; Examples.spk]
           (Some (SumPool2d.new (PPair 2 2))) 1%nat 4 (2, 4, 4) false 1);
    try reflexivity.
  - discriminate.
  - repeat constructor.
Defined.

(** X16. When a batch normalisation follows the first layer, the class
    is called for the copy that [merge_conv_bn] returns for the two
    layers, the original being left as it is, and the index returned counts
    the batch normalisation: 3 + i; when [merge_conv_bn] raises (as it
    does for a convolution without bias), the exception is passed on and
    the class is not called. *)
Theorem construct_folds_batch_norm_first
  {F} {arith : Arith F} (T : Type)
  (new_DynapcnnLayer :
     loc -> loc -> option loc -> Z * Z * Z -> bool -> Z -> M (heap F) T)
  (is_SpikingLayer : Layer F -> bool) (type_repr : Layer F -> string)
  (h : heap F) (l0 l1 l2 : loc) (tail : list loc) (m0 m2 : Layer F)
  (b : BatchNorm2d.t F) (ms : list (Layer F)) (pool : option SumPool2d.t)
  (i : nat) (r : Z) (in_shape : Z * Z * Z) (discretize : bool)
  (rescale_factor : Z) :
  nth_error h l0 = Some m0 ->
  is_conv_or_linear m0 = true ->
  nth_error h l1 = Some (LBatchNorm2d b) ->
  (forall lm hx,
     merge_conv_bn l0 l1 h = (OK lm, hx) ->
     nth_error h l2 = Some m2 ->
     is_SpikingLayer m2 = true ->
     Forall2 (fun l m => nth_error h l = Some m) tail ms ->
     construct_next_pooling_layer ms = OK (pool, i, r) ->
     let pooling :=
       match pool with Some p => [LSumPool2d p] | None => [] end in
     let lyr_pool :=
       match pool with Some _ => Some (List.length hx) | None => None end in
     let called :=
       new_DynapcnnLayer lm l2 lyr_pool in_shape discretize rescale_factor
         (hx ++ pooling) in
     nth_error h lm = None
     /\ preserved h hx
     /\ construct_next_dynapcnn_layer new_DynapcnnLayer is_SpikingLayer
          type_repr (l0 :: l1 :: l2 :: tail) in_shape discretize
          rescale_factor h
        = attach called (3 + i) r)
  /\ (forall e hx,
        merge_conv_bn l0 l1 h = (Raise e, hx) ->
        construct_next_dynapcnn_layer new_DynapcnnLayer is_SpikingLayer
          type_repr (l0 :: l1 :: l2 :: tail) in_shape discretize
          rescale_factor h
        = (Raise e, hx)).
Proof.
  intros Hm0 Hkind Hbn. split.
  - intros lm hx Hmerge Hm2 Hspiking Hms Hpool pooling lyr_pool called.
    pose proof (merge_conv_bn_ok _ _ _ Hmerge)
      as (m0' & w & b' & m1 & m' & _ & Hlm & Hhx & _).
    assert (Hold : preserved h hx).
    { intros l m Hl. rewrite Hhx. apply nth_error_old. exact Hl. }
    split; [rewrite Hlm; apply nth_error_None; lia |].
    split; [exact Hold |].
    apply (@construct_with F arith T new_DynapcnnLayer is_SpikingLayer
             type_repr h hx (l0 :: l1 :: l2 :: tail) l0 m0 l1
             (LBatchNorm2d b) lm 2%nat l2 m2 ms pool i r in_shape
             discretize rescale_factor);
      try assumption; try reflexivity.
    + unfold conv_and_index. rewrite (bind_eq Hmerge). reflexivity.
    + apply Hold. exact Hm2.
    + eapply Forall2_impl; [| exact Hms]. intros l m Hl. apply Hold, Hl.
  - intros e hx Hmerge. unfold construct_next_dynapcnn_layer.
    step reflexivity.
    step ltac:(apply deref_eq; exact Hm0).
    destruct m0; try discriminate Hkind;
      (step reflexivity; step reflexivity;
       step ltac:(apply deref_eq; exact Hbn);
       apply bind_raises; apply bind_raises; exact Hmerge).
Qed.

(** conv (with bias), batch normalisation, spk, average pooling 2, with
    the class that records its arguments: the merged convolution is the
    new object 4, the pooling the new object 5, and the index is 3 + 0;
    and conv (without bias), batch normalisation, spk, for which the
    merge raises. *)
Lemma construct_folds_batch_norm_first_witness :
  construct_next_dynapcnn_layer Examples.recording_class
    Examples.spiking_classes Examples.qualified_names [0; 1; 2; 3]%nat
    (1, 4, 4) false 1
    [Examples.conv_biased; Examples.bn; Examples.spk; Examples.avg_2]
  = (OK (Examples.mkCall 4%nat 2%nat (Some 5%nat) (1, 4, 4) false 1,
         3%nat, 4),
     [Examples.conv_biased; Examples.bn; Examples.spk; Examples.avg_2;
      LConv2d (Examples.conv_1x1 32 48 (Some (mkTensor [2] [13; 13])));
      LSumPool2d (SumPool2d.new (PPair 2 2))])
  /\ exists hx,
       construct_next_dynapcnn_layer Examples.recording_class
         Examples.spiking_classes Examples.qualified_names [0; 1; 2]%nat
         (1, 4, 4) false 1
         [Examples.conv_without_bias; Examples.bn; Examples.spk]
       = (Raise (AttributeError "'NoneType' object has no attribute 'data'"),
          hx).
Proof.
  split.
  - destruct (proj1 (@construct_folds_batch_norm_first Z _ _
                       Examples.recording_class Examples.spiking_classes
                       Examples.qualified_names
                       [Examples.conv_biased; Examples.bn; Examples.spk;
                        Examples.avg_2]
                       0%nat 1%nat 2%nat [3%nat] Examples.conv_biased
                       Examples.spk
                       (BatchNorm2d.mk true (Some (mkTensor [2] [1; 2]))
                          (Some (mkTensor [2] [4; 16]))
                          (Some (mkTensor [2] [8; 12]))
                          (Some (mkTensor [2] [1; 1])))
                       [Examples.avg_2] (Some (SumPool2d.new (PPair 2 2)))
                       0%nat 4 (1, 4, 4) false 1 eq_refl eq_refl eq_refl)
                4%nat
                [Examples.conv_biased; Examples.bn; Examples.spk;
                 Examples.avg_2;
                 LConv2d
                   (Examples.conv_1x1 32 48 (Some (mkTensor [2] [13; 13])))])
      as (_ & _ & Hrun).
    + vm_compute. reflexivity.
    + reflexivity.
    + reflexivity.
    + repeat constructor.
    + reflexivity.
    + exact Hrun.
  - destruct (merge_conv_bn 0%nat 1%nat
                [Examples.conv_without_bias; Examples.bn; Examples.spk])
      as [rm hx] eqn:Em.
    exists hx.
    apply (proj2 (@construct_folds_batch_norm_first Z _ _
                    Examples.recording_class Examples.spiking_classes
                    Examples.qualified_names
                    [Examples.conv_without_bias; Examples.bn; Examples.spk]
                    0%nat 1%nat 2%nat [] Examples.conv_without_bias
                    Examples.spk
                    (BatchNorm2d.mk true (Some (mkTensor [2] [1; 2]))
                       (Some (mkTensor [2] [4; 16]))
                       (Some (mkTensor [2] [8; 12]))
                       (Some (mkTensor [2] [1; 1])))
                    [] None 0%nat 1 (1, 4, 4) false 1 eq_refl eq_refl
                    eq_refl)).
    rewrite Em. vm_compute in Em. inversion Em. reflexivity.
Defined.

(** X17. Errors at the start of the list.  On the empty list
    [construct_next_dynapcnn_layer] raises [IndexError], from the
    subscript [layers[0]]; when the first layer is neither a [Conv2d] nor a
    [Linear] (for instance a pooling left over by the previous group) it
    raises the exception that asks for one; nothing is allocated in either
    case, and the class is not called. *)
Theorem construct_rejects_bad_start
  {F} {arith : Arith F} (T : Type)
  (new_DynapcnnLayer :
     loc -> loc -> option loc -> Z * Z * Z -> bool -> Z -> M (heap F) T)
  (is_SpikingLayer : Layer F -> bool) (type_repr : Layer F -> string)
  (h : heap F) (layers : list loc) (l0 : loc) (m0 : Layer F)
  (in_shape : Z * Z * Z) (discretize : bool) (rescale_factor : Z) :
  construct_next_dynapcnn_layer new_DynapcnnLayer is_SpikingLayer type_repr
    [] in_shape discretize rescale_factor h
  = (Raise (IndexError "list index out of range"), h)
  /\ (nth_error layers 0 = Some l0 ->
      nth_error h l0 = Some m0 ->
      is_conv_or_linear m0 = false ->
      construct_next_dynapcnn_layer new_DynapcnnLayer is_SpikingLayer
        type_repr layers in_shape discretize rescale_factor h
      = (Raise (Exception msg_start), h)).
Proof.
  split; [reflexivity |].
  intros Hl0 Hm0 Hkind. unfold construct_next_dynapcnn_layer.
  step ltac:(unfold lift; rewrite (list_item_eq _ _ Hl0); reflexivity).
  step ltac:(apply deref_eq; exact Hm0).
  destruct m0; try discriminate Hkind; reflexivity.
Qed.

(** The chain entered at its average pooling. *)
Lemma construct_rejects_bad_start_witness :
  construct_next_dynapcnn_layer Examples.recording_class
    Examples.spiking_classes Examples.qualified_names [4; 5; 6]%nat
    (2, 4, 4) false 4 Examples.chain_heap
  = (Raise (Exception msg_start), Examples.chain_heap).
Proof.
  apply (@construct_rejects_bad_start Z _ _ Examples.recording_class
           Examples.spiking_classes Examples.qualified_names
           Examples.chain_heap [4; 5; 6]%nat 4%nat Examples.avg_2 (2, 4, 4)
           false 4);
    reflexivity.
Defined.

(** X18. Errors after the convolution.  A convolution (or linear layer)
    that is the only element of the list raises [IndexError], from the
    subscript [layers[1]] that looks for a batch normalisation, and not the
    [TypeError] for the end of the network; that [TypeError] is raised
    when the list is a convolution and a batch normalisation that could be
    merged, the merged copy staying allocated.  A second layer that is
    neither a batch normalisation nor an instance of [SpikingLayer] raises
    the [TypeError] whose message ends with the class of that layer, with
    nothing allocated.  The class [DynapcnnLayer] is called in none of
    these cases. *)
Theorem construct_errors_after_the_convolution
  {F} {arith : Arith F} (T : Type)
  (new_DynapcnnLayer :
     loc -> loc -> option loc -> Z * Z * Z -> bool -> Z -> M (heap F) T)
  (is_SpikingLayer : Layer F -> bool) (type_repr : Layer F -> string)
  (h hx : heap F) (l0 l1 lm : loc) (rest : list loc) (m0 m1 : Layer F)
  (b : BatchNorm2d.t F) (in_shape : Z * Z * Z) (discretize : bool)
  (rescale_factor : Z) :
  nth_error h l0 = Some m0 ->
  is_conv_or_linear m0 = true ->
  construct_next_dynapcnn_layer new_DynapcnnLayer is_SpikingLayer type_repr
    [l0] in_shape discretize rescale_factor h
  = (Raise (IndexError "list index out of range"), h)
  /\ (nth_error h l1 = Some (LBatchNorm2d b) ->
      merge_conv_bn l0 l1 h = (OK lm, hx) ->
      construct_next_dynapcnn_layer new_DynapcnnLayer is_SpikingLayer
        type_repr [l0; l1] in_shape discretize rescale_factor h
      = (Raise (TypeError msg_end_of_network), hx))
  /\ (nth_error h l1 = Some m1 ->
      (forall b', m1 <> LBatchNorm2d b') ->
      is_SpikingLayer m1 = false ->
      construct_next_dynapcnn_layer new_DynapcnnLayer is_SpikingLayer
        type_repr (l0 :: l1 :: rest) in_shape discretize rescale_factor h
      = (Raise (TypeError
                  (append
                     "Convolution must be followed by spiking layer, found "
                     (type_repr m1))), h)).
Proof.
  intros Hm0 Hkind. split; [| split].
  - unfold construct_next_dynapcnn_layer.
    step reflexivity.
    step ltac:(apply deref_eq; exact Hm0).
    destruct m0; try discriminate Hkind; reflexivity.
  - intros Hbn Hmerge. unfold construct_next_dynapcnn_layer.
    step reflexivity.
    step ltac:(apply deref_eq; exact Hm0).
    destruct m0; try discriminate Hkind;
      (step reflexivity; step reflexivity;
       step ltac:(apply deref_eq; exact Hbn);
       step ltac:(unfold bind at 1; rewrite Hmerge; reflexivity);
       reflexivity).
  - intros Hm1 Hnbn Hnspk. unfold construct_next_dynapcnn_layer.
    step reflexivity.
    step ltac:(apply deref_eq; exact Hm0).
    assert (Hpre : conv_and_index l0 l1 m1 h = (OK (l0, 1%nat), h)).
    { unfold conv_and_index. destruct m1; try reflexivity.
      elim (Hnbn _ eq_refl). }
    unfold conv_and_index in Hpre.
    destruct m0; try discriminate Hkind;
      (step reflexivity; step reflexivity;
       step ltac:(apply deref_eq; exact Hm1);
       rewrite (bind_eq Hpre); cbv beta iota; cbn [nth_error];
       step reflexivity;
       step ltac:(apply deref_eq; exact Hm1);
       rewrite Hnspk; reflexivity).
Qed.

(** A convolution alone; a convolution and a batch normalisation alone;
    two convolutions in a row. *)
Lemma construct_errors_after_the_convolution_witness :
  construct_next_dynapcnn_layer Examples.recording_class
    Examples.spiking_classes Examples.qualified_names [0%nat] (1, 4, 4)
    false 1 [Examples.conv_biased; Examples.bn]
  = (Raise (IndexError "list index out of range"),
     [Examples.conv_biased; Examples.bn])
  /\ (exists hx,
        construct_next_dynapcnn_layer Examples.recording_class
          Examples.spiking_classes Examples.qualified_names [0; 1]%nat
          (1, 4, 4) false 1 [Examples.conv_biased; Examples.bn]
        = (Raise (TypeError msg_end_of_network), hx)
        /\ List.length hx = 3%nat)
  /\ construct_next_dynapcnn_layer Examples.recording_class
       Examples.spiking_classes Examples.qualified_names [0; 0; 1]%nat
       (1, 4, 4) false 1 [Examples.conv_biased; Examples.bn]
     = (Raise (TypeError
                 "Convolution must be followed by spiking layer, found <class 'torch.nn.modules.conv.Conv2d'>"),
        [Examples.conv_biased; Examples.bn]).
Proof.
  destruct (merge_conv_bn 0%nat 1%nat [Examples.conv_biased; Examples.bn])
    as [rm hx] eqn:Em.
  vm_compute in Em. inversion Em as [[Hrm Hhx]].
  assert (Hmerge : merge_conv_bn 0%nat 1%nat
                     [Examples.conv_biased; Examples.bn] = (OK 2%nat, hx))
    by (rewrite <- Hhx; vm_compute; reflexivity).
  destruct (@construct_errors_after_the_convolution Z _ _
              Examples.recording_class Examples.spiking_classes
              Examples.qualified_names
              [Examples.conv_biased; Examples.bn] hx 0%nat 1%nat 2%nat
              [1%nat] Examples.conv_biased Examples.conv_biased
              (BatchNorm2d.mk true (Some (mkTensor [2] [1; 2]))
                 (Some (mkTensor [2] [4; 16])) (Some (mkTensor [2] [8; 12]))
                 (Some (mkTensor [2] [1; 1])))
              (1, 4, 4) false 1 eq_refl eq_refl) as (Halone & Hend & _).
  destruct (@construct_errors_after_the_convolution Z _ _
              Examples.recording_class Examples.spiking_classes
              Examples.qualified_names
              [Examples.conv_biased; Examples.bn] hx 0%nat 0%nat 2%nat
              [1%nat] Examples.conv_biased Examples.conv_biased
              (BatchNorm2d.mk true None None None None)
              (1, 4, 4) false 1 eq_refl eq_refl) as (_ & _ & Hother).
  split; [exact Halone | split].
  - exists hx. split; [apply Hend; [reflexivity | exact Hmerge] |].
    rewrite <- Hhx. reflexivity.
  - apply Hother; [reflexivity | discriminate | reflexivity].
Defined.

(** ** The rescale factor of a pooling *)

Section ConvAndIndex.
Context {F : Type} {arith : Arith F}.


End ConvAndIndex.




(** ** Further properties of [make_config] *)

(** X19. Two arguments of [make_config] that the body does not use.  A
    [chip_layers_ordering] given as a sequence has no influence on the
    outcome: any two sequences give the same.  Of a [monitor_layers] given
    as a list only the presence of "dvs" counts: the layer indices in it
    are ignored, two lists that agree on "dvs" give the same, and a list
    of indices alone monitors what the empty list monitors. *)
Theorem make_config_ignores_explicit_choices {Cfg}
  (ChipFactory : string -> result (DynapcnnNetworkGraph.ConfigBuilder Cfg))
  (self : DynapcnnNetworkGraph.t) (device : string)
  (config_modifier : option (Cfg -> result Cfg))
  (cores cores' : list Z)
  (l l' : list DynapcnnNetworkGraph.monitor_item) :
  (forall monitor,
     DynapcnnNetworkGraph.make_config ChipFactory self
       (DynapcnnNetworkGraph.Explicit cores) device monitor config_modifier
     = DynapcnnNetworkGraph.make_config ChipFactory self
         (DynapcnnNetworkGraph.Explicit cores') device monitor
         config_modifier)
  /\ (existsb
        (DynapcnnNetworkGraph.monitor_item_eqb
           (DynapcnnNetworkGraph.MStr "dvs")) l
      = existsb
          (DynapcnnNetworkGraph.monitor_item_eqb
             (DynapcnnNetworkGraph.MStr "dvs")) l' ->
      forall ordering,
        DynapcnnNetworkGraph.make_config ChipFactory self ordering device
          (DynapcnnNetworkGraph.MonList l) config_modifier
        = DynapcnnNetworkGraph.make_config ChipFactory self ordering device
            (DynapcnnNetworkGraph.MonList l') config_modifier).
Proof.
  split.
  - intros monitor. reflexivity.
  - intros Hdvs ordering.
    unfold DynapcnnNetworkGraph.make_config,
      DynapcnnNetworkGraph._make_config.
    rewrite Hdvs. reflexivity.
Qed.

(** On the toy device: monitoring the layers 0 and 1 by their indices
    gives what monitoring nothing gives. *)
Lemma make_config_ignores_explicit_choices_witness :
  DynapcnnNetworkGraph.make_config Examples.toy_factory Examples.two_layers
    (DynapcnnNetworkGraph.Explicit [3; 5]) "toy:0"
    (DynapcnnNetworkGraph.MonList
       [DynapcnnNetworkGraph.MInt 0; DynapcnnNetworkGraph.MInt 1])
    None
  = DynapcnnNetworkGraph.make_config Examples.toy_factory Examples.two_layers
      (DynapcnnNetworkGraph.Explicit [3; 5]) "toy:0"
      (DynapcnnNetworkGraph.MonList []) None.
Proof.
  apply (@make_config_ignores_explicit_choices _ Examples.toy_factory
           Examples.two_layers "toy:0" None [] []
           [DynapcnnNetworkGraph.MInt 0; DynapcnnNetworkGraph.MInt 1] []).
  reflexivity.
Defined.

(** X20. Failures before the configuration is assembled.  When the
    factory has no builder for the device, [make_config] raises the error
    of the factory; when it has one and the network has no layer of index
    0 (the empty network for instance), [make_config] raises [KeyError],
    from [self.dynapcnn_layers[0]], whatever the builder is. *)
Theorem make_config_needs_layer_0 {Cfg}
  (ChipFactory : string -> result (DynapcnnNetworkGraph.ConfigBuilder Cfg))
  (self : DynapcnnNetworkGraph.t)
  (chip_layers_ordering : DynapcnnNetworkGraph.ordering) (device : string)
  (monitor : DynapcnnNetworkGraph.monitor_spec)
  (config_modifier : option (Cfg -> result Cfg)) :
  (forall e,
     ChipFactory device = Raise e ->
     DynapcnnNetworkGraph.make_config ChipFactory self chip_layers_ordering
       device monitor config_modifier = Raise e)
  /\ (forall config_builder,
        ChipFactory device = OK config_builder ->
        DynapcnnNetworkGraph.items_get
          (DynapcnnNetworkGraph.dynapcnn_layers self) 0 = None ->
        DynapcnnNetworkGraph.make_config ChipFactory self
          chip_layers_ordering device monitor config_modifier
        = Raise (KeyError "0")).
Proof.
  unfold DynapcnnNetworkGraph.make_config, DynapcnnNetworkGraph._make_config.
  split.
  - intros e He. rewrite He. reflexivity.
  - intros config_builder Hb H0. rewrite Hb, H0. reflexivity.
Qed.

(** The network without layers on the toy device, and the two layers on
    an unknown device. *)
Lemma make_config_needs_layer_0_witness :
  DynapcnnNetworkGraph.make_config Examples.toy_factory
    (DynapcnnNetworkGraph.mk [] (Some (2, 8, 8)))
    DynapcnnNetworkGraph.Auto "toy:0" DynapcnnNetworkGraph.MonNone None
  = Raise (KeyError "0")
  /\ DynapcnnNetworkGraph.make_config Examples.toy_factory
       Examples.two_layers DynapcnnNetworkGraph.Auto "speck2b:0"
       DynapcnnNetworkGraph.MonNone None
     = Raise (Exception "unsupported device").
Proof.
  split.
  - apply (@make_config_needs_layer_0 _ Examples.toy_factory
             (DynapcnnNetworkGraph.mk [] (Some (2, 8, 8)))
             DynapcnnNetworkGraph.Auto "toy:0" DynapcnnNetworkGraph.MonNone
             None) with (config_builder := Examples.toy_builder);
      reflexivity.
  - apply (@make_config_needs_layer_0 _ Examples.toy_factory
             Examples.two_layers DynapcnnNetworkGraph.Auto "speck2b:0"
             DynapcnnNetworkGraph.MonNone None).
    reflexivity.
Defined.

(** X21. The configuration modifier of the user is the last step before
    the validation: when [_make_config] without a modifier gives the
    configuration [c0], then with the modifier [f] it gives [f c0] together
    with the verdict of the validator on [f c0] (not on [c0]), and it
    fails as [f] or the validator fail. *)
Theorem config_modifier_applied_last {Cfg}
  (ChipFactory : string -> result (DynapcnnNetworkGraph.ConfigBuilder Cfg))
  (self : DynapcnnNetworkGraph.t)
  (chip_layers_ordering : DynapcnnNetworkGraph.ordering) (device : string)
  (monitor : DynapcnnNetworkGraph.monitor_spec)
  (f : Cfg -> result Cfg)
  (config_builder : DynapcnnNetworkGraph.ConfigBuilder Cfg)
  (c0 : Cfg) (v0 : bool) :
  ChipFactory device = OK config_builder ->
  DynapcnnNetworkGraph._make_config ChipFactory self chip_layers_ordering
    device monitor None = OK (c0, v0) ->
  DynapcnnNetworkGraph._make_config ChipFactory self chip_layers_ordering
    device monitor (Some f)
  = (do c <- f c0;
     do v <- DynapcnnNetworkGraph.validate_configuration config_builder c;
     OK (c, v))%result.
Proof.
  unfold DynapcnnNetworkGraph._make_config. intros Hb E.
  rewrite Hb in *. cbn [rbind] in *.
  destruct (match DynapcnnNetworkGraph.items_get _ 0 with
            | Some e => OK e
            | None => Raise (KeyError "0")
            end) as [first |]; [| discriminate E].
  cbn [rbind] in *.
  destruct (match chip_layers_ordering with
            | DynapcnnNetworkGraph.Auto => _
            | DynapcnnNetworkGraph.Explicit cores => _
            end) as [cores |]; [| discriminate E].
  cbn [rbind] in *.
  destruct (DynapcnnNetworkGraph.build_config config_builder self)
    as [config |]; [| discriminate E].
  cbn [rbind] in *.
  destruct (match DynapcnnNetworkGraph.input_shape self with
            | Some (c, _, _) => _
            | None => _
            end) as [config1 |]; [| discriminate E].
  cbn [rbind] in *.
  destruct (DynapcnnNetworkGraph.monitor_layers config_builder config1 _)
    as [config2 |]; [| discriminate E].
  cbn [rbind] in *.
  destruct (DynapcnnNetworkGraph.validate_configuration config_builder
              config2) as [valid |]; [| discriminate E].
  cbn [rbind] in E. inversion E; subst. reflexivity.
Qed.

(** On the toy device, a modifier that adds the monitoring of the DVS
    makes the configuration invalid. *)
Lemma config_modifier_applied_last_witness :
  DynapcnnNetworkGraph._make_config Examples.toy_factory Examples.two_layers
    DynapcnnNetworkGraph.Auto "toy:0" DynapcnnNetworkGraph.MonNone
    (Some (fun c => OK (DynapcnnNetworkGraph.Dvs :: c)))
  = OK ([DynapcnnNetworkGraph.Dvs;
         DynapcnnNetworkGraph.Core (Some 1)], false).
Proof.
  apply (@config_modifier_applied_last _ Examples.toy_factory
           Examples.two_layers DynapcnnNetworkGraph.Auto "toy:0"
           DynapcnnNetworkGraph.MonNone
           (fun c => OK (DynapcnnNetworkGraph.Dvs :: c))
           Examples.toy_builder [DynapcnnNetworkGraph.Core (Some 1)] true);
    reflexivity.
Defined.
